(** * BioSim: the lesson-plan viewer, its share links and its content service

    A shallow embedding of the repository's TypeScript:
    - [services/geminiService.ts]: [generateSimulationPlan], [generateImage],
      [editImage], [generateVideo];
    - [App.tsx]: the React state of [App] and its handlers
      ([loadSimulationFromURL], [handleTopicSubmit],
      [generateVisualForCurrentStep], [handleImageEdit],
      [handleVideoRegenerate], [goToStep]);
    - [components/SimulationViewer.tsx]: [ImageEditor.handleEdit],
      [VideoOptions.handleRegenerateClick], [handleShare], [handleDownload],
      the early returns and the conditionals of the rendered panel;
    - [components/TopicInput.tsx]: [handleSubmit].

    The platform functions the code calls ([JSON.parse], [JSON.stringify],
    [encodeURIComponent], [decodeURIComponent], [btoa], [atob],
    [URLSearchParams], [String.prototype.trim]) are modelled after the
    algorithms of ECMA-262 and of the WHATWG Infra, HTML and URL standards. *)

From Stdlib Require Import ZArith List String Ascii Bool Lia DecimalString.
Import ListNotations.
Open Scope Z_scope.

(* ================================================================== *)
(** * JavaScript strings *)
(* ================================================================== *)

(** A JavaScript string is a finite sequence of UTF-16 code units; a code
    unit is an integer in [0, 65535]. *)
Definition jstring := list Z.

Definition code_unit (c : Z) : bool := (0 <=? c) && (c <? 65536).
Definition well_formed (s : jstring) : bool := forallb code_unit s.

(** String literals of the source, written with Rocq strings. *)
Definition lit (s : string) : jstring :=
  map (fun a => Z.of_N (N_of_ascii a)) (list_ascii_of_string s).

Fixpoint jstring_eqb (a b : jstring) : bool :=
  match a, b with
  | [], [] => true
  | x :: a', y :: b' => (x =? y) && jstring_eqb a' b'
  | _, _ => false
  end.

Fixpoint starts_with (prefix s : jstring) : bool :=
  match prefix, s with
  | [], _ => true
  | p :: prefix', c :: s' => (p =? c) && starts_with prefix' s'
  | _ :: _, [] => false
  end.

(** [s.includes(sub)] *)
Fixpoint includes (s sub : jstring) : bool :=
  starts_with sub s ||
  match s with
  | [] => false
  | _ :: s' => includes s' sub
  end.

(** [s.split(sep)] for a separator of one code unit. *)
Fixpoint split_on (sep : Z) (s : jstring) : list jstring :=
  match s with
  | [] => [[]]
  | c :: s' =>
      if c =? sep then [] :: split_on sep s'
      else match split_on sep s' with
           | piece :: rest => (c :: piece) :: rest
           | [] => [[c]]
           end
  end.

(** The code units [String.prototype.trim] strips: WhiteSpace and
    LineTerminator of ECMA-262. *)
Definition is_trim_space (c : Z) : bool :=
  (c =? 9) || (c =? 10) || (c =? 11) || (c =? 12) || (c =? 13) || (c =? 32)
  || (c =? 160) || (c =? 5760) || ((8192 <=? c) && (c <=? 8202))
  || (c =? 8232) || (c =? 8233) || (c =? 8239) || (c =? 8287)
  || (c =? 12288) || (c =? 65279).

Fixpoint trim_start (s : jstring) : jstring :=
  match s with
  | c :: s' => if is_trim_space c then trim_start s' else s
  | [] => []
  end.

Definition trim (s : jstring) : jstring :=
  rev (trim_start (rev (trim_start s))).

(** Surrogate code units. *)
Definition is_high_surrogate (c : Z) : bool := (55296 <=? c) && (c <=? 56319).
Definition is_low_surrogate (c : Z) : bool := (56320 <=? c) && (c <=? 57343).

(** The code point of a surrogate pair, and the pair of a supplementary
    code point. *)
Definition pair_code_point (hi lo : Z) : Z :=
  65536 + (hi - 55296) * 1024 + (lo - 56320).

Definition utf16_encode (cp : Z) : jstring :=
  if cp <? 65536 then [cp]
  else [55296 + (cp - 65536) / 1024; 56320 + (cp - 65536) mod 1024].

(** Hexadecimal digits. *)
Definition hex_value (c : Z) : option Z :=
  if (48 <=? c) && (c <=? 57) then Some (c - 48)
  else if (65 <=? c) && (c <=? 70) then Some (c - 55)
  else if (97 <=? c) && (c <=? 102) then Some (c - 87)
  else None.

Definition hex_upper (d : Z) : Z := if d <? 10 then 48 + d else 55 + d.
Definition hex_lower (d : Z) : Z := if d <? 10 then 48 + d else 87 + d.

(* ================================================================== *)
(** * JSON values, [JSON.parse] and [JSON.stringify] *)
(* ================================================================== *)

(** The values [JSON.parse] produces.  A number keeps the text of its
    literal: the code under study only tests numbers for truthiness, and
    the model does not identify two literals of the same double.  An
    object lists its own properties in property order. *)
#[warnings="-register-all"]
Inductive JSON : Type :=
| JNull
| JBool (b : bool)
| JNum (literal : jstring)
| JStr (s : jstring)
| JArr (items : list JSON)
| JObj (props : list (jstring * JSON)).

(** ** Parsing *)

(** JSON white space: tab, line feed, carriage return, space. *)
Definition is_json_ws (c : Z) : bool :=
  (c =? 9) || (c =? 10) || (c =? 13) || (c =? 32).

Fixpoint skip_ws (s : jstring) : jstring :=
  match s with
  | c :: s' => if is_json_ws c then skip_ws s' else s
  | [] => []
  end.

Definition hex4 (h1 h2 h3 h4 : Z) : option Z :=
  match hex_value h1, hex_value h2, hex_value h3, hex_value h4 with
  | Some a, Some b, Some c, Some d => Some (((a * 16 + b) * 16 + c) * 16 + d)
  | _, _, _, _ => None
  end.

(** The single-character escapes after a backslash. *)
Definition simple_escape (e : Z) : option Z :=
  if e =? 34 then Some 34            (* quotation mark *)
  else if e =? 92 then Some 92       (* backslash *)
  else if e =? 47 then Some 47       (* solidus *)
  else if e =? 98 then Some 8        (* b *)
  else if e =? 102 then Some 12      (* f *)
  else if e =? 110 then Some 10      (* n *)
  else if e =? 114 then Some 13      (* r *)
  else if e =? 116 then Some 9       (* t *)
  else None.

Definition cons_chars (c : Z) (r : option (jstring * jstring))
  : option (jstring * jstring) :=
  match r with
  | Some (cs, rest) => Some (c :: cs, rest)
  | None => None
  end.

(** The characters of a string literal after its opening quotation mark,
    up to and including the closing one. *)
Fixpoint parse_chars (s : jstring) : option (jstring * jstring) :=
  match s with
  | [] => None
  | c :: s1 =>
      if c =? 34 then Some ([], s1)
      else if c =? 92 then
        match s1 with
        | [] => None
        | e :: s2 =>
            if e =? 117 then
              match s2 with
              | h1 :: h2 :: h3 :: h4 :: s3 =>
                  match hex4 h1 h2 h3 h4 with
                  | Some u => cons_chars u (parse_chars s3)
                  | None => None
                  end
              | _ => None
              end
            else
              match simple_escape e with
              | Some u => cons_chars u (parse_chars s2)
              | None => None
              end
        end
      else if c <? 32 then None
      else cons_chars c (parse_chars s1)
  end.

Definition is_digit (c : Z) : bool := (48 <=? c) && (c <=? 57).

Fixpoint take_digits (s : jstring) : jstring * jstring :=
  match s with
  | c :: s' =>
      if is_digit c then let (ds, rest) := take_digits s' in (c :: ds, rest)
      else ([], s)
  | [] => ([], [])
  end.

(** A number literal: an optional minus sign; an integer part that is a
    single zero or a non-zero digit followed by digits; an optional
    fraction (a dot and at least one digit); an optional exponent (e or E,
    an optional sign, at least one digit). *)
Definition parse_int_part (s : jstring) : option (jstring * jstring) :=
  match s with
  | c :: s' =>
      if c =? 48 then Some ([48], s')
      else if is_digit c then let (ds, rest) := take_digits s' in Some (c :: ds, rest)
      else None
  | [] => None
  end.

Definition parse_frac_part (s : jstring) : option (jstring * jstring) :=
  match s with
  | c :: s' =>
      if c =? 46 then
        match take_digits s' with
        | ([], _) => None
        | (ds, rest) => Some (46 :: ds, rest)
        end
      else Some ([], s)
  | [] => Some ([], [])
  end.

Definition parse_exp_digits (pre : jstring) (s : jstring)
  : option (jstring * jstring) :=
  match take_digits s with
  | ([], _) => None
  | (ds, rest) => Some (pre ++ ds, rest)
  end.

Definition parse_exp_part (s : jstring) : option (jstring * jstring) :=
  match s with
  | c :: s' =>
      if (c =? 101) || (c =? 69) then
        match s' with
        | g :: s'' =>
            if (g =? 43) || (g =? 45) then parse_exp_digits [c; g] s''
            else parse_exp_digits [c] s'
        | [] => None
        end
      else Some ([], s)
  | [] => Some ([], [])
  end.

Definition parse_unsigned (s : jstring) : option (jstring * jstring) :=
  match parse_int_part s with
  | Some (i, s1) =>
      match parse_frac_part s1 with
      | Some (f, s2) =>
          match parse_exp_part s2 with
          | Some (e, s3) => Some (i ++ f ++ e, s3)
          | None => None
          end
      | None => None
      end
  | None => None
  end.

Definition parse_number (s : jstring) : option (jstring * jstring) :=
  match s with
  | c :: s' =>
      if c =? 45 then
        match parse_unsigned s' with
        | Some (n, rest) => Some (45 :: n, rest)
        | None => None
        end
      else parse_unsigned s
  | [] => None
  end.

(** Property order of an ordinary object: array-index keys in ascending
    numeric order first, then the other keys in creation order.  An array
    index is the canonical decimal text of an integer below 2^32 - 1. *)
Fixpoint digits_value (acc : Z) (s : jstring) : option Z :=
  match s with
  | [] => Some acc
  | c :: s' => if is_digit c then digits_value (acc * 10 + (c - 48)) s' else None
  end.

Definition array_index (key : jstring) : option Z :=
  match key with
  | [] => None
  | [c] => if is_digit c then Some (c - 48) else None
  | c :: _ =>
      if c =? 48 then None
      else match digits_value 0 key with
           | Some n => if n <? 4294967295 then Some n else None
           | None => None
           end
  end.

Fixpoint replace_prop (key : jstring) (v : JSON) (props : list (jstring * JSON))
  : option (list (jstring * JSON)) :=
  match props with
  | [] => None
  | (k, w) :: rest =>
      if jstring_eqb k key then Some ((k, v) :: rest)
      else match replace_prop key v rest with
           | Some rest' => Some ((k, w) :: rest')
           | None => None
           end
  end.

Fixpoint insert_index (n : Z) (key : jstring) (v : JSON)
  (props : list (jstring * JSON)) : list (jstring * JSON) :=
  match props with
  | [] => [(key, v)]
  | (k, w) :: rest =>
      match array_index k with
      | Some m => if m <? n then (k, w) :: insert_index n key v rest
                  else (key, v) :: props
      | None => (key, v) :: props
      end
  end.

(** [CreateDataProperty(obj, key, v)] on the property list: a key already
    present keeps its place and takes the new value. *)
Definition define_prop (key : jstring) (v : JSON) (props : list (jstring * JSON))
  : list (jstring * JSON) :=
  match replace_prop key v props with
  | Some props' => props'
  | None =>
      match array_index key with
      | Some n => insert_index n key v props
      | None => props ++ [(key, v)]
      end
  end.

Definition literal_value (word : jstring) (v : JSON) (s : jstring)
  : option (JSON * jstring) :=
  if starts_with word s then Some (v, skipn (List.length word) s) else None.

(** The recursive-descent parser.  [fuel] bounds the recursion; every
    recursive call consumes input, so the length of the text is enough
    (see [JSON_parse]). *)
Fixpoint parse_value (fuel : nat) (s : jstring) : option (JSON * jstring) :=
  match fuel with
  | O => None
  | S fuel' =>
      match s with
      | [] => None
      | c :: s1 =>
          if c =? 123 then                       (* left brace *)
            match skip_ws s1 with
            | d :: s2 =>
                if d =? 125 then Some (JObj [], s2)
                else parse_members fuel' [] (d :: s2)
            | [] => None
            end
          else if c =? 91 then                   (* left bracket *)
            match skip_ws s1 with
            | d :: s2 =>
                if d =? 93 then Some (JArr [], s2)
                else parse_elements fuel' [] (d :: s2)
            | [] => None
            end
          else if c =? 34 then
            match parse_chars s1 with
            | Some (cs, rest) => Some (JStr cs, rest)
            | None => None
            end
          else if c =? 116 then literal_value (lit "true") (JBool true) s
          else if c =? 102 then literal_value (lit "false") (JBool false) s
          else if c =? 110 then literal_value (lit "null") JNull s
          else
            match parse_number s with
            | Some (n, rest) => Some (JNum n, rest)
            | None => None
            end
      end
  end

(** Elements of an array after the first check for a right bracket:
    [acc] holds the elements read so far, in reverse. *)
with parse_elements (fuel : nat) (acc : list JSON) (s : jstring)
  : option (JSON * jstring) :=
  match fuel with
  | O => None
  | S fuel' =>
      match parse_value fuel' s with
      | Some (v, rest) =>
          match skip_ws rest with
          | d :: s2 =>
              if d =? 44 then parse_elements fuel' (v :: acc) (skip_ws s2)
              else if d =? 93 then Some (JArr (rev (v :: acc)), s2)
              else None
          | [] => None
          end
      | None => None
      end
  end

(** Members of an object: [props] holds the properties defined so far. *)
with parse_members (fuel : nat) (props : list (jstring * JSON)) (s : jstring)
  : option (JSON * jstring) :=
  match fuel with
  | O => None
  | S fuel' =>
      match s with
      | q :: s1 =>
          if q =? 34 then
            match parse_chars s1 with
            | Some (key, rest) =>
                match skip_ws rest with
                | colon :: s2 =>
                    if colon =? 58 then
                      match parse_value fuel' (skip_ws s2) with
                      | Some (v, rest') =>
                          match skip_ws rest' with
                          | d :: s3 =>
                              if d =? 44 then
                                parse_members fuel' (define_prop key v props) (skip_ws s3)
                              else if d =? 125 then
                                Some (JObj (define_prop key v props), s3)
                              else None
                          | [] => None
                          end
                      | None => None
                      end
                    else None
                | [] => None
                end
            | None => None
            end
          else None
      | [] => None
      end
  end.

(** [JSON.parse(text)]: [None] stands for the SyntaxError it throws. *)
Definition JSON_parse (text : jstring) : option JSON :=
  match parse_value (S (List.length text)) (skip_ws text) with
  | Some (v, rest) =>
      match skip_ws rest with
      | [] => Some v
      | _ :: _ => None
      end
  | None => None
  end.

(** ** Serializing *)

(** [UnicodeEscape]: backslash, u and four lowercase hexadecimal digits. *)
Definition unicode_escape (c : Z) : jstring :=
  [92; 117; hex_lower (c / 4096); hex_lower ((c / 256) mod 16);
   hex_lower ((c / 16) mod 16); hex_lower (c mod 16)].

(** One code point that is a single code unit, as [QuoteJSONString]
    writes it. *)
Definition quote_unit (c : Z) : jstring :=
  if c =? 8 then [92; 98]
  else if c =? 9 then [92; 116]
  else if c =? 10 then [92; 110]
  else if c =? 12 then [92; 102]
  else if c =? 13 then [92; 114]
  else if c =? 34 then [92; 34]
  else if c =? 92 then [92; 92]
  else if (c <? 32) || is_high_surrogate c || is_low_surrogate c
       then unicode_escape c
  else [c].

(** [QuoteJSONString] walks the code points of the string: a surrogate
    pair is copied, a lone surrogate is escaped (ECMAScript 2019 on). *)
Fixpoint quote_chars (s : jstring) : jstring :=
  match s with
  | [] => []
  | c :: s1 =>
      if is_high_surrogate c then
        match s1 with
        | d :: s2 =>
            if is_low_surrogate d then c :: d :: quote_chars s2
            else unicode_escape c ++ quote_chars s1
        | [] => unicode_escape c
        end
      else quote_unit c ++ quote_chars s1
  end.

Definition QuoteJSONString (s : jstring) : jstring :=
  34 :: quote_chars s ++ [34].

Definition join_with (sep : Z) (a : option jstring) (b : option jstring)
  : option jstring :=
  match a, b with
  | Some x, Some y => Some (x ++ sep :: y)
  | _, _ => None
  end.

(** The texts of the elements of a list, separated by [sep]. *)
Fixpoint join_all (sep : Z) (parts : list (option jstring)) : option jstring :=
  match parts with
  | [] => Some []
  | [x] => x
  | x :: rest => join_with sep x (join_all sep rest)
  end.

(** A member of an object: the quoted key, a colon, the value. *)
Definition member_text (key : jstring) (value : option jstring) : option jstring :=
  option_map (fun t => QuoteJSONString key ++ 58 :: t) value.

(** [JSON.stringify(v)] without replacer or indentation.  The text of a
    number is the shortest decimal text of its double, which this
    development does not model: [None] on a value that holds a number. *)
Fixpoint serialize (v : JSON) : option jstring :=
  match v with
  | JNull => Some (lit "null")
  | JBool true => Some (lit "true")
  | JBool false => Some (lit "false")
  | JNum _ => None
  | JStr s => Some (QuoteJSONString s)
  | JArr items =>
      option_map (fun body => 91 :: body ++ [93])
                 (join_all 44 (map serialize items))
  | JObj props =>
      option_map (fun body => 123 :: body ++ [125])
                 (join_all 44 (map (fun kv => member_text (fst kv) (serialize (snd kv)))
                                   props))
  end.

Definition JSON_stringify (v : JSON) : option jstring := serialize v.

(** ** The conversions of JavaScript the code relies on *)

(** [ToBoolean].  A number is falsy when its double is zero: the literal
    [m * 10^e] rounds to zero exactly when its magnitude is at most
    2^-1075. *)
Fixpoint digits_number (acc : Z) (s : jstring) : Z :=
  match s with
  | [] => acc
  | c :: s' => digits_number (if is_digit c then acc * 10 + (c - 48) else acc) s'
  end.

Fixpoint split_exponent (s : jstring) : jstring * jstring :=
  match s with
  | [] => ([], [])
  | c :: s' =>
      if (c =? 101) || (c =? 69) then ([], s')
      else let (m, e) := split_exponent s' in (c :: m, e)
  end.

Fixpoint after_dot (s : jstring) : jstring :=
  match s with
  | [] => []
  | c :: s' => if c =? 46 then s' else after_dot s'
  end.

Definition number_is_zero (literal : jstring) : bool :=
  let (mant, expo) := split_exponent literal in
  let m := digits_number 0 mant in
  let frac := Z.of_nat (List.length (after_dot mant)) in
  let e := (match expo with
            | g :: ds => if g =? 45 then - digits_number 0 ds else digits_number 0 expo
            | [] => 0
            end) - frac in
  if m =? 0 then true
  else if 0 <=? e then false
  else 10 ^ (- e) >=? m * 2 ^ 1075.

Definition truthy (v : JSON) : bool :=
  match v with
  | JNull => false
  | JBool b => b
  | JNum literal => negb (number_is_zero literal)
  | JStr s => match s with [] => false | _ :: _ => true end
  | JArr _ => true
  | JObj _ => true
  end.

Fixpoint lookup_prop (key : jstring) (props : list (jstring * JSON)) : option JSON :=
  match props with
  | [] => None
  | (k, v) :: rest => if jstring_eqb k key then Some v else lookup_prop key rest
  end.

(** [v.key] for the property names the code reads ([topic],
    [simulationPlan], [type], [prompt]): the own property of an object,
    [undefined] ([None]) on any other value that is not [null].  Reading a
    property of [null] throws; the callers test for it. *)
Definition member_of (v : JSON) (key : jstring) : option JSON :=
  match v with
  | JObj props => lookup_prop key props
  | _ => None
  end.

(* ================================================================== *)
(** * [encodeURIComponent] and [decodeURIComponent] *)
(* ================================================================== *)

Definition is_alnum (c : Z) : bool :=
  ((65 <=? c) && (c <=? 90)) || ((97 <=? c) && (c <=? 122)) || is_digit c.

(** The characters [encodeURIComponent] copies: letters, digits and
    [- _ . ! ~ * ' ( )]. *)
Definition uri_unreserved (c : Z) : bool :=
  is_alnum c || (c =? 45) || (c =? 95) || (c =? 46) || (c =? 33)
  || (c =? 126) || (c =? 42) || (c =? 39) || (c =? 40) || (c =? 41).

(** The UTF-8 octets of a code point. *)
Definition utf8_octets (cp : Z) : list Z :=
  if cp <? 128 then [cp]
  else if cp <? 2048 then [192 + cp / 64; 128 + cp mod 64]
  else if cp <? 65536 then
    [224 + cp / 4096; 128 + (cp / 64) mod 64; 128 + cp mod 64]
  else
    [240 + cp / 262144; 128 + (cp / 4096) mod 64;
     128 + (cp / 64) mod 64; 128 + cp mod 64].

Definition percent_octet (b : Z) : jstring :=
  [37; hex_upper (b / 16); hex_upper (b mod 16)].

Definition percent_octets (bs : list Z) : jstring :=
  flat_map percent_octet bs.

Definition app_some (x : jstring) (r : option jstring) : option jstring :=
  match r with
  | Some y => Some (x ++ y)
  | None => None
  end.

(** [encodeURIComponent(s)] (the abstract operation [Encode]): [None]
    stands for the URIError thrown on a lone surrogate. *)
Fixpoint encodeURIComponent (s : jstring) : option jstring :=
  match s with
  | [] => Some []
  | c :: s1 =>
      if uri_unreserved c then app_some [c] (encodeURIComponent s1)
      else if is_high_surrogate c then
        match s1 with
        | d :: s2 =>
            if is_low_surrogate d then
              app_some (percent_octets (utf8_octets (pair_code_point c d)))
                       (encodeURIComponent s2)
            else None
        | [] => None
        end
      else if is_low_surrogate c then None
      else app_some (percent_octets (utf8_octets c)) (encodeURIComponent s1)
  end.

Definition parse_hex_octet (s : jstring) : option (Z * jstring) :=
  match s with
  | h1 :: h2 :: rest =>
      match hex_value h1, hex_value h2 with
      | Some a, Some b => Some (a * 16 + b, rest)
      | _, _ => None
      end
  | _ => None
  end.

(** The [k] escapes [%XX] that must follow the first octet of a
    multi-octet sequence. *)
Fixpoint read_continuations (k : nat) (s : jstring) : option (list Z * jstring) :=
  match k with
  | O => Some ([], s)
  | S k' =>
      match s with
      | p :: s1 =>
          if p =? 37 then
            match parse_hex_octet s1 with
            | Some (b, s2) =>
                match read_continuations k' s2 with
                | Some (bs, rest) => Some (b :: bs, rest)
                | None => None
                end
            | None => None
            end
          else None
      | [] => None
      end
  end.

(** The number of leading 1 bits of an octet (5 stands for five or more). *)
Definition leading_ones (b : Z) : nat :=
  if b <? 128 then 0
  else if b <? 192 then 1
  else if b <? 224 then 2
  else if b <? 240 then 3
  else if b <? 248 then 4
  else 5.

Definition is_continuation (b : Z) : bool := (128 <=? b) && (b <=? 191).

(** The code point of a well-formed UTF-8 sequence with first octet [b]
    and continuation octets [conts]: shortest form only, no surrogate,
    at most U+10FFFF. *)
Definition utf8_code_point (b : Z) (conts : list Z) : option Z :=
  match conts with
  | [c1] =>
      let v := (b - 192) * 64 + (c1 - 128) in
      if is_continuation c1 && (128 <=? v) then Some v else None
  | [c1; c2] =>
      let v := ((b - 224) * 64 + (c1 - 128)) * 64 + (c2 - 128) in
      if is_continuation c1 && is_continuation c2 && (2048 <=? v)
         && negb ((55296 <=? v) && (v <=? 57343))
      then Some v else None
  | [c1; c2; c3] =>
      let v := (((b - 240) * 64 + (c1 - 128)) * 64 + (c2 - 128)) * 64 + (c3 - 128) in
      if is_continuation c1 && is_continuation c2 && is_continuation c3
         && (65536 <=? v) && (v <=? 1114111)
      then Some v else None
  | _ => None
  end.

(** The abstract operation [Decode] with an empty reserved set; [fuel]
    bounds the recursion and the length of the text is enough. *)
Fixpoint decode_uri (fuel : nat) (s : jstring) : option jstring :=
  match s with
  | [] => Some []
  | c :: s1 =>
      match fuel with
      | O => None
      | S fuel' =>
          if c =? 37 then
            match parse_hex_octet s1 with
            | Some (b, s2) =>
                match leading_ones b with
                | O => app_some [b] (decode_uri fuel' s2)
                | 1%nat => None
                | 5%nat => None
                | S n =>
                    match read_continuations n s2 with
                    | Some (conts, rest) =>
                        match utf8_code_point b conts with
                        | Some v => app_some (utf16_encode v) (decode_uri fuel' rest)
                        | None => None
                        end
                    | None => None
                    end
                end
            | None => None
            end
          else app_some [c] (decode_uri fuel' s1)
      end
  end.

(** [decodeURIComponent(s)]: [None] stands for the URIError. *)
Definition decodeURIComponent (s : jstring) : option jstring :=
  decode_uri (List.length s) s.

(* ================================================================== *)
(** * [btoa] and [atob] *)
(* ================================================================== *)

Definition b64_char (n : Z) : Z :=
  if n <? 26 then 65 + n
  else if n <? 52 then 71 + n
  else if n <? 62 then n - 4
  else if n =? 62 then 43
  else 47.

Definition b64_value (c : Z) : option Z :=
  if (65 <=? c) && (c <=? 90) then Some (c - 65)
  else if (97 <=? c) && (c <=? 122) then Some (c - 71)
  else if (48 <=? c) && (c <=? 57) then Some (c + 4)
  else if c =? 43 then Some 62
  else if c =? 47 then Some 63
  else None.

Fixpoint b64_encode (bytes : list Z) : jstring :=
  match bytes with
  | [] => []
  | [a] => [b64_char (a / 4); b64_char ((a mod 4) * 16); 61; 61]
  | [a; b] =>
      [b64_char (a / 4); b64_char ((a mod 4) * 16 + b / 16);
       b64_char ((b mod 16) * 4); 61]
  | a :: b :: c :: rest =>
      b64_char (a / 4) :: b64_char ((a mod 4) * 16 + b / 16)
      :: b64_char ((b mod 16) * 4 + c / 64) :: b64_char (c mod 64)
      :: b64_encode rest
  end.

Definition is_latin1 (c : Z) : bool := (0 <=? c) && (c <=? 255).

(** [btoa(s)]: [None] stands for the InvalidCharacterError thrown when a
    code unit is above 255. *)
Definition btoa (s : jstring) : option jstring :=
  if forallb is_latin1 s then Some (b64_encode s) else None.

Definition is_ascii_ws (c : Z) : bool :=
  (c =? 9) || (c =? 10) || (c =? 12) || (c =? 13) || (c =? 32).

(** Ends with one or two equals signs: remove them. *)
Definition strip_padding (data : jstring) : jstring :=
  match rev data with
  | e1 :: e2 :: r =>
      if e1 =? 61 then (if e2 =? 61 then rev r else rev (e2 :: r)) else data
  | [e1] => if e1 =? 61 then [] else data
  | [] => data
  end.

Fixpoint b64_values (data : jstring) : option (list Z) :=
  match data with
  | [] => Some []
  | c :: rest =>
      match b64_value c, b64_values rest with
      | Some v, Some vs => Some (v :: vs)
      | _, _ => None
      end
  end.

(** Four sextets give three octets; two trailing sextets give one octet
    and three give two, the spare bits being discarded. *)
Fixpoint b64_decode (v : list Z) : list Z :=
  match v with
  | a :: b :: c :: d :: rest =>
      (a * 4 + b / 16) :: ((b mod 16) * 16 + c / 4) :: ((c mod 4) * 64 + d)
      :: b64_decode rest
  | [a; b; c] => [a * 4 + b / 16; (b mod 16) * 16 + c / 4]
  | [a; b] => [a * 4 + b / 16]
  | _ => []
  end.

(** [atob(s)], the forgiving-base64 decode of the Infra standard: [None]
    stands for the InvalidCharacterError. *)
Definition atob (s : jstring) : option jstring :=
  let data := filter (fun c => negb (is_ascii_ws c)) s in
  let data := if Z.of_nat (List.length data) mod 4 =? 0
              then strip_padding data else data in
  if Z.of_nat (List.length data) mod 4 =? 1 then None
  else option_map b64_decode (b64_values data).

(* ================================================================== *)
(** * [URLSearchParams] *)
(* ================================================================== *)

(** The UTF-8 encoding of a string after conversion to a scalar value
    string: a lone surrogate becomes U+FFFD. *)
Fixpoint utf8_encode (s : jstring) : list Z :=
  match s with
  | [] => []
  | c :: s1 =>
      if is_high_surrogate c then
        match s1 with
        | d :: s2 =>
            if is_low_surrogate d
            then utf8_octets (pair_code_point c d) ++ utf8_encode s2
            else utf8_octets 65533 ++ utf8_encode s1
        | [] => utf8_octets 65533
        end
      else if is_low_surrogate c then utf8_octets 65533 ++ utf8_encode s1
      else utf8_octets c ++ utf8_encode s1
  end.

(** The UTF-8 decoder of the Encoding standard, with U+FFFD for every
    ill-formed subsequence.  [u_needed] counts the continuation octets
    still expected; [u_lower] and [u_upper] bound the next one. *)
Record Utf8Decoder := {
  u_code_point : Z;
  u_needed : nat;
  u_lower : Z;
  u_upper : Z
}.

Definition utf8_idle : Utf8Decoder :=
  {| u_code_point := 0; u_needed := 0; u_lower := 128; u_upper := 191 |}.

Definition utf8_first (b : Z) : list Z * Utf8Decoder :=
  if (0 <=? b) && (b <=? 127) then ([b], utf8_idle)
  else if (194 <=? b) && (b <=? 223) then
    ([], {| u_code_point := b - 192; u_needed := 1;
            u_lower := 128; u_upper := 191 |})
  else if (224 <=? b) && (b <=? 239) then
    ([], {| u_code_point := b - 224; u_needed := 2;
            u_lower := (if b =? 224 then 160 else 128);
            u_upper := (if b =? 237 then 159 else 191) |})
  else if (240 <=? b) && (b <=? 244) then
    ([], {| u_code_point := b - 240; u_needed := 3;
            u_lower := (if b =? 240 then 144 else 128);
            u_upper := (if b =? 244 then 143 else 191) |})
  else ([65533], utf8_idle).

Definition utf8_step (d : Utf8Decoder) (b : Z) : list Z * Utf8Decoder :=
  match u_needed d with
  | O => utf8_first b
  | S k =>
      if (u_lower d <=? b) && (b <=? u_upper d) then
        let cp := u_code_point d * 64 + (b - 128) in
        match k with
        | O => ([cp], utf8_idle)
        | S _ => ([], {| u_code_point := cp; u_needed := k;
                         u_lower := 128; u_upper := 191 |})
        end
      else
        let (out, d') := utf8_first b in (65533 :: out, d')
  end.

Fixpoint utf8_decode_from (d : Utf8Decoder) (bytes : list Z) : list Z :=
  match bytes with
  | [] => match u_needed d with O => [] | S _ => [65533] end
  | b :: rest =>
      let (out, d') := utf8_step d b in out ++ utf8_decode_from d' rest
  end.

(** UTF-8 decode without BOM, to a JavaScript string. *)
Definition utf8_decode (bytes : list Z) : jstring :=
  flat_map utf16_encode (utf8_decode_from utf8_idle bytes).

(** Percent-decoding of the URL standard: a percent sign not followed by
    two hexadecimal digits stands for itself. *)
Fixpoint percent_decode (bytes : list Z) : list Z :=
  match bytes with
  | [] => []
  | c :: rest =>
      if c =? 37 then
        match rest with
        | h1 :: h2 :: rest' =>
            match hex_value h1, hex_value h2 with
            | Some a, Some b => (a * 16 + b) :: percent_decode rest'
            | _, _ => c :: percent_decode rest
            end
        | _ => c :: percent_decode rest
        end
      else c :: percent_decode rest
  end.

Definition plus_to_space (bytes : list Z) : list Z :=
  map (fun c => if c =? 43 then 32 else c) bytes.

(** Name and value of one sequence: split at the first equals sign. *)
Fixpoint split_pair (bytes : list Z) : list Z * list Z :=
  match bytes with
  | [] => ([], [])
  | c :: rest =>
      if c =? 61 then ([], rest)
      else let (n, v) := split_pair rest in (c :: n, v)
  end.

Definition urlencoded_string (bytes : list Z) : jstring :=
  utf8_decode (percent_decode (plus_to_space bytes)).

(** The application/x-www-form-urlencoded parser. *)
Definition urlencoded_parse (bytes : list Z) : list (jstring * jstring) :=
  flat_map
    (fun seq =>
       match seq with
       | [] => []
       | _ :: _ =>
           let (n, v) := split_pair seq in
           [(urlencoded_string n, urlencoded_string v)]
       end)
    (split_on 38 bytes).

Fixpoint first_value (name : jstring) (pairs : list (jstring * jstring))
  : option jstring :=
  match pairs with
  | [] => None
  | (n, v) :: rest => if jstring_eqb n name then Some v else first_value name rest
  end.

(** [new URLSearchParams(init).get(name)]: one leading question mark of
    [init] is dropped; [None] is [null]. *)
Definition URLSearchParams_get (init name : jstring) : option jstring :=
  let query := match init with
               | c :: rest => if c =? 63 then rest else init
               | [] => []
               end in
  first_value name (urlencoded_parse (utf8_encode query)).

(* ================================================================== *)
(** * The content service ([services/geminiService.ts]) *)
(* ================================================================== *)

(** A thrown value, as a [catch] clause sees it:
    [e instanceof Error ? e.message : fallback]. *)
Inductive Thrown : Type :=
| ErrorObject (message : jstring)
| NotAnError.

Definition message_or (fallback : jstring) (e : Thrown) : jstring :=
  match e with
  | ErrorObject message => message
  | NotAnError => fallback
  end.

(** ['image' | 'video'] *)
Inductive VisualType : Type := image | video.

(** [VideoStyle] of [types.ts]. *)
Inductive VideoStyle : Type := animation | realistic | documentary.

(** [SimulationStep] of [types.ts], and the object it is at run time. *)
Record SimulationStep := {
  title : jstring;
  description : jstring;
  prompt : jstring;
  type : VisualType
}.

Definition type_name (t : VisualType) : jstring :=
  match t with
  | image => lit "image"
  | video => lit "video"
  end.

Definition step_value (s : SimulationStep) : JSON :=
  JObj [(lit "title", JStr (title s));
        (lit "description", JStr (description s));
        (lit "prompt", JStr (prompt s));
        (lit "type", JStr (type_name (type s)))].

Definition invalid_plan_message : jstring :=
  lit "The AI returned an invalid lesson plan format. Please try again.".

(** [generateSimulationPlan], from the reply of [generateContent] on:
    [response] is the awaited reply ([inl] when the call rejects) and holds
    [response.text], which may be [undefined]; [type_error] is what the
    engine throws for [undefined.trim()], outside the [try]. *)
Definition generateSimulationPlan (type_error : Thrown)
  (response : Thrown + option jstring) : Thrown + JSON :=
  match response with
  | inl e => inl e
  | inr None => inl type_error
  | inr (Some text) =>
      let jsonText := trim text in
      match JSON_parse jsonText with
      | Some v => inr v
      | None => inl (ErrorObject invalid_plan_message)
      end
  end.

Record InlineData := { inline_data : jstring; inline_mimeType : jstring }.

(** What [generateImage] and [editImage] return. *)
Record ImageResult := { base64 : jstring; mimeType : jstring }.

(** The loop over [response.candidates?.[0]?.content?.parts || []]: the
    first part that carries inline data. *)
Fixpoint first_inline_data (parts : list (option InlineData)) : option ImageResult :=
  match parts with
  | [] => None
  | Some d :: _ => Some {| base64 := inline_data d; mimeType := inline_mimeType d |}
  | None :: rest => first_inline_data rest
  end.

Definition generateImage (response : Thrown + list (option InlineData))
  : Thrown + ImageResult :=
  match response with
  | inl e => inl e
  | inr parts =>
      match first_inline_data parts with
      | Some r => inr r
      | None => inl (ErrorObject (lit "Image generation failed. No image data received."))
      end
  end.

Definition editImage (response : Thrown + list (option InlineData))
  : Thrown + ImageResult :=
  match response with
  | inl e => inl e
  | inr parts =>
      match first_inline_data parts with
      | Some r => inr r
      | None => inl (ErrorObject (lit "Image editing failed. No image data received."))
      end
  end.

Definition videoGenerationMessages : list jstring :=
  [lit "Initializing the virtual microscope...";
   lit "Sequencing bio-data for simulation...";
   lit "Assembling cellular structures...";
   lit "Simulating biological processes...";
   lit "Rendering high-fidelity animation...";
   lit "This can take a few minutes, the result will be worth it!";
   lit "Finalizing video output...";
   lit "Almost there..."].

(** [videoGenerationMessages[i % videoGenerationMessages.length]] *)
Definition video_message (i : nat) : jstring :=
  nth (i mod List.length videoGenerationMessages) videoGenerationMessages [].

Definition fetching_message : jstring := lit "Fetching generated video...".

(** A long-running video operation: [operation.done] and
    [operation.response?.generatedVideos?.[0]?.video?.uri]. *)
Record Operation := { done : bool; uri : option jstring }.

(** The reply of [fetch]: [response.ok], [response.statusText], and the
    object URL made of [response.blob()]. *)
Record FetchResponse := { ok : bool; statusText : jstring; objectURL : jstring }.

(** The remote side of one [generateVideo] call: the reply of
    [generateVideos], the reply of the k-th [getVideosOperation] (k from
    0), and the reply of [fetch]. *)
Record VideoBackend := {
  submitted : Thrown + Operation;
  polled : nat -> Thrown + Operation;
  fetched : jstring -> Thrown + FetchResponse
}.

(** The result of [generateVideo]: the messages passed to [onProgress], in
    order, and the value returned or thrown. *)
Definition VideoRun : Type := list jstring * (Thrown + jstring).

(** The part after the loop. *)
Definition finish_video (apiKey : jstring) (w : VideoBackend)
  (progress : list jstring) (operation : Operation) : VideoRun :=
  match uri operation with
  | Some (c :: link) =>
      let downloadLink := c :: link in
      let progress := progress ++ [fetching_message] in
      match fetched w (downloadLink ++ lit "&key=" ++ apiKey) with
      | inl e => (progress, inl e)
      | inr response =>
          if ok response then (progress, inr (objectURL response))
          else (progress,
                inl (ErrorObject (lit "Failed to download video: " ++ statusText response)))
      end
  | _ => (progress,
          inl (ErrorObject (lit "Video generation failed to produce a download link.")))
  end.

(** [while (!operation.done)]: [messageIndex] starts at 1 and the k-th
    pass (k from 0) gets the k-th reply of [getVideosOperation].  The loop
    has no bound of its own; [fuel] bounds the passes of the model and
    [None] means the fuel ran out with the job still not done. *)
Fixpoint poll_loop (fuel : nat) (apiKey : jstring) (w : VideoBackend)
  (progress : list jstring) (messageIndex : nat) (operation : Operation)
  : option VideoRun :=
  if done operation then Some (finish_video apiKey w progress operation)
  else
    match fuel with
    | O => None
    | S fuel' =>
        let progress := progress ++ [video_message messageIndex] in
        match polled w (messageIndex - 1) with
        | inl e => Some (progress, inl e)
        | inr operation' =>
            poll_loop fuel' apiKey w progress (S messageIndex) operation'
        end
    end.

Definition generateVideo (fuel : nat) (apiKey : jstring) (w : VideoBackend)
  : option VideoRun :=
  let progress := [video_message 0] in
  match submitted w with
  | inl e => Some (progress, inl e)
  | inr operation => poll_loop fuel apiKey w progress 1 operation
  end.

(** The k-th completion check of a video job: the reply of
    [generateVideos] for k = 0, the reply of the (k-1)-th
    [getVideosOperation] after it. *)
Definition completion_check (w : VideoBackend) (k : nat) : Thrown + Operation :=
  match k with
  | O => submitted w
  | S j => polled w j
  end.

(** Whether [operation] yields a download link. *)
Definition has_download_link (operation : Operation) : bool :=
  match uri operation with
  | Some (_ :: _) => true
  | _ => false
  end.

(* ================================================================== *)
(** * The application state ([App.tsx]) *)
(* ================================================================== *)

(** [VisualContent]: the data URL of an image with its MIME type, or the
    object URL of a video. *)
Record VisualContent := {
  vc_type : VisualType;
  vc_data : jstring;
  vc_mimeType : option jstring
}.

(** [LoadingState] *)
Record LoadingState := { plan : bool; visual : bool }.

(** The seven [useState] cells of [App].  [topic] and the elements of
    [simulationPlan] are run-time values: the shared link can put any
    truthy value and any non-empty array there. *)
Record State := {
  topic : JSON;
  simulationPlan : list JSON;
  currentStepIndex : Z;
  visualContent : option VisualContent;
  loading : LoadingState;
  videoStatus : jstring;
  error : option jstring
}.

Definition initial_state : State :=
  {| topic := JStr [];
     simulationPlan := [];
     currentStepIndex := 0;
     visualContent := None;
     loading := {| plan := false; visual := false |};
     videoStatus := [];
     error := None |}.

Definition setTopic (v : JSON) (st : State) : State :=
  {| topic := v; simulationPlan := simulationPlan st;
     currentStepIndex := currentStepIndex st; visualContent := visualContent st;
     loading := loading st; videoStatus := videoStatus st; error := error st |}.

Definition setSimulationPlan (v : list JSON) (st : State) : State :=
  {| topic := topic st; simulationPlan := v;
     currentStepIndex := currentStepIndex st; visualContent := visualContent st;
     loading := loading st; videoStatus := videoStatus st; error := error st |}.

Definition setCurrentStepIndex (v : Z) (st : State) : State :=
  {| topic := topic st; simulationPlan := simulationPlan st;
     currentStepIndex := v; visualContent := visualContent st;
     loading := loading st; videoStatus := videoStatus st; error := error st |}.

Definition setVisualContent (v : option VisualContent) (st : State) : State :=
  {| topic := topic st; simulationPlan := simulationPlan st;
     currentStepIndex := currentStepIndex st; visualContent := v;
     loading := loading st; videoStatus := videoStatus st; error := error st |}.

Definition setLoading (v : LoadingState) (st : State) : State :=
  {| topic := topic st; simulationPlan := simulationPlan st;
     currentStepIndex := currentStepIndex st; visualContent := visualContent st;
     loading := v; videoStatus := videoStatus st; error := error st |}.

(** [setLoading(prev => ({ ...prev, visual: b }))] *)
Definition setLoadingVisual (b : bool) (st : State) : State :=
  setLoading {| plan := plan (loading st); visual := b |} st.

Definition setVideoStatus (v : jstring) (st : State) : State :=
  {| topic := topic st; simulationPlan := simulationPlan st;
     currentStepIndex := currentStepIndex st; visualContent := visualContent st;
     loading := loading st; videoStatus := v; error := error st |}.

Definition setError (v : option jstring) (st : State) : State :=
  {| topic := topic st; simulationPlan := simulationPlan st;
     currentStepIndex := currentStepIndex st; visualContent := visualContent st;
     loading := loading st; videoStatus := videoStatus st; error := v |}.

(** [window.location], and the page: the state of [App] with the address
    it is shown at. *)
Record Location := { origin : jstring; pathname : jstring; search : jstring }.

Record Page := { app_state : State; location : Location }.

(** [window.history.replaceState({}, document.title, window.location.pathname)] *)
Definition replaceState_pathname (loc : Location) : Location :=
  {| origin := origin loc; pathname := pathname loc; search := [] |}.

Definition with_app (pg : Page) (st : State) : Page :=
  {| app_state := st; location := location pg |}.

(** [l[i]] for a number [i] that is an integer. *)
Definition at_index {A : Type} (l : list A) (i : Z) : option A :=
  if i <? 0 then None else nth_error l (Z.to_nat i).

(** The step the viewer shows: [simulationPlan[currentStepIndex]]. *)
Definition currentStep (st : State) : option JSON :=
  at_index (simulationPlan st) (currentStepIndex st).

(** ** [loadSimulationFromURL] *)

(** [decodeURIComponent(atob(sharedData))], then [JSON.parse]: [None] when
    one of the three throws. *)
Definition decode_shared (sharedData : jstring) : option JSON :=
  match atob sharedData with
  | Some binary =>
      match decodeURIComponent binary with
      | Some jsonString => JSON_parse jsonString
      | None => None
      end
  | None => None
  end.

(** [data.topic && Array.isArray(data.simulationPlan) &&
    data.simulationPlan.length > 0], with the two values it lets through;
    on [null] the test throws and the [catch] clause logs it. *)
Definition shared_guard (data : JSON) : option (JSON * list JSON) :=
  match member_of data (lit "topic") with
  | Some t =>
      if truthy t then
        match member_of data (lit "simulationPlan") with
        | Some (JArr (x :: rest)) => Some (t, x :: rest)
        | _ => None
        end
      else None
  | None => None
  end.

Definition loadSimulationFromURL (pg : Page) : Page :=
  match URLSearchParams_get (search (location pg)) (lit "simulation") with
  | Some (c :: rest) =>
      let sharedData := c :: rest in
      let st :=
        match decode_shared sharedData with
        | Some data =>
            match shared_guard data with
            | Some (t, p) => setSimulationPlan p (setTopic t (app_state pg))
            | None => app_state pg
            end
        | None => app_state pg
        end in
      {| app_state := st; location := replaceState_pathname (location pg) |}
  | _ => pg
  end.

(** ** The requests a handler awaits *)

Inductive Request : Type :=
| PlanRequest (newTopic : jstring) (simulationType : VisualType)
| ImageRequest (stepPrompt : option JSON)
| EditRequest (base64Data : option jstring) (imageType : jstring) (editPrompt : jstring)
| VideoRequest (stepPrompt : option JSON) (style : VideoStyle).

(** ** [handleTopicSubmit] *)

(** Up to the [await]. *)
Definition handleTopicSubmit_begin (pg : Page) (newTopic : jstring)
  (simulationType : VisualType) : Page * Request :=
  let loc := if includes (search (location pg)) (lit "simulation=")
             then replaceState_pathname (location pg) else location pg in
  let st := setTopic (JStr newTopic) (app_state pg) in
  let st := setSimulationPlan [] st in
  let st := setCurrentStepIndex 0 st in
  let st := setVisualContent None st in
  let st := setError None st in
  let st := setLoading {| plan := true; visual := false |} st in
  ({| app_state := st; location := loc |}, PlanRequest newTopic simulationType).

Definition no_plan_message : jstring :=
  lit "Could not generate a simulation plan for this topic. Please try another one.".

(** From the [await] on: [outcome] is what [generateSimulationPlan]
    returned or threw; its declared type is [SimulationStep[]]. *)
Definition handleTopicSubmit_settle (st : State) (outcome : Thrown + list JSON)
  : State :=
  let st :=
    match outcome with
    | inr [] => setError (Some no_plan_message) st
    | inr (x :: rest) => setSimulationPlan (x :: rest) st
    | inl e => setError (Some (message_or (lit "An unknown error occurred.") e)) st
    end in
  setLoading {| plan := false; visual := false |} st.



(** ** [generateVisualForCurrentStep] *)

Definition visual_finally (st : State) : State :=
  setVideoStatus [] (setLoadingVisual false st).

(** Up to the [await].  A step whose [type] is neither ['image'] nor
    ['video'] awaits nothing and falls through to [finally].  For a video
    step the call of [generateVideo] runs up to its own first [await], and
    its first statement is [onProgress(videoGenerationMessages[0])] with
    [setVideoStatus] for [onProgress]: the state that awaits the reply
    holds the first message. *)
Definition generateVisualForCurrentStep_begin (st : State)
  (styleOverride : option VideoStyle) : State * option Request :=
  match simulationPlan st with
  | [] => (st, None)
  | _ :: _ =>
      match currentStep st with
      | None => (st, None)
      | Some step =>
          if truthy step then
            let st := setLoadingVisual true st in
            let st := setVisualContent None st in
            let st := setError None st in
            let st := setVideoStatus [] st in
            match member_of step (lit "type") with
            | Some (JStr t) =>
                if jstring_eqb t (lit "image") then
                  (st, Some (ImageRequest (member_of step (lit "prompt"))))
                else if jstring_eqb t (lit "video") then
                  let styleToUse := match styleOverride with
                                    | Some s => s
                                    | None => animation
                                    end in
                  let st := setVideoStatus (video_message 0) st in
                  (st, Some (VideoRequest (member_of step (lit "prompt")) styleToUse))
                else (visual_finally st, None)
            | _ => (visual_finally st, None)
            end
          else (st, None)
      end
  end.

Definition image_data_url (r : ImageResult) : jstring :=
  lit "data:" ++ mimeType r ++ lit ";base64," ++ base64 r.

Definition image_content (r : ImageResult) : VisualContent :=
  {| vc_type := image; vc_data := image_data_url r; vc_mimeType := Some (mimeType r) |}.

(** From [await generateImage] on. *)
Definition generateVisual_settle_image (st : State) (outcome : Thrown + ImageResult)
  : State :=
  visual_finally
    match outcome with
    | inr r => setVisualContent (Some (image_content r)) st
    | inl e => setError (Some (message_or (lit "Failed to generate visual content.") e)) st
    end.

(** From [await generateVideo] on. *)
Definition generateVisual_settle_video (st : State) (outcome : Thrown + jstring)
  : State :=
  visual_finally
    match outcome with
    | inr videoUrl =>
        setVisualContent
          (Some {| vc_type := video; vc_data := videoUrl; vc_mimeType := None |}) st
    | inl e => setError (Some (message_or (lit "Failed to generate visual content.") e)) st
    end.

(** ** [handleImageEdit] *)

(** Up to the [await]: [None] when the handler returns at its guard. *)
Definition handleImageEdit_begin (st : State) (editPrompt : jstring)
  : State * option Request :=
  match visualContent st with
  | Some vc =>
      match vc_type vc, vc_mimeType vc with
      | image, Some (c :: m) =>
          let st' := setError None (setLoadingVisual true st) in
          let base64Data := nth_error (split_on 44 (vc_data vc)) 1 in
          (st', Some (EditRequest base64Data (c :: m) editPrompt))
      | _, _ => (st, None)
      end
  | None => (st, None)
  end.

(** From [await editImage] on. *)
Definition handleImageEdit_settle (st : State) (outcome : Thrown + ImageResult)
  : State :=
  setLoadingVisual false
    match outcome with
    | inr r => setVisualContent (Some (image_content r)) st
    | inl e => setError (Some (message_or (lit "Failed to edit image.") e)) st
    end.

(** ** [handleVideoRegenerate] and [goToStep] *)

Definition handleVideoRegenerate_begin (st : State) (newStyle : VideoStyle)
  : State * option Request :=
  generateVisualForCurrentStep_begin st (Some newStyle).

Definition goToStep (st : State) (index : Z) : State :=
  if (0 <=? index) && (index <? Z.of_nat (List.length (simulationPlan st)))
  then setCurrentStepIndex index st
  else st.

(* ================================================================== *)
(** * The components that call the handlers *)
(* ================================================================== *)

(** [TopicInput.handleSubmit]: [input] is the text of the field. *)
Definition TopicInput_handleSubmit (pg : Page) (input : jstring)
  (simulationType : VisualType) : Page * option Request :=
  match trim input with
  | [] => (pg, None)
  | c :: t =>
      if plan (loading (app_state pg)) then (pg, None)
      else let (pg', r) := handleTopicSubmit_begin pg (c :: t) simulationType in
           (pg', Some r)
  end.

(** [ImageEditor.handleEdit]: [input] is the text of the field and the
    [loading] property is [loading.visual].  (The field is emptied after
    the call; that is state of the component, not of [App].) *)
Definition ImageEditor_handleEdit (st : State) (input : jstring)
  : State * option Request :=
  match trim input with
  | [] => (st, None)
  | c :: t =>
      if visual (loading st) then (st, None)
      else handleImageEdit_begin st (c :: t)
  end.

(** [VideoOptions.handleRegenerateClick] *)
Definition VideoOptions_handleRegenerateClick (st : State) (selectedStyle : VideoStyle)
  : State * option Request :=
  if visual (loading st) then (st, None)
  else handleVideoRegenerate_begin st selectedStyle.

(** [handleShare] of [SimulationViewer]: the link it hands to
    [navigator.share] or to the clipboard, as the location a browser opens
    it at (the text of the link is its [href]; the base64 text holds no
    character that ends the query or that the URL parser rewrites).
    [None] when [encodeURIComponent] or [btoa] throws, or when the data to
    share holds a number. *)
Definition share_parameter (topic : JSON) (simulationPlan : list JSON)
  : option jstring :=
  let dataToShare :=
    JObj [(lit "topic", topic); (lit "simulationPlan", JArr simulationPlan)] in
  match JSON_stringify dataToShare with
  | Some jsonString =>
      match encodeURIComponent jsonString with
      | Some encoded => btoa encoded
      | None => None
      end
  | None => None
  end.

Definition href (loc : Location) : jstring :=
  origin loc ++ pathname loc ++ search loc.

Definition handleShare (pg : Page) : option Location :=
  match share_parameter (topic (app_state pg)) (simulationPlan (app_state pg)) with
  | Some base64String =>
      Some {| origin := origin (location pg);
              pathname := pathname (location pg);
              search := lit "?simulation=" ++ base64String |}
  | None => None
  end.

(** The data [handleShare] serializes. *)
Definition shared_value (topic : JSON) (simulationPlan : list JSON) : JSON :=
  JObj [(lit "topic", topic); (lit "simulationPlan", JArr simulationPlan)].

(** The page a browser shows when it opens [link]. *)
Definition opened_at (link : Location) : Page :=
  loadSimulationFromURL {| app_state := initial_state; location := link |}.

(** ** What [SimulationViewer] renders *)

(** The three early returns of [SimulationViewer], in the order of the
    source; [None] when none is taken and the component goes on to build
    its panel.  Building the panel reads [step.type] and [step.title] of
    every step and [title], [description] and [type] of
    [simulationPlan[currentStepIndex]], which throws on a [null] step: that
    part of the render is not modelled here. *)
Inductive EarlyReturn : Type := Placeholder | PlanSpinner | Hidden.

Definition SimulationViewer_early_return (st : State) : option EarlyReturn :=
  if negb (truthy (topic st)) && negb (plan (loading st)) then Some Placeholder
  else if plan (loading st) then Some PlanSpinner
  else if Nat.eqb (List.length (simulationPlan st)) 0 && negb (plan (loading st))
       then Some Hidden
       else None.

(** The content of the visual frame of the panel. *)
Inductive MainContent : Type :=
| StatusMessage (message : jstring)
| VisualSpinner
| ErrorText (message : jstring)
| ImageElement (src : jstring)
| VideoElement (src : jstring)
| GeneratingText.

Definition main_content (st : State) : MainContent :=
  if visual (loading st) then
    match videoStatus st with
    | _ :: _ => StatusMessage (videoStatus st)
    | [] => VisualSpinner
    end
  else
    match error st with
    | Some (c :: message) => ErrorText (c :: message)
    | _ =>
        match visualContent st with
        | Some vc =>
            match vc_type vc with
            | image => ImageElement (vc_data vc)
            | video => VideoElement (vc_data vc)
            end
        | None => GeneratingText
        end
    end.



(** The [Previous] and [Next] buttons: a disabled button calls nothing. *)
Definition Previous_click (st : State) : State :=
  if currentStepIndex st =? 0 then st
  else goToStep st (currentStepIndex st - 1).

Definition Next_click (st : State) : State :=
  if currentStepIndex st =? Z.of_nat (List.length (simulationPlan st)) - 1 then st
  else goToStep st (currentStepIndex st + 1).

(** ** [handleDownload] *)

(** [topic.replace(/[^a-z0-9]/gi, '_')]: without the [u] flag the pattern
    runs over code units, and ignoring case the class holds the ASCII
    letters and digits and nothing else. *)
Definition replace_non_alnum (s : jstring) : jstring :=
  map (fun c => if is_alnum c then c else 95) s.

(** [toLowerCase] on ASCII code units, which is what the replacement
    leaves. *)
Definition toLowerCase (s : jstring) : jstring :=
  map (fun c => if (65 <=? c) && (c <=? 90) then c + 32 else c) s.

(** The text of an integer in a template literal (integers below 10^21
    are printed in full). *)
Definition number_text (n : Z) : jstring :=
  lit (NilZero.string_of_int (Z.to_int n)).

(** [visualContent.mimeType?.split('/')[1] || 'png'] for an image, ['mp4']
    for a video. *)
Definition file_extension (vc : VisualContent) : jstring :=
  match vc_type vc with
  | image =>
      match vc_mimeType vc with
      | Some m =>
          match nth_error (split_on 47 m) 1 with
          | Some (c :: e) => c :: e
          | _ => lit "png"
          end
      | None => lit "png"
      end
  | video => lit "mp4"
  end.

(** The link [handleDownload] clicks. *)
Record DownloadLink := { link_href : jstring; link_download : jstring }.

(** [None] when the handler returns at its guard; [type_error] is what the
    engine throws for [topic.replace] when [topic] is not a string. *)
Definition handleDownload (type_error : Thrown) (st : State)
  : option (Thrown + DownloadLink) :=
  match visualContent st with
  | None => None
  | Some vc =>
      match topic st with
      | JStr t =>
          let sanitizedTopic := toLowerCase (replace_non_alnum t) in
          let stepNumber := currentStepIndex st + 1 in
          let fileExtension := file_extension vc in
          Some (inr {| link_href := vc_data vc;
                       link_download :=
                         sanitizedTopic ++ lit "_step_" ++ number_text stepNumber
                         ++ lit "." ++ fileExtension |})
      | _ => Some (inl type_error)
      end
  end.

(* ================================================================== *)
(** * The running page *)
(* ================================================================== *)

(** The page together with the requests whose replies are awaited.  A
    handler runs up to its [await] when its event is dispatched and from
    the [await] on when the reply arrives; other events may come between
    the two. *)
Record System := { page : Page; in_flight : list Request }.

Inductive Event : Type :=
| SubmitTopic (input : jstring) (simulationType : VisualType)
| ClickStep (index : Z)
| SubmitEdit (input : jstring)
| ClickRegenerate (selectedStyle : VideoStyle)
| PlanArrives (outcome : Thrown + list JSON)
| ImageArrives (outcome : Thrown + ImageResult)
| EditArrives (outcome : Thrown + ImageResult)
| VideoProgress (message : jstring)
| VideoArrives (outcome : Thrown + jstring).

Definition is_plan_request (r : Request) : bool :=
  match r with PlanRequest _ _ => true | _ => false end.
Definition is_image_request (r : Request) : bool :=
  match r with ImageRequest _ => true | _ => false end.
Definition is_edit_request (r : Request) : bool :=
  match r with EditRequest _ _ _ => true | _ => false end.
Definition is_video_request (r : Request) : bool :=
  match r with VideoRequest _ _ => true | _ => false end.

(** The awaited requests without the oldest one of a kind; [None] when
    none of that kind is awaited. *)
Fixpoint take_request (kind : Request -> bool) (l : list Request)
  : option (list Request) :=
  match l with
  | [] => None
  | r :: rest =>
      if kind r then Some rest
      else match take_request kind rest with
           | Some rest' => Some (r :: rest')
           | None => None
           end
  end.

Definition awaiting (l : list Request) (r : option Request) : list Request :=
  match r with
  | Some q => l ++ [q]
  | None => l
  end.

Definition started (sys : System) (res : State * option Request) : System :=
  {| page := with_app (page sys) (fst res);
     in_flight := awaiting (in_flight sys) (snd res) |}.

Definition settled (sys : System) (kind : Request -> bool)
  (settle : State -> State) : System :=
  match take_request kind (in_flight sys) with
  | Some rest =>
      {| page := with_app (page sys) (settle (app_state (page sys))); in_flight := rest |}
  | None => sys
  end.

Definition handle (sys : System) (ev : Event) : System :=
  let st := app_state (page sys) in
  match ev with
  | SubmitTopic input simulationType =>
      let (pg, r) := TopicInput_handleSubmit (page sys) input simulationType in
      {| page := pg; in_flight := awaiting (in_flight sys) r |}
  | ClickStep index =>
      {| page := with_app (page sys) (goToStep st index); in_flight := in_flight sys |}
  | SubmitEdit input => started sys (ImageEditor_handleEdit st input)
  | ClickRegenerate s => started sys (VideoOptions_handleRegenerateClick st s)
  | PlanArrives outcome =>
      settled sys is_plan_request (fun st => handleTopicSubmit_settle st outcome)
  | ImageArrives outcome =>
      settled sys is_image_request (fun st => generateVisual_settle_image st outcome)
  | EditArrives outcome =>
      settled sys is_edit_request (fun st => handleImageEdit_settle st outcome)
  | VideoProgress message =>
      if existsb is_video_request (in_flight sys)
      then {| page := with_app (page sys) (setVideoStatus message st);
              in_flight := in_flight sys |}
      else sys
  | VideoArrives outcome =>
      settled sys is_video_request (fun st => generateVisual_settle_video st outcome)
  end.

(** The effect with dependencies [currentStepIndex, simulationPlan.length]:
    after a render in which one of the two differs from [before], it calls
    [generateVisualForCurrentStep()] if the plan is not empty. *)
Definition visual_effect (before : State) (sys : System) : System :=
  let st := app_state (page sys) in
  if (currentStepIndex before =? currentStepIndex st)
     && Nat.eqb (List.length (simulationPlan before)) (List.length (simulationPlan st))
  then sys
  else
    match simulationPlan st with
    | [] => sys
    | _ :: _ => started sys (generateVisualForCurrentStep_begin st None)
    end.

Definition dispatch (sys : System) (ev : Event) : System :=
  visual_effect (app_state (page sys)) (handle sys ev).

(** The first render at address [loc]: the mount effect runs
    [loadSimulationFromURL] on the initial state. *)
Definition mount (loc : Location) : System :=
  visual_effect initial_state
    {| page := loadSimulationFromURL {| app_state := initial_state; location := loc |};
       in_flight := [] |}.

Definition run (loc : Location) (events : list Event) : System :=
  fold_left dispatch events (mount loc).

(** The invariant of the navigator: the index addresses a step of the
    plan, or the plan is empty and the index is 0. *)
Definition index_in_range (st : State) : Prop :=
  match simulationPlan st with
  | [] => currentStepIndex st = 0
  | _ :: _ => 0 <= currentStepIndex st < Z.of_nat (List.length (simulationPlan st))
  end.

(** The number of plan requests awaited. *)
Definition plan_requests (l : list Request) : nat :=
  List.length (filter is_plan_request l).

(** What the visual handlers leave alone: the plan, the index and the
    plan-loading flag. *)
Definition same_navigation (st st' : State) : Prop :=
  simulationPlan st' = simulationPlan st
  /\ currentStepIndex st' = currentStepIndex st
  /\ plan (loading st') = plan (loading st).

(** The invariant of the running page: at most one plan request is
    awaited, and while one is, the plan is empty and the index is 0. *)
Definition system_invariant (sys : System) : Prop :=
  let st := app_state (page sys) in
  index_in_range st
  /\ (plan_requests (in_flight sys) <= 1)%nat
  /\ (plan_requests (in_flight sys) = 1%nat ->
      plan (loading st) = true /\ simulationPlan st = [] /\ currentStepIndex st = 0).

(** The requests for a visual: all but the plan request. *)
Definition is_visual_request (r : Request) : bool := negb (is_plan_request r).

(** Whether the address holds a [simulation] parameter that
    [loadSimulationFromURL] would act on. *)
Definition loadable_parameter (loc : Location) : bool :=
  match URLSearchParams_get (search loc) (lit "simulation") with
  | Some (_ :: _) => true
  | _ => false
  end.

(** Further invariants of the running page: the visual-loading flag is
    set only while a visual request is awaited; the plan-loading flag is
    set only while a plan request is; a plan, shown or on its way, comes
    with a truthy topic; the address holds no parameter left to load. *)
Definition page_invariant (sys : System) : Prop :=
  let st := app_state (page sys) in
  (visual (loading st) = true -> existsb is_visual_request (in_flight sys) = true)
  /\ (plan (loading st) = true -> plan_requests (in_flight sys) = 1%nat)
  /\ (simulationPlan st <> [] \/ plan_requests (in_flight sys) = 1%nat ->
      truthy (topic st) = true)
  /\ loadable_parameter (location (page sys)) = false.

(** What a visual handler does up to its [await]: it leaves topic, plan,
    index and plan-loading flag alone, issues no plan request, and sets
    the visual-loading flag only together with a request. *)
Definition visual_begin (st : State) (res : State * option Request) : Prop :=
  topic (fst res) = topic st
  /\ same_navigation st (fst res)
  /\ (forall q, snd res = Some q -> is_plan_request q = false)
  /\ (snd res = None -> visual (loading (fst res)) = true -> visual (loading st) = true).

(* ================================================================== *)
(** * Notions used in the proofs *)
(* ================================================================== *)

Definition is_ascii (c : Z) : bool := (0 <=? c) && (c <? 128).

(** A scalar-value string: code units in range and no lone surrogate. *)
Fixpoint scalar (s : jstring) : bool :=
  match s with
  | [] => true
  | c :: s1 =>
      if is_high_surrogate c then
        match s1 with
        | d :: s2 => is_low_surrogate d && scalar s2
        | [] => false
        end
      else code_unit c && negb (is_low_surrogate c) && scalar s1
  end.

Fixpoint distinct_keys (keys : list jstring) : bool :=
  match keys with
  | [] => true
  | k :: rest => negb (existsb (jstring_eqb k) rest) && distinct_keys rest
  end.

Definition plain_key (k : jstring) : bool :=
  well_formed k && match array_index k with Some _ => false | None => true end.

(** The values [JSON.stringify] and [JSON.parse] carry unchanged in this
    model: no number, strings of 16-bit code units, and objects whose keys
    are distinct and are not array indices (so that property order is
    creation order). *)
Fixpoint shareable (v : JSON) : bool :=
  match v with
  | JNull => true
  | JBool _ => true
  | JNum _ => false
  | JStr s => well_formed s
  | JArr items => forallb shareable items
  | JObj props =>
      forallb plain_key (map fst props)
      && distinct_keys (map fst props)
      && forallb (fun kv => shareable (snd kv)) props
  end.

Definition step_well_formed (s : SimulationStep) : bool :=
  well_formed (title s) && well_formed (description s) && well_formed (prompt s).

(** The text of a value starts with a character that is neither white
    space nor a closing bracket. *)
Definition opens_value (text : jstring) : Prop :=
  exists c t, text = c :: t /\ is_json_ws c = false /\ c <> 93 /\ c <> 125.

(** A value read back from its text with enough fuel. *)
Definition reads_back (v : JSON) : Prop :=
  shareable v = true ->
  forall text, serialize v = Some text ->
  forall rest m, (List.length text <= m)%nat ->
  parse_value m (text ++ rest) = Some (v, rest).

Definition member_parts (props : list (jstring * JSON)) : list (option jstring) :=
  map (fun kv => member_text (fst kv) (serialize (snd kv))) props.

(** What a parser returns with some fuel, it returns with any fuel of at
    least the number of characters it consumed. *)
Definition fuel_enough {A : Type} (parse : nat -> jstring -> option (A * jstring))
  (n : nat) : Prop :=
  forall s v rest,
    parse n s = Some (v, rest) ->
    (List.length rest < List.length s)%nat
    /\ forall m, (List.length s - List.length rest <= m)%nat ->
                 parse m s = Some (v, rest).

(** The sextets [btoa] writes for a list of octets, and the number of
    equals signs it pads them with. *)
Fixpoint b64_sextets (bytes : list Z) : list Z :=
  match bytes with
  | [] => []
  | [a] => [a / 4; (a mod 4) * 16]
  | [a; b] => [a / 4; (a mod 4) * 16 + b / 16; (b mod 16) * 4]
  | a :: b :: c :: rest =>
      a / 4 :: (a mod 4) * 16 + b / 16 :: (b mod 16) * 4 + c / 64 :: c mod 64
      :: b64_sextets rest
  end.

Fixpoint b64_padding (bytes : list Z) : nat :=
  match bytes with
  | [] => 0
  | [_] => 2
  | [_; _] => 1
  | _ :: _ :: _ :: rest => b64_padding rest
  end.

(** The characters [btoa] writes: letters, digits, plus, solidus and the
    equals sign. *)
Definition b64_output (c : Z) : bool :=
  is_alnum c || (c =? 43) || (c =? 47) || (c =? 61).

(** The characters that pass through [URLSearchParams] unchanged: ASCII
    other than the percent sign, the ampersand and the plus sign. *)
Definition url_plain (c : Z) : bool :=
  (0 <=? c) && (c <? 128) && negb (c =? 37) && negb (c =? 38) && negb (c =? 43).

Definition has_plus (s : jstring) : bool := existsb (Z.eqb 43) s.

(** The characters of a sanitized topic: lower-case ASCII letters, digits
    and the underscore. *)
Definition file_safe (c : Z) : bool :=
  ((97 <=? c) && (c <=? 122)) || is_digit c || (c =? 95).

Definition without (sep : Z) (s : jstring) : bool :=
  forallb (fun c => negb (c =? sep)) s.

Definition blank (s : jstring) : bool := forallb is_trim_space s.

(** Values whose strings and keys hold no tilde, and the steps whose
    texts hold none. *)
Fixpoint tilde_free (v : JSON) : bool :=
  match v with
  | JStr s => without 126 s
  | JArr items => forallb tilde_free items
  | JObj props => forallb (fun kv => without 126 (fst kv) && tilde_free (snd kv)) props
  | _ => true
  end.

Definition step_tilde_free (s : SimulationStep) : bool :=
  without 126 (title s) && without 126 (description s) && without 126 (prompt s).

(** The octets of which [btoa] makes no sextet 62: ASCII other than the
    greater-than sign and the tilde. *)
Definition b64_safe (c : Z) : bool :=
  is_ascii c && negb (c =? 62) && negb (c =? 126).

(* ================================================================== *)
(** * Sample data *)
(* ================================================================== *)

(** An image as [generateImage] delivers it. *)
Definition sample_image : VisualContent :=
  image_content {| base64 := lit "AAAA"; mimeType := lit "image/png" |}.

Definition sample_steps : list SimulationStep :=
  [{| title := lit "Light"; description := lit "Light is absorbed.";
      prompt := lit "A chloroplast"; type := image |};
   {| title := lit "Water"; description := lit "Water is split.";
      prompt := lit "Water molecules"; type := image |}].

Definition sample_plan : list JSON := map step_value sample_steps.

(** A topic with separators, a letter outside ASCII (e with acute accent)
    and a character outside the basic plane (a surrogate pair). *)
Definition sample_topic : jstring :=
  lit "Photosynth" ++ [233] ++ lit "se & light = ?" ++ [55357; 56832].

(** A state that shows [sample_image] for the first step of [sample_plan],
    and the same state while a visual request is pending. *)
Definition shown_state : State :=
  setVisualContent (Some sample_image) (setSimulationPlan sample_plan initial_state).

Definition busy_state : State := setLoadingVisual true shown_state.

(** A page that shows the plan [sample_plan] for the topic [t]. *)
Definition sample_page (t : jstring) : Page :=
  {| app_state := setSimulationPlan sample_plan (setTopic (JStr t) initial_state);
     location := {| origin := lit "https://biosim.example";
                    pathname := lit "/";
                    search := [] |} |}.

(** A job that reports not-done at its first three completion checks and
    done, with a link, at the fourth; the download succeeds. *)
Definition three_checks_backend : VideoBackend :=
  {| submitted := inr {| done := false; uri := None |};
     polled := fun k =>
       if (k <? 2)%nat then inr {| done := false; uri := None |}
       else inr {| done := true; uri := Some (lit "https://video.example/1?alt=media") |};
     fetched := fun _ =>
       inr {| ok := true; statusText := lit "OK"; objectURL := lit "blob:1" |} |}.

(** A page opened at an address whose [simulation] parameter is empty. *)
Definition empty_parameter_page : Page :=
  {| app_state := initial_state;
     location := {| origin := lit "https://biosim.example";
                    pathname := lit "/";
                    search := lit "?simulation=" |} |}.

(** The parameter [handleShare] computes for the topic "Photosynthesis"
    and [sample_plan], and a page opened at the link. *)
Definition sample_parameter : jstring :=
  Eval vm_compute in
    match share_parameter (JStr (lit "Photosynthesis")) sample_plan with
    | Some base64String => base64String
    | None => []
    end.

Definition shared_link_page : Page :=
  {| app_state := initial_state;
     location := {| origin := lit "https://biosim.example";
                    pathname := lit "/";
                    search := lit "?simulation=" ++ sample_parameter |} |}.

(** The address of the page, and the events of a session in which the
    topic [~] is submitted and the plan [sample_plan] arrives. *)
Definition sample_address : Location :=
  {| origin := lit "https://biosim.example"; pathname := lit "/"; search := [] |}.

Definition tilde_session : list Event :=
  [SubmitTopic (lit "~") image; PlanArrives (inr sample_plan)].

(** The run of [generateVideo] on [three_checks_backend]. *)
Definition progress_of_three_checks : VideoRun :=
  (map video_message (seq 0 4) ++ [fetching_message], inr (lit "blob:1")).


(** A job whose second status request is rejected. *)
Definition rejecting_backend : VideoBackend :=
  {| submitted := inr {| done := false; uri := None |};
     polled := fun k =>
       if (k <? 1)%nat then inr {| done := false; uri := None |}
       else inl (ErrorObject (lit "quota exceeded"));
     fetched := fun _ => inl NotAnError |}.

(** A job that is done at once with an empty link, and one that is done
    at once with a link whose download is refused. *)
Definition linkless_backend : VideoBackend :=
  {| submitted := inr {| done := true; uri := Some [] |};
     polled := fun _ => inl NotAnError;
     fetched := fun _ => inl NotAnError |}.

Definition forbidden_backend : VideoBackend :=
  {| submitted := inr {| done := true; uri := Some (lit "https://video.example/2") |};
     polled := fun _ => inl NotAnError;
     fetched := fun _ =>
       inr {| ok := false; statusText := lit "Forbidden"; objectURL := [] |} |}.

(** A job that never reports done. *)
Definition stalled_backend : VideoBackend :=
  {| submitted := inr {| done := false; uri := None |};
     polled := fun _ => inr {| done := false; uri := None |};
     fetched := fun _ => inl NotAnError |}.

(* ================================================================== *)
(** * Tactics *)
(* ================================================================== *)

(** Linear arithmetic with division and remainder by constants. *)
Ltac zlia := Z.div_mod_to_equations; lia.

(** Case analysis on every integer comparison of the goal. *)
Ltac zcases :=
  repeat match goal with
         | |- context [Z.eqb ?a ?b] => destruct (Z.eqb_spec a b)
         | |- context [Z.ltb ?a ?b] => destruct (Z.ltb_spec a b)
         | |- context [Z.leb ?a ?b] => destruct (Z.leb_spec a b)
         end;
  cbn [andb orb negb].

(* ================================================================== *)
(*                            Properties                              *)
(* ================================================================== *)

(* ================================================================== *)
(** * Step navigation *)
(* ================================================================== *)

Lemma at_index_in_range {A : Type} (l : list A) (i : Z) :
  0 <= i < Z.of_nat (List.length l) ->
  at_index l i = nth_error l (Z.to_nat i) /\ exists x, nth_error l (Z.to_nat i) = Some x.
Proof.
  intros Hi. unfold at_index.
  destruct (Z.ltb_spec i 0) as [Hneg | _]; [lia |].
  split; [reflexivity |].
  destruct (nth_error l (Z.to_nat i)) as [x |] eqn:E; [eauto |].
  apply nth_error_None in E. lia.
Qed.

(** C4. For every plan and index [i]: when [0 <= i < plan.length],
    [goToStep(i)] sets the current index to [i], and the step read
    afterwards is [plan[i]] (which exists); for every other index
    [goToStep] changes nothing. *)
Theorem goToStep_in_and_out_of_range (st : State) (i : Z) :
  (0 <= i < Z.of_nat (List.length (simulationPlan st)) ->
     currentStepIndex (goToStep st i) = i
     /\ simulationPlan (goToStep st i) = simulationPlan st
     /\ currentStep (goToStep st i) = nth_error (simulationPlan st) (Z.to_nat i)
     /\ exists s, currentStep (goToStep st i) = Some s)
  /\ (~ (0 <= i < Z.of_nat (List.length (simulationPlan st))) ->
     goToStep st i = st).
Proof.
  unfold goToStep. split.
  - intros Hi.
    destruct (Z.leb_spec 0 i); [| lia].
    destruct (Z.ltb_spec i (Z.of_nat (List.length (simulationPlan st)))); [| lia].
    cbn [andb]. unfold currentStep. cbn.
    destruct (at_index_in_range (simulationPlan st) i Hi) as [E [s Hs]].
    repeat split; try assumption.
    exists s. congruence.
  - intros Hout.
    destruct (Z.leb_spec 0 i); [| reflexivity].
    destruct (Z.ltb_spec i (Z.of_nat (List.length (simulationPlan st)))); [lia | reflexivity].
Qed.

Lemma goToStep_in_and_out_of_range_witness :
  (currentStepIndex (goToStep shown_state 1) = 1
   /\ currentStep (goToStep shown_state 1) = nth_error sample_plan 1)
  /\ goToStep shown_state 2 = shown_state
  /\ goToStep shown_state (-1) = shown_state.
Proof.
  destruct (goToStep_in_and_out_of_range shown_state 1) as [Hin _].
  destruct (goToStep_in_and_out_of_range shown_state 2) as [_ Hhigh].
  destruct (goToStep_in_and_out_of_range shown_state (-1)) as [_ Hlow].
  split; [| split].
  - destruct Hin as [H1 [_ [H2 _]]]; [cbn; lia |]. split; [exact H1 | exact H2].
  - apply Hhigh. cbn. lia.
  - apply Hlow. cbn. lia.
Defined.

(* ================================================================== *)
(** * Submitting a topic *)
(* ================================================================== *)

(** C5. From every prior page, submitting a topic clears the session
    before the plan is fetched (plan empty, index 0, no visual, no error),
    and when the fetched array arrives the plan is that array, the index
    is 0 and no visual is held; with a non-empty array no error is held
    either, so the first visual request of the new plan starts from a
    cleared visual and error. *)
Theorem handleTopicSubmit_resets_session (pg : Page) (newTopic : jstring)
  (simulationType : VisualType) (fetchedPlan : list JSON) :
  let pending := app_state (fst (handleTopicSubmit_begin pg newTopic simulationType)) in
  let final := handleTopicSubmit_settle pending (inr fetchedPlan) in
  (topic pending = JStr newTopic
   /\ simulationPlan pending = []
   /\ currentStepIndex pending = 0
   /\ visualContent pending = None
   /\ error pending = None
   /\ loading pending = {| plan := true; visual := false |})
  /\ topic final = JStr newTopic
  /\ simulationPlan final = fetchedPlan
  /\ currentStepIndex final = 0
  /\ visualContent final = None
  /\ loading final = {| plan := false; visual := false |}
  /\ (fetchedPlan <> [] -> error final = None).
Proof.
  cbv zeta.
  destruct fetchedPlan as [| x rest]; cbn; repeat split; try reflexivity.
  intros Hne. contradiction.
Qed.

Lemma handleTopicSubmit_resets_session_witness :
  let pg := {| app_state := busy_state; location := {| origin := []; pathname := []; search := [] |} |} in
  let pending := app_state (fst (handleTopicSubmit_begin pg (lit "Mitosis") image)) in
  simulationPlan (handleTopicSubmit_settle pending (inr sample_plan)) = sample_plan
  /\ error (handleTopicSubmit_settle pending (inr sample_plan)) = None.
Proof.
  intros pg pending.
  pose proof (handleTopicSubmit_resets_session pg (lit "Mitosis") image sample_plan) as H.
  cbv zeta in H. destruct H as [_ [_ [Hplan [_ [_ [_ Herr]]]]]].
  split; [exact Hplan |].
  apply Herr. discriminate.
Defined.

(** The arrival of the plan does not depend on what happened while it was
    awaited: a non-empty array always becomes the plan. *)
Lemma handleTopicSubmit_settle_plan (st : State) (x : JSON) (rest : list JSON) :
  simulationPlan (handleTopicSubmit_settle st (inr (x :: rest))) = x :: rest
  /\ currentStepIndex (handleTopicSubmit_settle st (inr (x :: rest))) = currentStepIndex st.
Proof. split; reflexivity. Qed.

(* ================================================================== *)
(** * Editing the image *)
(* ================================================================== *)

Lemma first_inline_data_found (before after : list (option InlineData)) (d : InlineData) :
  Forall (fun part => part = None) before ->
  first_inline_data (before ++ Some d :: after)
  = Some {| base64 := inline_data d; mimeType := inline_mimeType d |}.
Proof.
  induction 1 as [| part rest Hpart _ IH]; [reflexivity |].
  subst part. exact IH.
Qed.

(** C9. In every state where an edit is valid (the visual is an image with
    a non-empty MIME type) the edit issues a request, and when [editImage]
    succeeds -- the reply has a part with inline data -- the visual becomes
    the image of the first such part: an image whose data is the data URL
    made of that part's MIME type and data, with that MIME type.  The step
    index, the plan and the topic are what they were before the edit, and
    no error is left. *)
Theorem handleImageEdit_success_frame (st : State) (vc : VisualContent)
  (c : Z) (m : jstring) (editPrompt : jstring)
  (before after : list (option InlineData)) (d : InlineData) :
  visualContent st = Some vc ->
  vc_type vc = image ->
  vc_mimeType vc = Some (c :: m) ->
  Forall (fun part => part = None) before ->
  exists pending,
    handleImageEdit_begin st editPrompt
    = (pending,
       Some (EditRequest (nth_error (split_on 44 (vc_data vc)) 1) (c :: m) editPrompt))
    /\ let final := handleImageEdit_settle pending
                      (editImage (inr (before ++ Some d :: after))) in
       visualContent final
       = Some {| vc_type := image;
                 vc_data := lit "data:" ++ inline_mimeType d
                            ++ lit ";base64," ++ inline_data d;
                 vc_mimeType := Some (inline_mimeType d) |}
       /\ currentStepIndex final = currentStepIndex st
       /\ simulationPlan final = simulationPlan st
       /\ topic final = topic st
       /\ videoStatus final = videoStatus st
       /\ error final = None
       /\ loading final = {| plan := plan (loading st); visual := false |}.
Proof.
  intros Hvc Hty Hmt Hbefore. unfold handleImageEdit_begin, editImage.
  rewrite Hvc, Hty, Hmt, (first_inline_data_found before after d Hbefore).
  eexists. split; [reflexivity |].
  cbn. repeat split.
Qed.

Lemma handleImageEdit_success_frame_witness :
  exists pending,
    handleImageEdit_begin shown_state (lit "add labels")
    = (pending,
       Some (EditRequest (nth_error (split_on 44 (vc_data sample_image)) 1)
               (lit "image/png") (lit "add labels")))
    /\ let final := handleImageEdit_settle pending
                      (editImage (inr ([None]
                                       ++ Some {| inline_data := lit "BBBB";
                                                  inline_mimeType := lit "image/jpeg" |}
                                       :: [None]))) in
       visualContent final
       = Some {| vc_type := image;
                 vc_data := lit "data:" ++ lit "image/jpeg" ++ lit ";base64," ++ lit "BBBB";
                 vc_mimeType := Some (lit "image/jpeg") |}
       /\ currentStepIndex final = currentStepIndex shown_state
       /\ simulationPlan final = simulationPlan shown_state
       /\ topic final = topic shown_state
       /\ videoStatus final = videoStatus shown_state
       /\ error final = None
       /\ loading final = {| plan := plan (loading shown_state); visual := false |}.
Proof.
  apply (handleImageEdit_success_frame shown_state sample_image 105 (lit "mage/png")
           (lit "add labels") [None] [None]
           {| inline_data := lit "BBBB"; inline_mimeType := lit "image/jpeg" |});
    try reflexivity.
  repeat constructor.
Defined.

(** C6. The edit is a no-op (state unchanged, no request): when no visual
    is held, when the visual is a video, and when it has no MIME type or
    an empty one, by the guard of [handleImageEdit]; and while a visual
    request is pending, by the guard of [ImageEditor.handleEdit], the only
    caller of [handleImageEdit], which does not call it while the
    visual-loading flag is set. *)
Theorem image_edit_noop_cases (st : State) (text : jstring) :
  (visualContent st = None
   \/ (exists vc, visualContent st = Some vc
        /\ (vc_type vc = video \/ vc_mimeType vc = None \/ vc_mimeType vc = Some [])) ->
   handleImageEdit_begin st text = (st, None)
   /\ ImageEditor_handleEdit st text = (st, None))
  /\ (visual (loading st) = true -> ImageEditor_handleEdit st text = (st, None)).
Proof.
  split.
  - intros H.
    assert (Hb : forall p, handleImageEdit_begin st p = (st, None)).
    { intros p. unfold handleImageEdit_begin.
      destruct H as [H | [vc [H Hk]]]; rewrite H; [reflexivity |].
      destruct Hk as [Hk | [Hk | Hk]]; rewrite Hk; try reflexivity;
        destruct (vc_type vc); reflexivity. }
    split; [apply Hb |].
    unfold ImageEditor_handleEdit.
    destruct (trim text); [reflexivity |].
    destruct (visual (loading st)); [reflexivity | apply Hb].
  - intros Hbusy. unfold ImageEditor_handleEdit.
    destruct (trim text); [reflexivity |].
    rewrite Hbusy. reflexivity.
Qed.

Lemma image_edit_noop_cases_witness :
  (handleImageEdit_begin initial_state (lit "add labels") = (initial_state, None)
   /\ ImageEditor_handleEdit initial_state (lit "add labels") = (initial_state, None))
  /\ ImageEditor_handleEdit busy_state (lit "add labels") = (busy_state, None).
Proof.
  split.
  - apply (image_edit_noop_cases initial_state (lit "add labels")).
    left. reflexivity.
  - apply (image_edit_noop_cases busy_state (lit "add labels")).
    reflexivity.
Defined.

(* ================================================================== *)
(** * Entering the pending state *)
(* ================================================================== *)




(* ================================================================== *)
(** * The index stays in range *)
(* ================================================================== *)

Lemma plan_requests_app (l l' : list Request) :
  plan_requests (l ++ l') = (plan_requests l + plan_requests l')%nat.
Proof. unfold plan_requests. rewrite filter_app, length_app. reflexivity. Qed.

Lemma plan_requests_awaiting_other (l : list Request) (r : option Request) :
  (forall q, r = Some q -> is_plan_request q = false) ->
  plan_requests (awaiting l r) = plan_requests l.
Proof.
  intros H. destruct r as [q |]; [| reflexivity].
  unfold awaiting. rewrite plan_requests_app. unfold plan_requests at 2.
  cbn [filter]. rewrite (H q eq_refl). cbn [List.length]. lia.
Qed.

Lemma take_request_plan (l rest : list Request) :
  take_request is_plan_request l = Some rest ->
  plan_requests l = S (plan_requests rest).
Proof.
  revert rest. induction l as [| r l IH]; intros rest; cbn; [discriminate |].
  unfold plan_requests in *. cbn.
  destruct (is_plan_request r) eqn:E.
  - intros H. injection H as <-. reflexivity.
  - destruct (take_request is_plan_request l) as [rest' |]; [| discriminate].
    intros H. injection H as <-. cbn. rewrite E. apply IH. reflexivity.
Qed.

Lemma take_request_other (kind : Request -> bool) (l rest : list Request) :
  (forall r, kind r = true -> is_plan_request r = false) ->
  take_request kind l = Some rest ->
  plan_requests rest = plan_requests l.
Proof.
  intros Hk. revert rest. induction l as [| r l IH]; intros rest; cbn; [discriminate |].
  unfold plan_requests in *. cbn.
  destruct (kind r) eqn:E.
  - intros H. injection H as <-. rewrite (Hk r E). reflexivity.
  - destruct (take_request kind l) as [rest' |]; [| discriminate].
    intros H. injection H as <-. cbn.
    destruct (is_plan_request r); cbn; rewrite (IH rest' eq_refl); reflexivity.
Qed.

Lemma same_navigation_refl (st : State) : same_navigation st st.
Proof. repeat split. Qed.

Lemma generateVisualForCurrentStep_begin_frame (st : State) (so : option VideoStyle) :
  same_navigation st (fst (generateVisualForCurrentStep_begin st so))
  /\ forall q, snd (generateVisualForCurrentStep_begin st so) = Some q ->
               is_plan_request q = false.
Proof.
  unfold generateVisualForCurrentStep_begin.
  destruct (simulationPlan st) eqn:Hp; [split; [apply same_navigation_refl | discriminate] |].
  destruct (currentStep st) as [step |]; [| split; [apply same_navigation_refl | discriminate]].
  destruct (truthy step); [| split; [apply same_navigation_refl | discriminate]].
  destruct (member_of step (lit "type")) as [[| | | t | |] |];
    try (split; [repeat split | discriminate]).
  destruct (jstring_eqb t (lit "image")).
  - split; [repeat split |]. intros q H. injection H as <-. reflexivity.
  - destruct (jstring_eqb t (lit "video")).
    + split; [repeat split |]. intros q H. injection H as <-. reflexivity.
    + split; [repeat split | discriminate].
Qed.

Lemma handleImageEdit_begin_frame (st : State) (p : jstring) :
  same_navigation st (fst (handleImageEdit_begin st p))
  /\ forall q, snd (handleImageEdit_begin st p) = Some q -> is_plan_request q = false.
Proof.
  unfold handleImageEdit_begin.
  destruct (visualContent st) as [vc |]; [| split; [apply same_navigation_refl | discriminate]].
  destruct (vc_type vc); [| split; [apply same_navigation_refl | discriminate]].
  destruct (vc_mimeType vc) as [[| c m] |];
    try (split; [apply same_navigation_refl | discriminate]).
  split; [repeat split |]. intros q H. injection H as <-. reflexivity.
Qed.

Lemma invariant_frame (sys : System) (st' : State) (l' : list Request) :
  system_invariant sys ->
  same_navigation (app_state (page sys)) st' ->
  plan_requests l' = plan_requests (in_flight sys) ->
  system_invariant {| page := with_app (page sys) st'; in_flight := l' |}.
Proof.
  unfold system_invariant, same_navigation, index_in_range.
  cbn [page app_state with_app in_flight].
  intros [Hi [Hle Hone]] [Hp [Hx Hl]] Hn.
  rewrite Hn, Hp, Hx, Hl. auto.
Qed.

Lemma started_invariant (sys : System) (res : State * option Request) :
  system_invariant sys ->
  same_navigation (app_state (page sys)) (fst res) ->
  (forall q, snd res = Some q -> is_plan_request q = false) ->
  system_invariant (started sys res).
Proof.
  intros Hinv Hsame Hq. unfold started.
  apply invariant_frame; [assumption | assumption |].
  apply plan_requests_awaiting_other. exact Hq.
Qed.

Lemma settled_invariant (sys : System) (kind : Request -> bool)
  (settle : State -> State) :
  system_invariant sys ->
  (forall r, kind r = true -> is_plan_request r = false) ->
  (forall st, same_navigation st (settle st)) ->
  system_invariant (settled sys kind settle).
Proof.
  intros Hinv Hk Hs. unfold settled.
  destruct (take_request kind (in_flight sys)) as [rest |] eqn:E; [| assumption].
  apply invariant_frame; [assumption | apply Hs |].
  apply (take_request_other kind); assumption.
Qed.

Lemma visual_effect_invariant (before : State) (sys : System) :
  system_invariant sys -> system_invariant (visual_effect before sys).
Proof.
  intros Hinv. unfold visual_effect.
  destruct (_ && _); [assumption |].
  destruct (simulationPlan (app_state (page sys))); [assumption |].
  apply started_invariant; [assumption | |];
    apply generateVisualForCurrentStep_begin_frame.
Qed.

Lemma goToStep_invariant (sys : System) (i : Z) :
  system_invariant sys ->
  system_invariant
    {| page := with_app (page sys) (goToStep (app_state (page sys)) i);
       in_flight := in_flight sys |}.
Proof.
  unfold system_invariant, index_in_range, goToStep. cbn.
  set (st := app_state (page sys)). intros [Hi [Hle Hone]].
  destruct (Z.leb_spec 0 i); cbn [andb]; [| auto].
  destruct (Z.ltb_spec i (Z.of_nat (List.length (simulationPlan st)))); [| auto].
  cbn. destruct (simulationPlan st) as [| x rest] eqn:Hp.
  - cbn in *. lia.
  - split; [lia |]. split; [assumption |].
    intros Hn. destruct (Hone Hn) as [_ [Habs _]]. discriminate.
Qed.

Lemma submit_invariant (sys : System) (text : jstring) (ty : VisualType) :
  system_invariant sys -> system_invariant (handle sys (SubmitTopic text ty)).
Proof.
  intros Hinv. unfold handle, TopicInput_handleSubmit.
  destruct (trim text) as [| c t]; [destruct sys as [[? ?] ?]; exact Hinv |].
  destruct (plan (loading (app_state (page sys)))) eqn:Hl;
    [destruct sys as [[? ?] ?]; exact Hinv |].
  destruct Hinv as [_ [Hle Hone]].
  unfold handleTopicSubmit_begin, system_invariant, index_in_range, awaiting.
  cbn [page app_state in_flight].
  rewrite plan_requests_app. change (plan_requests [PlanRequest (c :: t) ty]) with 1%nat.
  assert (Hz : plan_requests (in_flight sys) = 0%nat).
  { destruct (plan_requests (in_flight sys)) as [| [| k]] eqn:E; [reflexivity | | lia].
    destruct (Hone eq_refl) as [Habs _]. congruence. }
  rewrite Hz. cbn. auto.
Qed.

Lemma plan_arrives_invariant (sys : System) (outcome : Thrown + list JSON) :
  system_invariant sys -> system_invariant (handle sys (PlanArrives outcome)).
Proof.
  intros Hinv. cbn. unfold settled.
  destruct (take_request is_plan_request (in_flight sys)) as [rest |] eqn:E;
    [| assumption].
  apply take_request_plan in E.
  destruct Hinv as [_ [Hle Hone]]. rewrite E in Hle, Hone.
  assert (Hz : plan_requests rest = 0%nat) by lia.
  destruct (Hone ltac:(lia)) as [_ [Hp Hx]].
  unfold system_invariant, index_in_range. cbn [page app_state with_app in_flight].
  rewrite Hz.
  split; [| split; [lia | discriminate]].
  destruct outcome as [e | [| x l]]; cbn; rewrite ?Hp, ?Hx; try reflexivity.
  lia.
Qed.

Lemma handle_invariant (sys : System) (ev : Event) :
  system_invariant sys -> system_invariant (handle sys ev).
Proof.
  intros Hinv. destruct ev.
  - apply submit_invariant. exact Hinv.
  - apply goToStep_invariant. exact Hinv.
  - cbn. apply started_invariant; [exact Hinv | |];
      unfold ImageEditor_handleEdit;
      destruct (trim input);
      try destruct (visual (loading (app_state (page sys))));
      try (apply same_navigation_refl); try discriminate;
      apply handleImageEdit_begin_frame.
  - cbn. apply started_invariant; [exact Hinv | |];
      unfold VideoOptions_handleRegenerateClick, handleVideoRegenerate_begin;
      destruct (visual (loading (app_state (page sys))));
      try (apply same_navigation_refl); try discriminate;
      apply generateVisualForCurrentStep_begin_frame.
  - apply plan_arrives_invariant. exact Hinv.
  - cbn. apply settled_invariant; [exact Hinv | |].
    + intros [] H; try discriminate; reflexivity.
    + intros st. destruct outcome; repeat split.
  - cbn. apply settled_invariant; [exact Hinv | |].
    + intros [] H; try discriminate; reflexivity.
    + intros st. destruct outcome; repeat split.
  - cbn. destruct (existsb is_video_request (in_flight sys)); [| exact Hinv].
    apply invariant_frame; [exact Hinv | repeat split | reflexivity].
  - cbn. apply settled_invariant; [exact Hinv | |].
    + intros [] H; try discriminate; reflexivity.
    + intros st. destruct outcome; repeat split.
Qed.

Lemma dispatch_invariant (sys : System) (ev : Event) :
  system_invariant sys -> system_invariant (dispatch sys ev).
Proof.
  intros Hinv. unfold dispatch.
  apply visual_effect_invariant, handle_invariant, Hinv.
Qed.

Lemma shared_guard_nonempty (data t : JSON) (p : list JSON) :
  shared_guard data = Some (t, p) ->
  truthy t = true /\ exists x rest, p = x :: rest.
Proof.
  unfold shared_guard.
  destruct (member_of data (lit "topic")) as [t' |]; [| discriminate].
  destruct (truthy t') eqn:Ht; [| discriminate].
  destruct (member_of data (lit "simulationPlan")) as [[| | | | [| x l] |] |];
    try discriminate.
  intros H. injection H as <- <-. split; [exact Ht | eauto].
Qed.

Lemma loadSimulationFromURL_initial (loc : Location) :
  index_in_range
    (app_state (loadSimulationFromURL {| app_state := initial_state; location := loc |})).
Proof.
  unfold loadSimulationFromURL. cbn [location search app_state].
  destruct (URLSearchParams_get (search loc) (lit "simulation")) as [[| c rest] |];
    [reflexivity | | reflexivity].
  cbn [app_state].
  destruct (decode_shared (c :: rest)) as [data |]; [| reflexivity].
  destruct (shared_guard data) as [[t p] |] eqn:G; [| reflexivity].
  destruct (shared_guard_nonempty _ _ _ G) as [_ [x [l ->]]].
  unfold index_in_range. cbn. lia.
Qed.

Lemma mount_invariant (loc : Location) : system_invariant (mount loc).
Proof.
  unfold mount. apply visual_effect_invariant.
  unfold system_invariant. cbn [page app_state in_flight].
  split; [apply loadSimulationFromURL_initial |].
  split; [cbn; lia | discriminate].
Qed.

Lemma run_invariant (events : list Event) (sys : System) :
  system_invariant sys -> system_invariant (fold_left dispatch events sys).
Proof.
  revert sys. induction events as [| ev events IH]; intros sys Hinv; cbn.
  - exact Hinv.
  - apply IH, dispatch_invariant, Hinv.
Qed.

(** C8. In every state the page can reach -- from the first render at any
    address, with or without a shared plan in it, through any sequence of
    topic submissions, step clicks, edits, regenerations, progress
    messages and replies -- the current index is within [0, length-1] of
    the plan, or the plan is empty and the index is 0. *)
Theorem index_always_in_range (loc : Location) (events : list Event) :
  index_in_range (app_state (page (run loc events))).
Proof.
  unfold run.
  destruct (run_invariant events (mount loc) (mount_invariant loc)) as [H _].
  exact H.
Qed.

(* ================================================================== *)
(** * Progress messages of [generateVideo] *)
(* ================================================================== *)

Lemma finish_video_progress (apiKey : jstring) (w : VideoBackend)
  (progress : list jstring) (operation : Operation) :
  fst (finish_video apiKey w progress operation)
  = progress ++ (if has_download_link operation then [fetching_message] else []).
Proof.
  unfold finish_video, has_download_link.
  destruct (uri operation) as [[| c link] |]; cbn; try (rewrite app_nil_r; reflexivity).
  destruct (fetched w _) as [e | response]; [reflexivity |].
  destruct (ok response); reflexivity.
Qed.

Lemma poll_loop_until_done (apiKey : jstring) (w : VideoBackend) (last : Operation) :
  done last = true ->
  forall (m fuel i : nat) (progress : list jstring) (operation : Operation),
    completion_check w i = inr operation ->
    (forall k, (i <= k < i + m)%nat ->
               exists op, completion_check w k = inr op /\ done op = false) ->
    completion_check w (i + m) = inr last ->
    (m <= fuel)%nat ->
    poll_loop fuel apiKey w progress (S i) operation
    = Some (finish_video apiKey w (progress ++ map video_message (seq (S i) m)) last).
Proof.
  intros Hlast. induction m as [| m IH]; intros fuel i progress operation Hop Hnot Hend Hfuel.
  - rewrite Nat.add_0_r in Hend. rewrite Hop in Hend. injection Hend as ->.
    cbn [seq map]. rewrite app_nil_r.
    destruct fuel; cbn [poll_loop]; rewrite Hlast; reflexivity.
  - destruct (Hnot i ltac:(lia)) as [op [Hop' Hd]].
    rewrite Hop in Hop'. injection Hop' as <-.
    destruct fuel as [| fuel]; [lia |].
    cbn [poll_loop]. rewrite Hd.
    replace (S i - 1)%nat with i by lia.
    assert (Hnext : exists op', completion_check w (S i) = inr op').
    { destruct m as [| m'].
      - exists last. rewrite <- Hend. f_equal. lia.
      - destruct (Hnot (S i) ltac:(lia)) as [op' [H' _]]. eauto. }
    destruct Hnext as [op' Hop'].
    change (polled w i) with (completion_check w (S i)). rewrite Hop'.
    rewrite (IH fuel (S i) _ op' Hop').
    + cbn [seq map]. rewrite <- app_assoc. reflexivity.
    + intros k Hk. apply Hnot. lia.
    + rewrite <- Hend. f_equal. lia.
    + lia.
Qed.

(** C2, as stated, fails: for a job whose completion check reports
    not-done exactly three times before it reports done, [onProgress]
    receives five messages before the payload is returned -- the first four
    messages of the list and the fetch notice -- not three. *)
Lemma generateVideo_three_checks_five_messages :
  (forall k, (k < 3)%nat ->
     exists op, completion_check three_checks_backend k = inr op /\ done op = false)
  /\ (exists op, completion_check three_checks_backend 3 = inr op /\ done op = true)
  /\ generateVideo 3 (lit "KEY") three_checks_backend
     = Some ([lit "Initializing the virtual microscope...";
              lit "Sequencing bio-data for simulation...";
              lit "Assembling cellular structures...";
              lit "Simulating biological processes...";
              lit "Fetching generated video..."],
             inr (lit "blob:1"))
  /\ (forall run, generateVideo 3 (lit "KEY") three_checks_backend = Some run ->
                  List.length (fst run) <> 3%nat).
Proof.
  split; [| split; [| split]].
  - intros k Hk. exists {| done := false; uri := None |}.
    destruct k as [| [| [| k]]]; [split; reflexivity .. | lia].
  - eexists. split; reflexivity.
  - reflexivity.
  - intros run H. vm_compute in H. injection H as <-. cbn. discriminate.
Qed.

(** C2, amended. [generateVideo] passes the first message of the list to
    [onProgress] once on entry, before the job is submitted; then, for
    every completion check that reports not-done, the next message of the
    list in cyclic order (the k-th such check, k from 1, gets message
    [k mod 8]); once a check reports done no message of the list follows:
    the only further message is the fetch notice, sent when the job has a
    download link.  So a job that reports not-done [n] times is announced
    by the [n + 1] list messages of indices 0 to [n], and the loop ends
    with any fuel of at least [n] passes. *)
Theorem generateVideo_progress_messages (apiKey : jstring) (w : VideoBackend)
  (n fuel : nat) (last : Operation) :
  (forall k, (k < n)%nat ->
             exists op, completion_check w k = inr op /\ done op = false) ->
  completion_check w n = inr last ->
  done last = true ->
  (n <= fuel)%nat ->
  exists result,
    generateVideo fuel apiKey w
    = Some (map video_message (seq 0 (S n))
              ++ (if has_download_link last then [fetching_message] else []),
            result)
    /\ (forall k, video_message k
                  = nth (k mod 8) videoGenerationMessages [])
    /\ ~ In fetching_message videoGenerationMessages.
Proof.
  intros Hnot Hend Hlast Hfuel.
  assert (Hrun : generateVideo fuel apiKey w
                 = Some (finish_video apiKey w (map video_message (seq 0 (S n))) last)).
  { unfold generateVideo.
    destruct n as [| n].
    - cbn in Hend. rewrite Hend.
      destruct fuel; cbn [poll_loop]; rewrite Hlast; reflexivity.
    - destruct (Hnot 0%nat ltac:(lia)) as [op0 [H0 Hd0]]. cbn in H0. rewrite H0.
      destruct fuel as [| fuel]; [lia |].
      cbn [poll_loop]. rewrite Hd0. cbn [Nat.sub].
      assert (Hnext : exists op', completion_check w 1 = inr op').
      { destruct n as [| n'].
        - exists last. exact Hend.
        - destruct (Hnot 1%nat ltac:(lia)) as [op' [H' _]]. eauto. }
      destruct Hnext as [op1 H1]. change (polled w 0) with (completion_check w 1).
      rewrite H1.
      rewrite (poll_loop_until_done apiKey w last Hlast n fuel 1 _ op1 H1).
      + reflexivity.
      + intros k Hk. apply Hnot. lia.
      + exact Hend.
      + lia. }
  exists (snd (finish_video apiKey w (map video_message (seq 0 (S n))) last)).
  split; [| split].
  - rewrite Hrun.
    pose proof (finish_video_progress apiKey w (map video_message (seq 0 (S n))) last) as Hp.
    destruct (finish_video apiKey w (map video_message (seq 0 (S n))) last) as [pr res].
    cbn [fst snd] in *. rewrite Hp. reflexivity.
  - intros k. reflexivity.
  - cbv. intros H. repeat (destruct H as [H | H]; [discriminate H |]). exact H.
Qed.

Lemma generateVideo_progress_messages_witness :
  exists result,
    generateVideo 3 (lit "KEY") three_checks_backend
    = Some (map video_message (seq 0 4) ++ [fetching_message], result)
    /\ (forall k, video_message k = nth (k mod 8) videoGenerationMessages [])
    /\ ~ In fetching_message videoGenerationMessages.
Proof.
  apply (generateVideo_progress_messages (lit "KEY") three_checks_backend 3 3
           {| done := true; uri := Some (lit "https://video.example/1?alt=media") |}).
  - intros k Hk. exists {| done := false; uri := None |}.
    destruct k as [| [| [| k]]]; [split; reflexivity .. | lia].
  - reflexivity.
  - reflexivity.
  - lia.
Defined.

(* ================================================================== *)
(** * A plan that cannot be used *)
(* ================================================================== *)




(* ================================================================== *)
(** * Loading a shared plan from the address *)
(* ================================================================== *)

(** C10, as stated, fails on an empty parameter: the page loads with a
    [simulation] parameter, nothing is applied, and the parameter is still
    in the address afterwards. *)
Lemma loadSimulationFromURL_keeps_empty_parameter :
  URLSearchParams_get (search (location empty_parameter_page)) (lit "simulation")
  = Some []
  /\ loadSimulationFromURL empty_parameter_page = empty_parameter_page
  /\ search (location (loadSimulationFromURL empty_parameter_page))
     = lit "?simulation="
  /\ includes (search (location (loadSimulationFromURL empty_parameter_page)))
       (lit "simulation=") = true.
Proof. repeat split. Qed.

Lemma shared_guard_complete (data t : JSON) (x : JSON) (rest : list JSON) :
  member_of data (lit "topic") = Some t ->
  truthy t = true ->
  member_of data (lit "simulationPlan") = Some (JArr (x :: rest)) ->
  shared_guard data = Some (t, x :: rest).
Proof.
  intros Ht Htruthy Hp. unfold shared_guard. rewrite Ht, Htruthy, Hp. reflexivity.
Qed.

Lemma shared_guard_sound (data t : JSON) (p : list JSON) :
  shared_guard data = Some (t, p) ->
  member_of data (lit "topic") = Some t
  /\ truthy t = true
  /\ member_of data (lit "simulationPlan") = Some (JArr p)
  /\ p <> [].
Proof.
  unfold shared_guard.
  destruct (member_of data (lit "topic")) as [t' |]; [| discriminate].
  destruct (truthy t') eqn:Ht; [| discriminate].
  destruct (member_of data (lit "simulationPlan")) as [[| | | | [| x l] |] |];
    try discriminate.
  intros H. injection H as <- <-. repeat split; try assumption. discriminate.
Qed.

(** C10, amended. Let [d] be the value of the [simulation] parameter of
    the address the page loads at.  When the parameter is absent or [d] is
    empty, nothing happens: state and address are unchanged.  When [d] is
    not empty, the query is removed from the address in every case, and no
    state other than topic and plan changes (no error is set).  The shared
    state is applied exactly when [d] decodes ([atob], then
    [decodeURIComponent]), parses, and the parsed value has a truthy
    [topic] and an array of length above 0 as [simulationPlan]; the
    elements of the array are not inspected.  In every other case topic
    and plan are unchanged. *)
Theorem loadSimulationFromURL_applies_or_rejects (pg : Page) :
  let after := loadSimulationFromURL pg in
  let parameter := URLSearchParams_get (search (location pg)) (lit "simulation") in
  (parameter = None \/ parameter = Some [] -> after = pg)
  /\ (forall c d, parameter = Some (c :: d) ->
        search (location after) = []
        /\ origin (location after) = origin (location pg)
        /\ pathname (location after) = pathname (location pg)
        /\ error (app_state after) = error (app_state pg)
        /\ currentStepIndex (app_state after) = currentStepIndex (app_state pg)
        /\ visualContent (app_state after) = visualContent (app_state pg)
        /\ loading (app_state after) = loading (app_state pg)
        /\ videoStatus (app_state after) = videoStatus (app_state pg)
        /\ (forall binary jsonString data t x rest,
              atob (c :: d) = Some binary ->
              decodeURIComponent binary = Some jsonString ->
              JSON_parse jsonString = Some data ->
              member_of data (lit "topic") = Some t ->
              truthy t = true ->
              member_of data (lit "simulationPlan") = Some (JArr (x :: rest)) ->
              topic (app_state after) = t /\ simulationPlan (app_state after) = x :: rest)
        /\ (app_state after <> app_state pg ->
              exists binary jsonString data t x rest,
                atob (c :: d) = Some binary
                /\ decodeURIComponent binary = Some jsonString
                /\ JSON_parse jsonString = Some data
                /\ member_of data (lit "topic") = Some t
                /\ truthy t = true
                /\ member_of data (lit "simulationPlan") = Some (JArr (x :: rest)))).
Proof.
  cbv zeta. unfold loadSimulationFromURL. split.
  - intros [H | H]; rewrite H; reflexivity.
  - intros c d H. rewrite H.
    cbn [location app_state search origin pathname replaceState_pathname].
    do 3 (split; [reflexivity |]).
    unfold decode_shared.
    destruct (atob (c :: d)) as [binary |] eqn:Ha.
    2:{ do 5 (split; [reflexivity |]). split.
        - intros b j dt t' x' r' Hb. discriminate Hb.
        - intros Hne. contradiction. }
    destruct (decodeURIComponent binary) as [jsonString |] eqn:Hd.
    2:{ do 5 (split; [reflexivity |]). split.
        - intros b j dt t' x' r' Hb Hjs. congruence.
        - intros Hne. contradiction. }
    destruct (JSON_parse jsonString) as [data |] eqn:Hj.
    2:{ do 5 (split; [reflexivity |]). split.
        - intros b j dt t' x' r' Hb Hjs Hdt. congruence.
        - intros Hne. contradiction. }
    destruct (shared_guard data) as [[t p] |] eqn:Hg.
    + destruct (shared_guard_sound _ _ _ Hg) as [Ht [Htr [Hp Hne]]].
      destruct p as [| x rest]; [contradiction |].
      do 5 (split; [reflexivity |]). split.
      * intros b j dt t' x' r' Hb Hjs Hdt Ht' _ Hp'.
        assert (b = binary) by congruence. subst b.
        assert (j = jsonString) by congruence. subst j.
        assert (dt = data) by congruence. subst dt.
        cbn. split; congruence.
      * intros _. exists binary, jsonString, data, t, x, rest.
        repeat split; assumption.
    + do 5 (split; [reflexivity |]). split.
      * intros b j dt t' x' r' Hb Hjs Hdt Ht' Htr Hp'.
        assert (b = binary) by congruence. subst b.
        assert (j = jsonString) by congruence. subst j.
        assert (dt = data) by congruence. subst dt.
        rewrite (shared_guard_complete _ _ _ _ Ht' Htr Hp') in Hg. discriminate.
      * intros Hne. contradiction.
Qed.

Lemma loadSimulationFromURL_applies_or_rejects_witness :
  search (location (loadSimulationFromURL shared_link_page)) = []
  /\ error (app_state (loadSimulationFromURL shared_link_page)) = None
  /\ topic (app_state (loadSimulationFromURL shared_link_page)) = JStr (lit "Photosynthesis")
  /\ simulationPlan (app_state (loadSimulationFromURL shared_link_page)) = sample_plan
  /\ loadSimulationFromURL empty_parameter_page = empty_parameter_page.
Proof.
  destruct (loadSimulationFromURL_applies_or_rejects shared_link_page) as [_ H].
  destruct (loadSimulationFromURL_applies_or_rejects empty_parameter_page) as [Hempty _].
  cbv zeta in H, Hempty.
  edestruct H as [Hs [_ [_ [He [_ [_ [_ [_ [Happly _]]]]]]]]].
  { vm_compute. reflexivity. }
  split; [exact Hs |]. split; [exact He |].
  edestruct Happly as [Ht Hp].
  - vm_compute. reflexivity.
  - vm_compute. reflexivity.
  - vm_compute. reflexivity.
  - vm_compute. reflexivity.
  - reflexivity.
  - vm_compute. reflexivity.
  - split; [exact Ht |]. split; [exact Hp |].
    apply Hempty. right. reflexivity.
Defined.

(* ================================================================== *)
(** * [JSON.parse] after [JSON.stringify] *)
(* ================================================================== *)

Lemma hex_value_lower (d : Z) : 0 <= d < 16 -> hex_value (hex_lower d) = Some d.
Proof.
  intros Hd. unfold hex_lower, hex_value.
  destruct (Z.ltb_spec d 10); zcases; try lia; f_equal; lia.
Qed.

Lemma hex_value_upper (d : Z) : 0 <= d < 16 -> hex_value (hex_upper d) = Some d.
Proof.
  intros Hd. unfold hex_upper, hex_value.
  destruct (Z.ltb_spec d 10); zcases; try lia; f_equal; lia.
Qed.

Lemma code_unit_range (c : Z) : code_unit c = true <-> 0 <= c < 65536.
Proof. unfold code_unit. zcases; split; intros; try lia; try discriminate; reflexivity. Qed.

Lemma hex4_unicode_escape (c : Z) :
  0 <= c < 65536 ->
  hex4 (hex_lower (c / 4096)) (hex_lower ((c / 256) mod 16))
       (hex_lower ((c / 16) mod 16)) (hex_lower (c mod 16)) = Some c.
Proof.
  intros Hc. unfold hex4.
  rewrite !hex_value_lower by zlia. f_equal. zlia.
Qed.

Lemma parse_chars_unicode_escape (c : Z) (t : jstring) :
  0 <= c < 65536 ->
  parse_chars (unicode_escape c ++ t) = cons_chars c (parse_chars t).
Proof.
  intros Hc. unfold unicode_escape. cbn [List.app parse_chars].
  change (92 =? 34) with false. change (92 =? 92) with true.
  change (117 =? 117) with true. cbv iota.
  rewrite hex4_unicode_escape by exact Hc. reflexivity.
Qed.

Lemma parse_chars_raw (c : Z) (t : jstring) :
  32 <= c -> c <> 34 -> c <> 92 ->
  parse_chars (c :: t) = cons_chars c (parse_chars t).
Proof.
  intros H1 H2 H3. cbn [parse_chars].
  destruct (Z.eqb_spec c 34); [contradiction |].
  destruct (Z.eqb_spec c 92); [contradiction |].
  destruct (Z.ltb_spec c 32); [lia | reflexivity].
Qed.

Lemma parse_chars_quote_unit (c : Z) (t : jstring) :
  0 <= c < 65536 ->
  parse_chars (quote_unit c ++ t) = cons_chars c (parse_chars t).
Proof.
  intros Hc. unfold quote_unit.
  destruct (Z.eqb_spec c 8) as [-> |]; [reflexivity |].
  destruct (Z.eqb_spec c 9) as [-> |]; [reflexivity |].
  destruct (Z.eqb_spec c 10) as [-> |]; [reflexivity |].
  destruct (Z.eqb_spec c 12) as [-> |]; [reflexivity |].
  destruct (Z.eqb_spec c 13) as [-> |]; [reflexivity |].
  destruct (Z.eqb_spec c 34) as [-> |]; [reflexivity |].
  destruct (Z.eqb_spec c 92) as [-> |]; [reflexivity |].
  destruct ((c <? 32) || is_high_surrogate c || is_low_surrogate c) eqn:E.
  - apply parse_chars_unicode_escape. exact Hc.
  - apply orb_false_elim in E. destruct E as [E _].
    apply orb_false_elim in E. destruct E as [E _].
    apply Z.ltb_ge in E.
    cbn [List.app]. apply parse_chars_raw; assumption.
Qed.

Lemma surrogate_ranges (c : Z) :
  (is_high_surrogate c = true <-> 55296 <= c <= 56319)
  /\ (is_low_surrogate c = true <-> 56320 <= c <= 57343).
Proof.
  unfold is_high_surrogate, is_low_surrogate.
  split; zcases; split; intros; try lia; try discriminate; reflexivity.
Qed.

(** A string literal reads back as the string it quotes. *)
Lemma parse_chars_quote_chars (n : nat) :
  forall (s rest : jstring),
    (List.length s <= n)%nat ->
    well_formed s = true ->
    parse_chars (quote_chars s ++ 34 :: rest) = Some (s, rest).
Proof.
  induction n as [| n IH]; intros s rest Hlen Hwf.
  - destruct s; [reflexivity | cbn in Hlen; lia].
  - destruct s as [| c s1]; [reflexivity |].
    cbn [well_formed forallb] in Hwf. apply andb_prop in Hwf. destruct Hwf as [Hc Hwf1].
    apply code_unit_range in Hc.
    cbn [List.length] in Hlen.
    cbn [quote_chars].
    destruct (is_high_surrogate c) eqn:Hhi.
    + apply surrogate_ranges in Hhi.
      destruct s1 as [| d s2].
      * rewrite parse_chars_unicode_escape by exact Hc. reflexivity.
      * destruct (is_low_surrogate d) eqn:Hlo.
        -- apply surrogate_ranges in Hlo.
           cbn [well_formed forallb] in Hwf1. apply andb_prop in Hwf1.
           destruct Hwf1 as [_ Hwf2].
           cbn [List.app]. rewrite parse_chars_raw by lia. rewrite parse_chars_raw by lia.
           rewrite IH; [reflexivity | cbn [List.length] in Hlen; lia | exact Hwf2].
        -- rewrite <- app_assoc. rewrite parse_chars_unicode_escape by exact Hc.
           rewrite IH; [reflexivity | lia | exact Hwf1].
    + rewrite <- app_assoc. rewrite parse_chars_quote_unit by exact Hc.
      rewrite IH; [reflexivity | lia | exact Hwf1].
Qed.

Lemma parse_chars_QuoteJSONString (s rest : jstring) :
  well_formed s = true ->
  parse_chars (quote_chars s ++ [34] ++ rest) = Some (s, rest).
Proof.
  intros Hwf. apply (parse_chars_quote_chars (List.length s)); [lia | exact Hwf].
Qed.

(** Induction on JSON values, with the elements of arrays and the values
    of objects. *)
Lemma JSON_induction (P : JSON -> Prop) :
  P JNull ->
  (forall b, P (JBool b)) ->
  (forall literal, P (JNum literal)) ->
  (forall s, P (JStr s)) ->
  (forall items, Forall P items -> P (JArr items)) ->
  (forall props, Forall (fun kv => P (snd kv)) props -> P (JObj props)) ->
  forall v, P v.
Proof.
  intros Hnull Hbool Hnum Hstr Harr Hobj.
  fix IH 1. intros [| b | literal | s | items | props].
  - exact Hnull.
  - apply Hbool.
  - apply Hnum.
  - apply Hstr.
  - apply Harr. induction items as [| x l IHl]; constructor; [apply IH | exact IHl].
  - apply Hobj. induction props as [| [k x] l IHl]; constructor; [apply IH | exact IHl].
Qed.

Lemma skip_ws_stop (c : Z) (t : jstring) :
  is_json_ws c = false -> skip_ws (c :: t) = c :: t.
Proof. intros H. cbn [skip_ws]. rewrite H. reflexivity. Qed.

(** The equations of the parser on its first character. *)
Lemma parse_value_array (m : nat) (s1 : jstring) :
  parse_value (S m) (91 :: s1)
  = match skip_ws s1 with
    | d :: s2 => if d =? 93 then Some (JArr [], s2) else parse_elements m [] (d :: s2)
    | [] => None
    end.
Proof. reflexivity. Qed.

Lemma parse_value_object (m : nat) (s1 : jstring) :
  parse_value (S m) (123 :: s1)
  = match skip_ws s1 with
    | d :: s2 => if d =? 125 then Some (JObj [], s2) else parse_members m [] (d :: s2)
    | [] => None
    end.
Proof. reflexivity. Qed.

Lemma parse_value_string (m : nat) (s1 : jstring) :
  parse_value (S m) (34 :: s1)
  = match parse_chars s1 with
    | Some (cs, rest) => Some (JStr cs, rest)
    | None => None
    end.
Proof. reflexivity. Qed.

Lemma parse_elements_step (m : nat) (acc : list JSON) (s : jstring) :
  parse_elements (S m) acc s
  = match parse_value m s with
    | Some (v, rest) =>
        match skip_ws rest with
        | d :: s2 =>
            if d =? 44 then parse_elements m (v :: acc) (skip_ws s2)
            else if d =? 93 then Some (JArr (rev (v :: acc)), s2)
            else None
        | [] => None
        end
    | None => None
    end.
Proof. reflexivity. Qed.

Lemma parse_members_step (m : nat) (props : list (jstring * JSON)) (s1 : jstring) :
  parse_members (S m) props (34 :: s1)
  = match parse_chars s1 with
    | Some (key, rest) =>
        match skip_ws rest with
        | colon :: s2 =>
            if colon =? 58 then
              match parse_value m (skip_ws s2) with
              | Some (v, rest') =>
                  match skip_ws rest' with
                  | d :: s3 =>
                      if d =? 44 then
                        parse_members m (define_prop key v props) (skip_ws s3)
                      else if d =? 125 then
                        Some (JObj (define_prop key v props), s3)
                      else None
                  | [] => None
                  end
              | None => None
              end
            else None
        | [] => None
        end
    | None => None
    end.
Proof. reflexivity. Qed.

Lemma serialize_opens_value (v : JSON) (text : jstring) :
  serialize v = Some text -> opens_value text.
Proof.
  unfold opens_value. destruct v as [| [|] | literal | s | items | props]; cbn [serialize].
  - intros H. injection H as <-. do 2 eexists. split; [reflexivity |]. repeat split; discriminate.
  - intros H. injection H as <-. do 2 eexists. split; [reflexivity |]. repeat split; discriminate.
  - intros H. injection H as <-. do 2 eexists. split; [reflexivity |]. repeat split; discriminate.
  - discriminate.
  - intros H. injection H as <-. do 2 eexists. split; [reflexivity |]. repeat split; discriminate.
  - destruct (join_all 44 (map serialize items)) as [body |]; [| discriminate].
    intros H. injection H as <-. do 2 eexists. split; [reflexivity |]. repeat split; discriminate.
  - destruct (join_all 44 _) as [body |]; [| discriminate].
    intros H. injection H as <-. do 2 eexists. split; [reflexivity |]. repeat split; discriminate.
Qed.

Lemma join_all_cons (sep : Z) (x : option jstring) (rest : list (option jstring))
  (body : jstring) :
  join_all sep (x :: rest) = Some body ->
  exists tx, x = Some tx
    /\ match rest with
       | [] => body = tx
       | _ :: _ => exists tb, join_all sep rest = Some tb /\ body = tx ++ sep :: tb
       end.
Proof.
  cbn [join_all]. destruct rest as [| y rest'].
  - intros ->. eauto.
  - unfold join_with. destruct x as [tx |]; [| discriminate].
    destruct (join_all sep (y :: rest')) as [tb |]; [| discriminate].
    intros H. injection H as <-. eauto.
Qed.

Lemma parse_elements_reads_back (items : list JSON) :
  Forall reads_back items ->
  forallb shareable items = true ->
  items <> [] ->
  forall body, join_all 44 (map serialize items) = Some body ->
  forall acc rest m, (List.length body + 1 <= m)%nat ->
  parse_elements m acc (body ++ 93 :: rest) = Some (JArr (rev acc ++ items), rest).
Proof.
  induction items as [| x l IH]; intros Hall Hsh Hne body Hbody acc rest m Hm;
    [contradiction |].
  inversion Hall as [| ? ? Hx Hl]; subst.
  cbn [forallb] in Hsh. apply andb_prop in Hsh. destruct Hsh as [Hshx Hshl].
  cbn [map] in Hbody. apply join_all_cons in Hbody. destruct Hbody as [tx [Htx Hrest]].
  destruct (serialize_opens_value _ _ Htx) as [c0 [t0 [Etx _]]].
  destruct m as [| m]; [lia |].
  rewrite parse_elements_step.
  destruct l as [| y l'].
  - cbn [map] in Hrest. subst body.
    rewrite (Hx Hshx tx Htx (93 :: rest) m) by lia.
    rewrite skip_ws_stop by reflexivity. cbn. reflexivity.
  - cbn [map] in Hrest. destruct Hrest as [tb [Htb ->]].
    rewrite length_app in Hm. cbn [List.length] in Hm.
    rewrite <- app_assoc. cbn [List.app].
    rewrite (Hx Hshx tx Htx (44 :: tb ++ 93 :: rest) m)
      by (subst tx; cbn [List.length] in *; lia).
    rewrite skip_ws_stop by reflexivity.
    change (44 =? 44) with true. cbv iota.
    assert (Hopen : opens_value tb).
    { change (map serialize (y :: l')) with (serialize y :: map serialize l') in Htb.
      apply join_all_cons in Htb. destruct Htb as [ty [Hty Hr]].
      destruct (serialize_opens_value _ _ Hty) as [c1 [t1 [-> [Hws [H93 H125]]]]].
      destruct (map serialize l').
      - subst tb. exists c1, t1. auto.
      - destruct Hr as [tb' [_ ->]]. exists c1, (t1 ++ 44 :: tb'). auto. }
    destruct Hopen as [c1 [t1 [Etb [Hws _]]]].
    assert (Hskip : skip_ws (tb ++ 93 :: rest) = tb ++ 93 :: rest).
    { rewrite Etb. cbn [List.app]. apply skip_ws_stop. exact Hws. }
    rewrite Hskip.
    rewrite (IH Hl Hshl ltac:(discriminate) tb Htb (x :: acc) rest m)
      by (subst tx; cbn [List.length] in *; lia).
    cbn [rev]. rewrite <- app_assoc. reflexivity.
Qed.

Lemma replace_prop_absent (key : jstring) (v : JSON) (done_ : list (jstring * JSON)) :
  forallb (fun k => negb (jstring_eqb k key)) (map fst done_) = true ->
  replace_prop key v done_ = None.
Proof.
  induction done_ as [| [k w] l IH]; [reflexivity |].
  cbn [map fst forallb replace_prop]. intros H. apply andb_prop in H.
  destruct H as [Hk Hl]. apply negb_true_iff in Hk. rewrite Hk.
  rewrite (IH Hl). reflexivity.
Qed.

Lemma distinct_keys_app (a b : list jstring) (k : jstring) :
  distinct_keys (a ++ k :: b) = true ->
  forallb (fun k' => negb (jstring_eqb k' k)) a = true
  /\ distinct_keys ((a ++ [k]) ++ b) = true.
Proof.
  intros H. split.
  - induction a as [| x a IH]; [reflexivity |].
    cbn [List.app distinct_keys] in H. apply andb_prop in H. destruct H as [Hx Ha].
    cbn [forallb]. rewrite (IH Ha), andb_true_r.
    apply negb_true_iff in Hx. apply negb_true_iff.
    rewrite existsb_app in Hx. apply orb_false_elim in Hx. destruct Hx as [_ Hx].
    cbn [existsb] in Hx. apply orb_false_elim in Hx. tauto.
  - rewrite <- app_assoc. exact H.
Qed.

Lemma define_prop_fresh (key : jstring) (v : JSON) (done_ : list (jstring * JSON)) :
  forallb (fun k => negb (jstring_eqb k key)) (map fst done_) = true ->
  plain_key key = true ->
  define_prop key v done_ = done_ ++ [(key, v)].
Proof.
  intros Hfresh Hplain. unfold define_prop.
  rewrite (replace_prop_absent _ _ _ Hfresh).
  unfold plain_key in Hplain. apply andb_prop in Hplain. destruct Hplain as [_ Hidx].
  destruct (array_index key); [discriminate | reflexivity].
Qed.

Lemma member_text_shape (k : jstring) (v : JSON) (t : jstring) :
  member_text k (serialize v) = Some t ->
  exists tv, serialize v = Some tv /\ t = 34 :: quote_chars k ++ [34] ++ 58 :: tv.
Proof.
  unfold member_text, QuoteJSONString. destruct (serialize v) as [tv |]; [| discriminate].
  cbn [option_map]. intros H. injection H as <-. exists tv. split; [reflexivity |].
  cbn [List.app]. rewrite <- app_assoc. reflexivity.
Qed.

Lemma member_parts_open (props : list (jstring * JSON)) (body : jstring) :
  props <> [] ->
  join_all 44 (member_parts props) = Some body ->
  exists t, body = 34 :: t.
Proof.
  destruct props as [| [k v] l]; [contradiction |]. intros _ H.
  cbn [member_parts map fst snd] in H. apply join_all_cons in H.
  destruct H as [tx [Htx Hrest]].
  apply member_text_shape in Htx. destruct Htx as [tv [_ ->]].
  destruct (map _ l).
  - subst body. eauto.
  - destruct Hrest as [tb [_ ->]]. cbn [List.app]. eauto.
Qed.

Lemma parse_members_reads_back (props : list (jstring * JSON)) :
  Forall (fun kv => reads_back (snd kv)) props ->
  forallb (fun kv => shareable (snd kv)) props = true ->
  forallb plain_key (map fst props) = true ->
  props <> [] ->
  forall done_ body,
    distinct_keys (map fst (done_ ++ props)) = true ->
    join_all 44 (member_parts props) = Some body ->
    forall rest m, (List.length body + 1 <= m)%nat ->
    parse_members m done_ (body ++ 125 :: rest) = Some (JObj (done_ ++ props), rest).
Proof.
  induction props as [| [k v] l IH];
    intros Hall Hsh Hplain Hne done_ body Hdist Hbody rest m Hm; [contradiction |].
  inversion Hall as [| ? ? Hv Hl]; subst. cbn [snd] in Hv.
  cbn [forallb snd] in Hsh. apply andb_prop in Hsh. destruct Hsh as [Hshv Hshl].
  cbn [map fst forallb] in Hplain. apply andb_prop in Hplain.
  destruct Hplain as [Hk Hpl].
  assert (Hwfk : well_formed k = true).
  { unfold plain_key in Hk. apply andb_prop in Hk. tauto. }
  rewrite map_app in Hdist. cbn [map fst] in Hdist.
  apply distinct_keys_app in Hdist. destruct Hdist as [Hfresh Hdist].
  cbn [member_parts map fst snd] in Hbody. apply join_all_cons in Hbody.
  destruct Hbody as [tx [Htx Hrest]].
  apply member_text_shape in Htx. destruct Htx as [tv [Htv ->]].
  destruct (serialize_opens_value _ _ Htv) as [c0 [t0 [Etv [Hws0 _]]]].
  destruct m as [| m]; [lia |].
  assert (Hskipv : forall R, skip_ws (tv ++ R) = tv ++ R).
  { intros R. rewrite Etv. cbn [List.app]. apply skip_ws_stop. exact Hws0. }
  destruct l as [| kv' l'].
  - cbn [map] in Hrest. subst body.
    cbn [List.app]. rewrite <- !app_assoc. cbn [List.app].
    rewrite parse_members_step.
    rewrite (parse_chars_quote_chars (List.length k) k) by (try lia; exact Hwfk).
    rewrite skip_ws_stop by reflexivity.
    change (58 =? 58) with true. cbv iota.
    rewrite Hskipv.
    rewrite (Hv Hshv tv Htv (125 :: rest) m)
      by (cbn [List.length] in Hm; rewrite !length_app in Hm; cbn [List.length] in Hm; lia).
    rewrite skip_ws_stop by reflexivity.
    change (125 =? 44) with false. change (125 =? 125) with true. cbv iota.
    rewrite (define_prop_fresh _ _ _ Hfresh Hk). reflexivity.
  - cbn [map] in Hrest. destruct Hrest as [tb [Htb ->]].
    assert (Hopen : exists t, tb = 34 :: t).
    { apply (member_parts_open (kv' :: l')); [discriminate | exact Htb]. }
    destruct Hopen as [t1 Etb].
    cbn [List.app]. repeat (rewrite <- app_assoc; cbn [List.app]).
    rewrite parse_members_step.
    rewrite (parse_chars_quote_chars (List.length k) k) by (try lia; exact Hwfk).
    rewrite skip_ws_stop by reflexivity.
    change (58 =? 58) with true. cbv iota.
    rewrite Hskipv.
    cbn [List.length] in Hm. rewrite !length_app in Hm. cbn [List.length] in Hm.
    rewrite !length_app in Hm. cbn [List.length] in Hm.
    rewrite (Hv Hshv tv Htv (44 :: tb ++ 125 :: rest) m) by lia.
    rewrite skip_ws_stop by reflexivity.
    change (44 =? 44) with true. cbv iota.
    rewrite (define_prop_fresh _ _ _ Hfresh Hk).
    assert (Hskip : skip_ws (tb ++ 125 :: rest) = tb ++ 125 :: rest).
    { rewrite Etb. reflexivity. }
    rewrite Hskip.
    rewrite (IH Hl Hshl Hpl ltac:(discriminate) (done_ ++ [(k, v)]) tb).
    + rewrite <- app_assoc. reflexivity.
    + rewrite map_app, map_app. cbn [map fst]. exact Hdist.
    + exact Htb.
    + lia.
Qed.

(** Every shareable value is read back from its own text. *)
Lemma parse_value_reads_back (v : JSON) : reads_back v.
Proof.
  induction v as [| b | literal | s | items IH | props IH] using JSON_induction;
    intros Hsh text Htext rest m Hm.
  - cbn in Htext. injection Htext as <-.
    destruct m as [| m]; [cbn in Hm; lia |]. reflexivity.
  - destruct b; cbn in Htext; injection Htext as <-;
      (destruct m as [| m]; [cbn in Hm; lia |]); reflexivity.
  - discriminate.
  - cbn [serialize] in Htext. injection Htext as <-.
    destruct m as [| m]; [cbn in Hm; lia |].
    unfold QuoteJSONString. cbn [List.app]. rewrite <- app_assoc.
    rewrite parse_value_string.
    cbn [shareable] in Hsh.
    rewrite (parse_chars_QuoteJSONString s rest Hsh). reflexivity.
  - cbn [serialize] in Htext. cbn [shareable] in Hsh.
    destruct (join_all 44 (map serialize items)) as [body |] eqn:Hbody; [| discriminate].
    cbn [option_map] in Htext. injection Htext as <-.
    destruct m as [| m]; [cbn in Hm; lia |].
    cbn [List.app]. rewrite <- app_assoc. cbn [List.app].
    rewrite parse_value_array.
    destruct items as [| x l].
    + cbn in Hbody. injection Hbody as <-. reflexivity.
    + assert (Hopen : opens_value body).
      { cbn [map] in Hbody. apply join_all_cons in Hbody.
        destruct Hbody as [tx [Htx Hr]].
        destruct (serialize_opens_value _ _ Htx) as [c1 [t1 [-> [Hws [H93 H125]]]]].
        destruct (map serialize l).
        - subst body. exists c1, t1. auto.
        - destruct Hr as [tb' [_ ->]]. exists c1, (t1 ++ 44 :: tb'). auto. }
      destruct Hopen as [c1 [t1 [Eb [Hws [H93 _]]]]].
      pose proof (parse_elements_reads_back (x :: l) IH Hsh ltac:(discriminate)
                    body Hbody [] rest m) as Hel.
      rewrite Eb in *. cbn [List.app] in *.
      rewrite skip_ws_stop by exact Hws.
      destruct (Z.eqb_spec c1 93); [contradiction |].
      apply Hel. cbn [List.length] in *. rewrite length_app in Hm.
      cbn [List.length] in Hm. lia.
  - cbn [serialize] in Htext. cbn [shareable] in Hsh.
    apply andb_prop in Hsh. destruct Hsh as [Hsh Hvals].
    apply andb_prop in Hsh. destruct Hsh as [Hplain Hdist].
    fold (member_parts props) in Htext.
    destruct (join_all 44 (member_parts props)) as [body |] eqn:Hbody; [| discriminate].
    cbn [option_map] in Htext. injection Htext as <-.
    destruct m as [| m]; [cbn in Hm; lia |].
    cbn [List.app]. rewrite <- app_assoc. cbn [List.app].
    rewrite parse_value_object.
    destruct props as [| kv l].
    + cbn in Hbody. injection Hbody as <-. reflexivity.
    + destruct (member_parts_open (kv :: l) body ltac:(discriminate) Hbody) as [t1 Eb].
      pose proof (parse_members_reads_back (kv :: l) IH Hvals Hplain ltac:(discriminate)
                    [] body Hdist Hbody rest m) as Hmem.
      rewrite Eb in *. cbn [List.app] in *.
      rewrite skip_ws_stop by reflexivity.
      change (34 =? 125) with false. cbv iota.
      apply Hmem. cbn [List.length] in *. rewrite length_app in Hm.
      cbn [List.length] in Hm. lia.
Qed.

Lemma serialize_total (v : JSON) :
  shareable v = true -> exists text, serialize v = Some text.
Proof.
  induction v as [| b | literal | s | items IH | props IH] using JSON_induction;
    intros Hsh.
  - eexists. reflexivity.
  - destruct b; eexists; reflexivity.
  - discriminate.
  - eexists. reflexivity.
  - cbn [serialize]. cbn [shareable] in Hsh.
    assert (H : exists body, join_all 44 (map serialize items) = Some body).
    { induction items as [| x l IHl]; [eexists; reflexivity |].
      inversion IH as [| ? ? Hx Hl]; subst.
      cbn [forallb] in Hsh. apply andb_prop in Hsh. destruct Hsh as [Hshx Hshl].
      destruct (Hx Hshx) as [tx Htx]. destruct (IHl Hl Hshl) as [tb Htb].
      cbn [map join_all]. rewrite Htx.
      destruct (map serialize l) eqn:E; [eauto |].
      rewrite Htb. cbn. eauto. }
    destruct H as [body ->]. eexists. reflexivity.
  - cbn [serialize]. cbn [shareable] in Hsh.
    apply andb_prop in Hsh. destruct Hsh as [_ Hvals].
    fold (member_parts props).
    assert (H : exists body, join_all 44 (member_parts props) = Some body).
    { induction props as [| [k x] l IHl]; [eexists; reflexivity |].
      inversion IH as [| ? ? Hx Hl]; subst. cbn [snd] in Hx.
      cbn [forallb snd] in Hvals. apply andb_prop in Hvals. destruct Hvals as [Hshx Hshl].
      destruct (Hx Hshx) as [tx Htx]. destruct (IHl Hl Hshl) as [tb Htb].
      cbn [member_parts map join_all fst snd]. rewrite Htx. cbn [member_text option_map].
      fold (member_parts l).
      destruct (member_parts l) eqn:E; [eauto |].
      rewrite Htb. cbn. eauto. }
    destruct H as [body ->]. eexists. reflexivity.
Qed.

(** [JSON.parse(JSON.stringify(v))] is [v] for every shareable value. *)
Lemma JSON_parse_stringify (v : JSON) (text : jstring) :
  shareable v = true ->
  JSON_stringify v = Some text ->
  JSON_parse text = Some v.
Proof.
  intros Hsh Htext. unfold JSON_stringify in Htext. unfold JSON_parse.
  destruct (serialize_opens_value _ _ Htext) as [c [t [E [Hws _]]]].
  assert (Hskip : skip_ws text = text) by (rewrite E; apply skip_ws_stop; exact Hws).
  rewrite Hskip.
  pose proof (parse_value_reads_back v Hsh text Htext [] (S (List.length text))) as H.
  rewrite app_nil_r in H. rewrite H by lia. reflexivity.
Qed.

(* ================================================================== *)
(** * [decodeURIComponent] after [encodeURIComponent] *)
(* ================================================================== *)

Lemma is_ascii_range (c : Z) : is_ascii c = true <-> 0 <= c < 128.
Proof. unfold is_ascii. zcases; split; intros; try lia; try discriminate; reflexivity. Qed.

Lemma hex_upper_ascii (d : Z) : 0 <= d < 16 -> is_ascii (hex_upper d) = true.
Proof. intros Hd. apply is_ascii_range. unfold hex_upper. zcases; lia. Qed.

Lemma percent_octet_ascii (b : Z) :
  0 <= b < 256 -> forallb is_ascii (percent_octet b) = true.
Proof.
  intros Hb. unfold percent_octet. cbn [forallb].
  rewrite !hex_upper_ascii by zlia. reflexivity.
Qed.

Lemma percent_octets_ascii (bs : list Z) :
  Forall (fun b => 0 <= b < 256) bs -> forallb is_ascii (percent_octets bs) = true.
Proof.
  induction 1 as [| b bs Hb _ IH]; [reflexivity |].
  unfold percent_octets in *. cbn [flat_map]. rewrite forallb_app, IH.
  rewrite percent_octet_ascii by exact Hb. reflexivity.
Qed.

Lemma parse_hex_octet_percent (b : Z) (t : jstring) :
  0 <= b < 256 ->
  parse_hex_octet (hex_upper (b / 16) :: hex_upper (b mod 16) :: t) = Some (b, t).
Proof.
  intros Hb. unfold parse_hex_octet.
  rewrite !hex_value_upper by zlia. do 2 f_equal. zlia.
Qed.

Lemma read_continuations_percent (bs : list Z) (t : jstring) :
  Forall (fun b => 0 <= b < 256) bs ->
  read_continuations (List.length bs) (percent_octets bs ++ t) = Some (bs, t).
Proof.
  induction 1 as [| b bs Hb _ IH]; [reflexivity |].
  unfold percent_octets in *. cbn [flat_map List.length read_continuations].
  unfold percent_octet at 1. cbn [List.app].
  change (37 =? 37) with true. cbv iota.
  rewrite parse_hex_octet_percent by exact Hb. rewrite IH. reflexivity.
Qed.

Lemma decode_uri_plain (f : nat) (c : Z) (s : jstring) :
  c <> 37 -> decode_uri (S f) (c :: s) = app_some [c] (decode_uri f s).
Proof.
  intros Hc. cbn [decode_uri]. destruct (Z.eqb_spec c 37); [contradiction | reflexivity].
Qed.

Lemma decode_uri_octets (f : nat) (b : Z) (conts : list Z) (E : jstring) :
  0 <= b < 256 ->
  Forall (fun x => 0 <= x < 256) conts ->
  decode_uri (S f) (percent_octets (b :: conts) ++ E)
  = match leading_ones b with
    | O => match conts with
           | [] => app_some [b] (decode_uri f E)
           | _ :: _ => app_some [b] (decode_uri f (percent_octets conts ++ E))
           end
    | 1%nat => None
    | 5%nat => None
    | S n =>
        match read_continuations n (percent_octets conts ++ E) with
        | Some (cs, rest) =>
            match utf8_code_point b cs with
            | Some v => app_some (utf16_encode v) (decode_uri f rest)
            | None => None
            end
        | None => None
        end
    end.
Proof.
  intros Hb Hconts. unfold percent_octets. cbn [flat_map].
  unfold percent_octet at 1. cbn [List.app decode_uri].
  change (37 =? 37) with true. cbv iota.
  rewrite parse_hex_octet_percent by exact Hb.
  destruct (leading_ones b) as [| [| [| [| [| [| k]]]]]]; try reflexivity.
  destruct conts; reflexivity.
Qed.

(** One code point, percent-encoded, decodes to its UTF-16 form. *)
Lemma decode_uri_code_point (f : nat) (cp : Z) (E : jstring) :
  0 <= cp < 1114112 ->
  ~ (55296 <= cp <= 57343) ->
  decode_uri (S f) (percent_octets (utf8_octets cp) ++ E)
  = app_some (utf16_encode cp) (decode_uri f E)
  /\ forallb is_ascii (percent_octets (utf8_octets cp)) = true
  /\ (3 <= List.length (percent_octets (utf8_octets cp)))%nat.
Proof.
  intros Hcp Hsur. unfold utf8_octets.
  destruct (Z.ltb_spec cp 128) as [H1 | H1];
    [| destruct (Z.ltb_spec cp 2048) as [H2 | H2];
       [| destruct (Z.ltb_spec cp 65536) as [H3 | H3]]].
  - split; [| split; [apply percent_octets_ascii; repeat constructor; lia | cbn; lia]].
    rewrite decode_uri_octets by (try constructor; lia).
    unfold leading_ones. destruct (Z.ltb_spec cp 128); [| lia].
    unfold utf16_encode. destruct (Z.ltb_spec cp 65536); [reflexivity | lia].
  - split; [| split; [apply percent_octets_ascii; repeat constructor; zlia | cbn; lia]].
    rewrite decode_uri_octets by (repeat constructor; zlia).
    assert (Hl : leading_ones (192 + cp / 64) = 2%nat).
    { unfold leading_ones. zcases; try reflexivity; zlia. }
    rewrite Hl.
    rewrite (read_continuations_percent [128 + cp mod 64]) by (repeat constructor; zlia).
    unfold utf8_code_point, is_continuation.
    replace ((192 + cp / 64 - 192) * 64 + (128 + cp mod 64 - 128)) with cp by zlia.
    zcases; try reflexivity; zlia.
  - split; [| split; [apply percent_octets_ascii; repeat constructor; zlia | cbn; lia]].
    rewrite decode_uri_octets by (repeat constructor; zlia).
    assert (Hl : leading_ones (224 + cp / 4096) = 3%nat).
    { unfold leading_ones. zcases; try reflexivity; zlia. }
    rewrite Hl.
    rewrite (read_continuations_percent [128 + (cp / 64) mod 64; 128 + cp mod 64])
      by (repeat constructor; zlia).
    unfold utf8_code_point, is_continuation.
    replace (((224 + cp / 4096 - 224) * 64 + (128 + (cp / 64) mod 64 - 128)) * 64
             + (128 + cp mod 64 - 128)) with cp by zlia.
    zcases; try reflexivity; zlia.
  - split; [| split; [apply percent_octets_ascii; repeat constructor; zlia | cbn; lia]].
    rewrite decode_uri_octets by (repeat constructor; zlia).
    assert (Hl : leading_ones (240 + cp / 262144) = 4%nat).
    { unfold leading_ones. zcases; try reflexivity; zlia. }
    rewrite Hl.
    rewrite (read_continuations_percent
               [128 + (cp / 4096) mod 64; 128 + (cp / 64) mod 64; 128 + cp mod 64])
      by (repeat constructor; zlia).
    unfold utf8_code_point, is_continuation.
    replace ((((240 + cp / 262144 - 240) * 64 + (128 + (cp / 4096) mod 64 - 128)) * 64
              + (128 + (cp / 64) mod 64 - 128)) * 64 + (128 + cp mod 64 - 128))
      with cp by zlia.
    zcases; try reflexivity; zlia.
Qed.

Lemma uri_unreserved_plain (c : Z) :
  uri_unreserved c = true -> c <> 37 /\ is_ascii c = true.
Proof.
  intros H. split.
  - intros ->. discriminate H.
  - apply is_ascii_range.
    unfold uri_unreserved, is_alnum, is_digit in H. lia.
Qed.

Lemma app_some_decode (x : jstring) (r : option jstring) (s : jstring) :
  r = Some s -> app_some x r = Some (x ++ s).
Proof. intros ->. reflexivity. Qed.

(** The text [encodeURIComponent] makes of a scalar-value string is
    ASCII, and [decodeURIComponent] gives the string back. *)
Lemma decode_encode_uri (n : nat) :
  forall s : jstring,
    (List.length s <= n)%nat ->
    scalar s = true ->
    exists e,
      encodeURIComponent s = Some e
      /\ forallb is_ascii e = true
      /\ (List.length s <= List.length e)%nat
      /\ forall f, (List.length e <= f)%nat -> decode_uri f e = Some s.
Proof.
  induction n as [| n IH]; intros s Hlen Hs.
  - destruct s; [| cbn in Hlen; lia].
    exists []. repeat split; try reflexivity. intros f _. destruct f; reflexivity.
  - destruct s as [| c s1].
    { exists []. repeat split; try reflexivity. intros f _. destruct f; reflexivity. }
    cbn [List.length] in Hlen. cbn [scalar] in Hs. cbn [encodeURIComponent].
    destruct (uri_unreserved c) eqn:Hun.
    + destruct (uri_unreserved_plain c Hun) as [H37 Hascii].
      assert (Hs1 : scalar s1 = true).
      { apply is_ascii_range in Hascii.
        assert (Hh : is_high_surrogate c = false)
          by (unfold is_high_surrogate; zcases; try reflexivity; lia).
        rewrite Hh in Hs. apply andb_prop in Hs. tauto. }
      destruct (IH s1 ltac:(lia) Hs1) as [e [He [Hasc [Hle Hdec]]]].
      exists (c :: e). rewrite He. split; [reflexivity |].
      split; [cbn [forallb]; rewrite Hascii, Hasc; reflexivity |].
      split; [cbn [List.length]; lia |].
      intros f Hf. cbn [List.length] in Hf. destruct f as [| f]; [lia |].
      rewrite decode_uri_plain by exact H37.
      rewrite (Hdec f) by lia. reflexivity.
    + destruct (is_high_surrogate c) eqn:Hhi.
      * destruct s1 as [| d s2]; [discriminate |].
        apply andb_prop in Hs. destruct Hs as [Hlo Hs2]. rewrite Hlo.
        apply surrogate_ranges in Hhi. pose proof Hlo as Hlo'.
        apply surrogate_ranges in Hlo'.
        cbn [List.length] in Hlen.
        destruct (IH s2 ltac:(lia) Hs2) as [e [He [Hasc [Hle Hdec]]]].
        rewrite He. cbn [app_some].
        assert (Hcp : 65536 <= pair_code_point c d < 1114112)
          by (unfold pair_code_point; lia).
        destruct (decode_uri_code_point 0 (pair_code_point c d) [] ltac:(lia) ltac:(lia))
          as [_ [Hasc' Hlen']].
        eexists. split; [reflexivity |].
        split; [rewrite forallb_app, Hasc', Hasc; reflexivity |].
        split; [rewrite length_app; cbn [List.length]; lia |].
        intros f Hf. rewrite length_app in Hf. destruct f as [| f]; [lia |].
        destruct (decode_uri_code_point f (pair_code_point c d) e ltac:(lia) ltac:(lia))
          as [Hstep _].
        rewrite Hstep. rewrite (Hdec f) by lia. cbn [app_some].
        unfold utf16_encode. destruct (Z.ltb_spec (pair_code_point c d) 65536); [lia |].
        unfold pair_code_point. cbn [List.app]. do 3 f_equal; zlia.
      * apply andb_prop in Hs. destruct Hs as [Hs Hs1].
        apply andb_prop in Hs. destruct Hs as [Hc Hlo].
        apply negb_true_iff in Hlo. rewrite Hlo.
        apply code_unit_range in Hc.
        assert (Hh : ~ 55296 <= c <= 56319).
        { intros H. apply surrogate_ranges in H. congruence. }
        assert (Hl : ~ 56320 <= c <= 57343).
        { intros H. apply surrogate_ranges in H. congruence. }
        destruct (IH s1 ltac:(lia) Hs1) as [e [He [Hasc [Hle Hdec]]]].
        rewrite He. cbn [app_some].
        destruct (decode_uri_code_point 0 c [] ltac:(lia) ltac:(lia))
          as [_ [Hasc' Hlen']].
        eexists. split; [reflexivity |].
        split; [rewrite forallb_app, Hasc', Hasc; reflexivity |].
        split; [rewrite length_app; cbn [List.length]; lia |].
        intros f Hf. rewrite length_app in Hf. destruct f as [| f]; [lia |].
        destruct (decode_uri_code_point f c e ltac:(lia) ltac:(lia)) as [Hstep _].
        rewrite Hstep. rewrite (Hdec f) by lia. cbn [app_some].
        unfold utf16_encode. destruct (Z.ltb_spec c 65536); [reflexivity | lia].
Qed.

Lemma decodeURIComponent_encodeURIComponent (s : jstring) :
  scalar s = true ->
  exists e,
    encodeURIComponent s = Some e
    /\ forallb is_ascii e = true
    /\ (List.length s <= List.length e)%nat
    /\ decodeURIComponent e = Some s.
Proof.
  intros Hs.
  destruct (decode_encode_uri (List.length s) s (Nat.le_refl _) Hs)
    as [e [He [Hasc [Hle Hdec]]]].
  exists e. repeat split; try assumption.
  unfold decodeURIComponent. apply Hdec. lia.
Qed.

(* ------------------------------------------------------------------ *)
(** ** The text of [JSON.stringify] is a scalar-value string *)

Lemma scalar_plain (c : Z) (s : jstring) :
  0 <= c < 65536 -> ~ (55296 <= c <= 57343) ->
  scalar (c :: s) = scalar s.
Proof.
  intros Hc Hs. cbn [scalar]. unfold is_high_surrogate, is_low_surrogate, code_unit.
  zcases; try reflexivity; lia.
Qed.

Lemma scalar_ascii_app (a s : jstring) :
  forallb is_ascii a = true -> scalar (a ++ s) = scalar s.
Proof.
  induction a as [| c a IH]; [reflexivity |].
  cbn [forallb]. intros H. apply andb_prop in H. destruct H as [Hc Ha].
  apply is_ascii_range in Hc. cbn [List.app].
  rewrite scalar_plain by lia. apply IH. exact Ha.
Qed.

Lemma scalar_app (n : nat) :
  forall a b : jstring,
    (List.length a <= n)%nat ->
    scalar a = true -> scalar b = true -> scalar (a ++ b) = true.
Proof.
  induction n as [| n IH]; intros a b Hlen Ha Hb.
  - destruct a; [exact Hb | cbn in Hlen; lia].
  - destruct a as [| c a1]; [exact Hb |].
    cbn [List.length] in Hlen. cbn [scalar List.app] in *.
    destruct (is_high_surrogate c).
    + destruct a1 as [| d a2]; [discriminate |].
      apply andb_prop in Ha. destruct Ha as [Hd Ha2].
      cbn [List.app]. rewrite Hd. cbn [andb].
      apply IH; [cbn [List.length] in Hlen; lia | exact Ha2 | exact Hb].
    + apply andb_prop in Ha. destruct Ha as [Hc Ha1]. rewrite Hc. cbn [andb].
      apply IH; [lia | exact Ha1 | exact Hb].
Qed.

Lemma scalar_append (a b : jstring) :
  scalar a = true -> scalar b = true -> scalar (a ++ b) = true.
Proof. apply (scalar_app (List.length a)). lia. Qed.

Lemma hex_lower_ascii (d : Z) : 0 <= d < 16 -> is_ascii (hex_lower d) = true.
Proof. intros Hd. apply is_ascii_range. unfold hex_lower. zcases; lia. Qed.

Lemma unicode_escape_ascii (c : Z) :
  0 <= c < 65536 -> forallb is_ascii (unicode_escape c) = true.
Proof.
  intros Hc. unfold unicode_escape. cbn [forallb].
  rewrite !hex_lower_ascii by zlia. reflexivity.
Qed.

Lemma scalar_quote_unit (c : Z) (s : jstring) :
  0 <= c < 65536 -> is_high_surrogate c = false ->
  scalar (quote_unit c ++ s) = scalar s.
Proof.
  intros Hc Hhi. unfold quote_unit.
  destruct (c =? 8); [reflexivity |].
  destruct (c =? 9); [reflexivity |].
  destruct (c =? 10); [reflexivity |].
  destruct (c =? 12); [reflexivity |].
  destruct (c =? 13); [reflexivity |].
  destruct (c =? 34); [reflexivity |].
  destruct (c =? 92); [reflexivity |].
  rewrite Hhi, orb_false_r.
  destruct ((c <? 32) || is_low_surrogate c) eqn:E.
  - apply scalar_ascii_app, unicode_escape_ascii, Hc.
  - apply orb_false_elim in E. destruct E as [_ Hlo].
    cbn [List.app]. apply scalar_plain; [exact Hc |].
    intros H.
    assert (Hcases : 55296 <= c <= 56319 \/ 56320 <= c <= 57343) by lia.
    destruct Hcases as [H' | H']; apply surrogate_ranges in H'; congruence.
Qed.

Lemma scalar_quote_chars (n : nat) :
  forall s : jstring,
    (List.length s <= n)%nat -> well_formed s = true -> scalar (quote_chars s) = true.
Proof.
  induction n as [| n IH]; intros s Hlen Hwf.
  - destruct s; [reflexivity | cbn in Hlen; lia].
  - destruct s as [| c s1]; [reflexivity |].
    cbn [List.length] in Hlen.
    cbn [well_formed forallb] in Hwf. apply andb_prop in Hwf. destruct Hwf as [Hc Hwf1].
    apply code_unit_range in Hc. cbn [quote_chars].
    destruct (is_high_surrogate c) eqn:Hhi.
    + destruct s1 as [| d s2].
      * rewrite <- (app_nil_r (unicode_escape c)).
        rewrite scalar_ascii_app by (apply unicode_escape_ascii; exact Hc). reflexivity.
      * destruct (is_low_surrogate d) eqn:Hlo.
        -- cbn [scalar]. rewrite Hhi, Hlo. cbn [andb].
           cbn [well_formed forallb] in Hwf1. apply andb_prop in Hwf1.
           apply IH; [cbn [List.length] in Hlen; lia | tauto].
        -- rewrite scalar_ascii_app by (apply unicode_escape_ascii; exact Hc).
           apply IH; [lia | exact Hwf1].
    + rewrite scalar_quote_unit by assumption. apply IH; [lia | exact Hwf1].
Qed.

Lemma scalar_QuoteJSONString (s : jstring) :
  well_formed s = true -> scalar (QuoteJSONString s) = true.
Proof.
  intros Hwf. unfold QuoteJSONString.
  change (34 :: quote_chars s ++ [34]) with ([34] ++ quote_chars s ++ [34]).
  rewrite scalar_ascii_app by reflexivity.
  apply scalar_append; [| reflexivity].
  apply (scalar_quote_chars (List.length s)); [lia | exact Hwf].
Qed.

Lemma scalar_join_all (parts : list (option jstring)) (body : jstring) :
  Forall (fun p => forall t, p = Some t -> scalar t = true) parts ->
  join_all 44 parts = Some body ->
  scalar body = true.
Proof.
  revert body. induction parts as [| x rest IH]; intros body Hall Hbody.
  - cbn in Hbody. injection Hbody as <-. reflexivity.
  - inversion Hall as [| ? ? Hx Hrest]; subst.
    apply join_all_cons in Hbody. destruct Hbody as [tx [-> Hr]].
    destruct rest as [| y rest'].
    + subst body. apply Hx. reflexivity.
    + destruct Hr as [tb [Htb ->]].
      apply scalar_append; [apply Hx; reflexivity |].
      change (44 :: tb) with ([44] ++ tb). rewrite scalar_ascii_app by reflexivity.
      apply IH; assumption.
Qed.

Lemma scalar_serialize (v : JSON) :
  shareable v = true -> forall text, serialize v = Some text -> scalar text = true.
Proof.
  induction v as [| b | literal | s | items IH | props IH] using JSON_induction;
    intros Hsh text Htext.
  - cbn in Htext. injection Htext as <-. reflexivity.
  - destruct b; cbn in Htext; injection Htext as <-; reflexivity.
  - discriminate.
  - cbn [serialize] in Htext. injection Htext as <-.
    apply scalar_QuoteJSONString. exact Hsh.
  - cbn [serialize] in Htext. cbn [shareable] in Hsh.
    destruct (join_all 44 (map serialize items)) as [body |] eqn:Hbody; [| discriminate].
    cbn [option_map] in Htext. injection Htext as <-.
    change (91 :: body ++ [93]) with ([91] ++ body ++ [93]).
    rewrite scalar_ascii_app by reflexivity.
    apply scalar_append; [| reflexivity].
    apply (scalar_join_all (map serialize items)); [| exact Hbody].
    clear Hbody. induction items as [| x l IHl]; [constructor |].
    inversion IH as [| ? ? Hx Hl]; subst.
    cbn [forallb] in Hsh. apply andb_prop in Hsh. destruct Hsh as [Hshx Hshl].
    cbn [map]. constructor; [intros t Ht; apply (Hx Hshx t Ht) | apply IHl; assumption].
  - cbn [serialize] in Htext. cbn [shareable] in Hsh.
    apply andb_prop in Hsh. destruct Hsh as [Hsh Hvals].
    apply andb_prop in Hsh. destruct Hsh as [Hplain _].
    fold (member_parts props) in Htext.
    destruct (join_all 44 (member_parts props)) as [body |] eqn:Hbody; [| discriminate].
    cbn [option_map] in Htext. injection Htext as <-.
    change (123 :: body ++ [125]) with ([123] ++ body ++ [125]).
    rewrite scalar_ascii_app by reflexivity.
    apply scalar_append; [| reflexivity].
    apply (scalar_join_all (member_parts props)); [| exact Hbody].
    clear Hbody. induction props as [| [k x] l IHl]; [constructor |].
    inversion IH as [| ? ? Hx Hl]; subst. cbn [snd] in Hx.
    cbn [forallb snd] in Hvals. apply andb_prop in Hvals. destruct Hvals as [Hshx Hshl].
    cbn [map fst forallb] in Hplain. apply andb_prop in Hplain.
    destruct Hplain as [Hk Hpl].
    cbn [member_parts map fst snd]. constructor; [| apply IHl; assumption].
    intros t Ht. apply member_text_shape in Ht. destruct Ht as [tv [Htv ->]].
    replace (34 :: quote_chars k ++ [34] ++ 58 :: tv)
      with (QuoteJSONString k ++ [58] ++ tv)
      by (unfold QuoteJSONString; cbn [List.app]; rewrite <- app_assoc; reflexivity).
    apply scalar_append.
    + apply scalar_QuoteJSONString. unfold plain_key in Hk. apply andb_prop in Hk. tauto.
    + rewrite scalar_ascii_app by reflexivity. apply (Hx Hshx tv Htv).
Qed.

(* ================================================================== *)
(** * [atob] after [btoa] *)
(* ================================================================== *)

(** Induction on a list, three elements at a time. *)
Lemma list_triple_induction {A : Type} (P : list A -> Prop) :
  P [] ->
  (forall a, P [a]) ->
  (forall a b, P [a; b]) ->
  (forall a b c l, P l -> P (a :: b :: c :: l)) ->
  forall l, P l.
Proof.
  intros H0 H1 H2 H3 l.
  assert (H : P l /\ (forall a, P (a :: l)) /\ (forall a b, P (a :: b :: l))).
  { induction l as [| x l [IH0 [IH1 IH2]]].
    - auto.
    - split; [apply IH1 |]. split; [intros a; apply IH2 |].
      intros a b. apply H3. exact IH0. }
  apply H.
Qed.

Lemma b64_encode_shape (s : jstring) :
  b64_encode s = map b64_char (b64_sextets s) ++ repeat 61 (b64_padding s).
Proof.
  induction s as [| a | a b | a b c l IH] using list_triple_induction;
    try reflexivity.
  cbn [b64_encode b64_sextets b64_padding map List.app]. rewrite IH. reflexivity.
Qed.

Lemma b64_sextets_range (s : jstring) :
  forallb is_latin1 s = true ->
  Forall (fun x => 0 <= x < 64) (b64_sextets s).
Proof.
  unfold is_latin1.
  induction s as [| a | a b | a b c l IH] using list_triple_induction;
    cbn [forallb b64_sextets]; intros H.
  - constructor.
  - repeat constructor; zlia.
  - repeat constructor; zlia.
  - assert (Hl : forallb (fun c0 => (0 <=? c0) && (c0 <=? 255)) l = true).
    { do 3 (apply andb_prop in H; destruct H as [_ H]). exact H. }
    assert (Ha : 0 <= a < 256 /\ 0 <= b < 256 /\ 0 <= c < 256).
    { apply andb_prop in H. destruct H as [Ha H].
      apply andb_prop in H. destruct H as [Hb H].
      apply andb_prop in H. destruct H as [Hc _]. lia. }
    repeat (constructor; [zlia |]). apply IH. exact Hl.
Qed.

Lemma b64_sextets_count (s : jstring) :
  ((List.length (b64_sextets s) + b64_padding s) mod 4 = 0)%nat
  /\ (b64_padding s <= 2)%nat
  /\ (b64_sextets s = [] -> b64_padding s = 0%nat).
Proof.
  induction s as [| a | a b | a b c l IH] using list_triple_induction.
  - split; [reflexivity |]. split; [cbn; lia | reflexivity].
  - split; [reflexivity |]. split; [cbn; lia | discriminate].
  - split; [reflexivity |]. split; [cbn; lia | discriminate].
  - cbn [b64_sextets b64_padding List.length]. destruct IH as [H1 [H2 _]].
    split; [| split; [exact H2 | discriminate]].
    replace (S (S (S (S (List.length (b64_sextets l))))) + b64_padding l)%nat
      with (List.length (b64_sextets l) + b64_padding l + 1 * 4)%nat by lia.
    rewrite Nat.Div0.mod_add. exact H1.
Qed.

Lemma b64_decode_sextets (s : jstring) :
  forallb is_latin1 s = true -> b64_decode (b64_sextets s) = s.
Proof.
  unfold is_latin1.
  induction s as [| a | a b | a b c l IH] using list_triple_induction;
    cbn [forallb b64_sextets b64_decode]; intros H.
  - reflexivity.
  - assert (Ha : 0 <= a < 256) by lia. f_equal. zlia.
  - assert (Ha : 0 <= a < 256 /\ 0 <= b < 256) by lia.
    f_equal; [zlia |]. f_equal. zlia.
  - assert (Hl : forallb (fun c0 => (0 <=? c0) && (c0 <=? 255)) l = true).
    { do 3 (apply andb_prop in H; destruct H as [_ H]). exact H. }
    assert (Ha : 0 <= a < 256 /\ 0 <= b < 256 /\ 0 <= c < 256).
    { apply andb_prop in H. destruct H as [Ha H].
      apply andb_prop in H. destruct H as [Hb H].
      apply andb_prop in H. destruct H as [Hc _]. lia. }
    rewrite (IH Hl). f_equal; [zlia |]. f_equal; [zlia |]. f_equal. zlia.
Qed.

Lemma b64_value_char (x : Z) : 0 <= x < 64 -> b64_value (b64_char x) = Some x.
Proof.
  intros Hx. unfold b64_char, b64_value.
  destruct (Z.ltb_spec x 26); [zcases; try lia; f_equal; lia |].
  destruct (Z.ltb_spec x 52); [zcases; try lia; f_equal; lia |].
  destruct (Z.ltb_spec x 62); [zcases; try lia; f_equal; lia |].
  destruct (Z.eqb_spec x 62); [subst x; reflexivity |].
  assert (x = 63) by lia. subst x. reflexivity.
Qed.

Lemma b64_values_chars (v : list Z) :
  Forall (fun x => 0 <= x < 64) v -> b64_values (map b64_char v) = Some v.
Proof.
  induction 1 as [| x v Hx _ IH]; [reflexivity |].
  cbn [map b64_values]. rewrite (b64_value_char x Hx), IH. reflexivity.
Qed.

Lemma b64_char_output (x : Z) :
  0 <= x < 64 -> b64_output (b64_char x) = true /\ b64_char x <> 61.
Proof.
  intros Hx. unfold b64_output, is_alnum, is_digit, b64_char.
  destruct (Z.ltb_spec x 26); [split; lia |].
  destruct (Z.ltb_spec x 52); [split; lia |].
  destruct (Z.ltb_spec x 62); [split; lia |].
  destruct (Z.eqb_spec x 62); split; try reflexivity; lia.
Qed.

Lemma b64_encode_output (s : jstring) :
  forallb is_latin1 s = true -> forallb b64_output (b64_encode s) = true.
Proof.
  intros H. rewrite b64_encode_shape, forallb_app.
  apply andb_true_intro. split.
  - pose proof (b64_sextets_range s H) as Hr.
    induction Hr as [| x v Hx _ IH]; [reflexivity |].
    cbn [map forallb]. rewrite IH. destruct (b64_char_output x Hx) as [-> _]. reflexivity.
  - induction (b64_padding s); [reflexivity | cbn [repeat forallb]; assumption].
Qed.

Lemma filter_all {A : Type} (f : A -> bool) (l : list A) :
  forallb f l = true -> filter f l = l.
Proof.
  induction l as [| x l IH]; [reflexivity |].
  cbn [forallb filter]. intros H. apply andb_prop in H. destruct H as [-> Hl].
  rewrite (IH Hl). reflexivity.
Qed.

Lemma forallb_weaken {A : Type} (f g : A -> bool) (l : list A) :
  (forall x, f x = true -> g x = true) -> forallb f l = true -> forallb g l = true.
Proof.
  intros Hfg. induction l as [| x l IH]; [reflexivity |].
  cbn [forallb]. intros H. apply andb_prop in H. destruct H as [Hx Hl].
  rewrite (Hfg x Hx), (IH Hl). reflexivity.
Qed.

Lemma strip_padding_encoded (v : list Z) (k : nat) :
  Forall (fun x => 0 <= x < 64) v ->
  (k <= 2)%nat ->
  (v = [] -> k = 0%nat) ->
  strip_padding (map b64_char v ++ repeat 61 k) = map b64_char v.
Proof.
  intros Hv Hk Hempty. unfold strip_padding.
  rewrite rev_app_distr, rev_repeat.
  assert (Hlast : forall e r, rev (map b64_char v) = e :: r -> e <> 61).
  { intros e r Hr.
    assert (Hin : In e (map b64_char v)) by (apply in_rev; rewrite Hr; left; reflexivity).
    apply in_map_iff in Hin. destruct Hin as [x [<- Hx]].
    rewrite Forall_forall in Hv. apply (b64_char_output x (Hv x Hx)). }
  destruct k as [| [| [| k]]]; [| | | lia]; cbn [repeat List.app].
  - destruct (rev (map b64_char v)) as [| e1 r] eqn:Hr.
    + rewrite app_nil_r. reflexivity.
    + pose proof (Hlast e1 r eq_refl) as He1.
      destruct r as [| e2 r']; destruct (Z.eqb_spec e1 61); try contradiction;
        rewrite app_nil_r; reflexivity.
  - destruct (rev (map b64_char v)) as [| e2 r] eqn:Hr.
    + destruct v; [specialize (Hempty eq_refl); discriminate |].
      apply (f_equal (@List.length Z)) in Hr. rewrite length_rev in Hr. discriminate.
    + pose proof (Hlast e2 r eq_refl) as He2.
      change (61 =? 61) with true. cbv iota.
      destruct (Z.eqb_spec e2 61); [contradiction |].
      rewrite <- Hr, rev_involutive. reflexivity.
  - change (61 =? 61) with true. cbv iota.
    apply rev_involutive.
Qed.

(** [atob(btoa(s))] is [s], and [btoa] accepts every string of code units
    below 256. *)
Lemma atob_btoa (s : jstring) :
  forallb is_latin1 s = true ->
  btoa s = Some (b64_encode s) /\ atob (b64_encode s) = Some s.
Proof.
  intros H. unfold btoa. rewrite H. split; [reflexivity |].
  unfold atob.
  assert (Hws : forallb (fun c => negb (is_ascii_ws c)) (b64_encode s) = true).
  { apply (forallb_weaken b64_output); [| apply b64_encode_output; exact H].
    intros c Hc. unfold b64_output, is_alnum, is_digit in Hc. unfold is_ascii_ws. lia. }
  rewrite (filter_all _ _ Hws).
  destruct (b64_sextets_count s) as [Hmod [Hpad Hempty]].
  pose proof (b64_sextets_range s H) as Hr.
  rewrite b64_encode_shape.
  assert (Hlen : Z.of_nat (List.length (map b64_char (b64_sextets s)
                                        ++ repeat 61 (b64_padding s))) mod 4 = 0).
  { rewrite length_app, length_map, repeat_length.
    apply Nat.Div0.mod_divides in Hmod. destruct Hmod as [q ->].
    rewrite Nat2Z.inj_mul. rewrite Z.mul_comm. apply Z.mod_mul. lia. }
  rewrite Hlen. change (0 =? 0) with true. cbv iota.
  rewrite (strip_padding_encoded _ _ Hr Hpad Hempty).
  assert (Hne : (Z.of_nat (List.length (map b64_char (b64_sextets s))) mod 4 =? 1) = false).
  { rewrite length_map. apply Z.eqb_neq.
    assert (Hn : ((List.length (b64_sextets s) + b64_padding s) mod 4 = 0)%nat) by exact Hmod.
    apply Nat.Div0.mod_divides in Hn. destruct Hn as [q Hq].
    intros Habs.
    assert (Z.of_nat (List.length (b64_sextets s)) = 4 * Z.of_nat q - Z.of_nat (b64_padding s))
      by lia.
    zlia. }
  rewrite Hne. rewrite (b64_values_chars _ Hr). cbn [option_map].
  rewrite (b64_decode_sextets s H). reflexivity.
Qed.

(* ================================================================== *)
(** * Reading the parameter back from the address *)
(* ================================================================== *)

Lemma utf8_encode_ascii (s : jstring) :
  forallb is_ascii s = true -> utf8_encode s = s.
Proof.
  induction s as [| c s IH]; [reflexivity |].
  cbn [forallb]. intros H. apply andb_prop in H. destruct H as [Hc Hs].
  apply is_ascii_range in Hc. cbn [utf8_encode].
  assert (Hh : is_high_surrogate c = false) by (unfold is_high_surrogate; lia).
  assert (Hl : is_low_surrogate c = false) by (unfold is_low_surrogate; lia).
  rewrite Hh, Hl. unfold utf8_octets.
  destruct (Z.ltb_spec c 128); [| lia].
  cbn [List.app]. rewrite (IH Hs). reflexivity.
Qed.

Lemma utf8_decode_ascii (s : jstring) :
  forallb is_ascii s = true -> utf8_decode s = s.
Proof.
  unfold utf8_decode.
  induction s as [| c s IH]; [reflexivity |].
  cbn [forallb]. intros H. apply andb_prop in H. destruct H as [Hc Hs].
  apply is_ascii_range in Hc. cbn [utf8_decode_from].
  unfold utf8_step. cbn [u_needed utf8_idle]. unfold utf8_first.
  assert (Hr : (0 <=? c) && (c <=? 127) = true) by lia. rewrite Hr.
  cbn [List.app flat_map]. rewrite (IH Hs).
  unfold utf16_encode. destruct (Z.ltb_spec c 65536); [reflexivity | lia].
Qed.

Lemma split_on_absent (sep : Z) (s : jstring) :
  forallb (fun c => negb (c =? sep)) s = true -> split_on sep s = [s].
Proof.
  induction s as [| c s IH]; [reflexivity |].
  cbn [forallb split_on]. intros H. apply andb_prop in H. destruct H as [Hc Hs].
  apply negb_true_iff in Hc. rewrite Hc, (IH Hs). reflexivity.
Qed.

Lemma split_pair_at_equals (n v : list Z) :
  forallb (fun c => negb (c =? 61)) n = true ->
  split_pair (n ++ 61 :: v) = (n, v).
Proof.
  induction n as [| c n IH]; [reflexivity |].
  cbn [forallb split_pair List.app]. intros H. apply andb_prop in H.
  destruct H as [Hc Hn]. apply negb_true_iff in Hc. rewrite Hc, (IH Hn). reflexivity.
Qed.

Lemma url_plain_facts (c : Z) :
  url_plain c = true ->
  is_ascii c = true /\ c <> 37 /\ c <> 38 /\ c <> 43.
Proof. unfold url_plain, is_ascii. intros H. repeat split; lia. Qed.

Lemma percent_decode_plain (s : list Z) :
  forallb url_plain s = true -> percent_decode s = s.
Proof.
  induction s as [| c s IH]; [reflexivity |].
  cbn [forallb percent_decode]. intros H. apply andb_prop in H. destruct H as [Hc Hs].
  destruct (url_plain_facts c Hc) as [_ [H37 _]].
  destruct (Z.eqb_spec c 37); [contradiction |].
  rewrite (IH Hs). reflexivity.
Qed.

Lemma plus_to_space_plain (s : list Z) :
  forallb url_plain s = true -> plus_to_space s = s.
Proof.
  unfold plus_to_space.
  induction s as [| c s IH]; [reflexivity |].
  cbn [forallb map]. intros H. apply andb_prop in H. destruct H as [Hc Hs].
  destruct (url_plain_facts c Hc) as [_ [_ [_ H43]]].
  destruct (Z.eqb_spec c 43); [contradiction |].
  rewrite (IH Hs). reflexivity.
Qed.

Lemma urlencoded_string_plain (s : list Z) :
  forallb url_plain s = true -> urlencoded_string s = s.
Proof.
  intros H. unfold urlencoded_string.
  rewrite (plus_to_space_plain s H), (percent_decode_plain s H).
  apply utf8_decode_ascii.
  apply (forallb_weaken url_plain); [| exact H].
  intros c Hc. apply url_plain_facts. exact Hc.
Qed.

Lemma URLSearchParams_get_query (q name : jstring) :
  URLSearchParams_get (63 :: q) name
  = first_value name (urlencoded_parse (utf8_encode q)).
Proof. reflexivity. Qed.

Lemma urlencoded_parse_pair (c : Z) (n v : list Z) :
  forallb url_plain (c :: n) = true ->
  forallb (fun x => negb (x =? 61)) (c :: n) = true ->
  forallb url_plain v = true ->
  urlencoded_parse ((c :: n) ++ 61 :: v) = [(c :: n, v)].
Proof.
  intros Hn H61 Hv.
  assert (Hplain : forallb url_plain ((c :: n) ++ 61 :: v) = true).
  { rewrite forallb_app. rewrite Hn. cbn [forallb]. rewrite Hv. reflexivity. }
  unfold urlencoded_parse.
  rewrite split_on_absent
    by (apply (forallb_weaken url_plain);
        [intros x Hx; destruct (url_plain_facts x Hx) as [_ [_ [H38 _]]];
         apply negb_true_iff, Z.eqb_neq; exact H38
        | exact Hplain]).
  cbn [flat_map]. rewrite app_nil_r.
  rewrite (split_pair_at_equals (c :: n) v H61).
  cbn [List.app].
  rewrite (urlencoded_string_plain (c :: n) Hn), (urlencoded_string_plain v Hv).
  reflexivity.
Qed.

(** A parameter value made of plain characters is read back as it is
    from the query [?simulation=value]. *)
Lemma URLSearchParams_get_simulation (v : jstring) :
  forallb url_plain v = true ->
  URLSearchParams_get (lit "?simulation=" ++ v) (lit "simulation") = Some v.
Proof.
  intros Hv.
  change (lit "?simulation=" ++ v) with (63 :: (lit "simulation" ++ 61 :: v)).
  rewrite URLSearchParams_get_query.
  assert (Hplain : forallb url_plain (lit "simulation" ++ 61 :: v) = true).
  { rewrite forallb_app. cbn [forallb]. rewrite Hv. reflexivity. }
  rewrite utf8_encode_ascii
    by (apply (forallb_weaken url_plain); [intros c Hc; apply url_plain_facts; exact Hc
                                           | exact Hplain]).
  change (lit "simulation") with (115 :: lit "imulation") at 2.
  rewrite urlencoded_parse_pair by (try exact Hv; reflexivity).
  reflexivity.
Qed.

Lemma b64_plain (s : jstring) :
  forallb b64_output s = true -> has_plus s = false -> forallb url_plain s = true.
Proof.
  unfold has_plus.
  induction s as [| c s IH]; [reflexivity |].
  cbn [forallb existsb]. intros H Hp. apply andb_prop in H. destruct H as [Hc Hs].
  apply orb_false_elim in Hp. destruct Hp as [Hc43 Hp].
  rewrite (IH Hs Hp), andb_true_r.
  unfold b64_output, is_alnum, is_digit in Hc. unfold url_plain. lia.
Qed.

Lemma b64_encode_nonempty (a : Z) (s : jstring) :
  exists c rest, b64_encode (a :: s) = c :: rest.
Proof. destruct s as [| b [| c l]]; cbn [b64_encode]; eauto. Qed.

(* ================================================================== *)
(** * Where a plus sign in the parameter comes from *)
(* ================================================================== *)

Lemma without_app (sep : Z) (a b : jstring) :
  without sep (a ++ b) = without sep a && without sep b.
Proof. apply forallb_app. Qed.

Lemma hex_lower_tilde (d : Z) : 0 <= d < 16 -> negb (hex_lower d =? 126) = true.
Proof.
  intros Hd. apply negb_true_iff, Z.eqb_neq. unfold hex_lower.
  destruct (Z.ltb_spec d 10); lia.
Qed.

Lemma unicode_escape_tilde (c : Z) :
  0 <= c < 65536 -> without 126 (unicode_escape c) = true.
Proof.
  intros Hc. unfold unicode_escape, without. cbn [forallb].
  rewrite !hex_lower_tilde by zlia. reflexivity.
Qed.

Lemma quote_unit_tilde (c : Z) :
  0 <= c < 65536 -> c <> 126 -> without 126 (quote_unit c) = true.
Proof.
  intros Hc Hne. unfold quote_unit.
  destruct (c =? 8); [reflexivity |].
  destruct (c =? 9); [reflexivity |].
  destruct (c =? 10); [reflexivity |].
  destruct (c =? 12); [reflexivity |].
  destruct (c =? 13); [reflexivity |].
  destruct (c =? 34); [reflexivity |].
  destruct (c =? 92); [reflexivity |].
  destruct ((c <? 32) || is_high_surrogate c || is_low_surrogate c).
  - apply unicode_escape_tilde, Hc.
  - unfold without. cbn [forallb]. apply Z.eqb_neq in Hne. rewrite Hne. reflexivity.
Qed.

Lemma without_cons (sep c : Z) (s : jstring) :
  without sep (c :: s) = true <-> c <> sep /\ without sep s = true.
Proof.
  unfold without. cbn [forallb]. rewrite andb_true_iff, negb_true_iff, Z.eqb_neq.
  reflexivity.
Qed.

Lemma quote_chars_tilde (n : nat) :
  forall s : jstring,
    (List.length s <= n)%nat -> well_formed s = true -> without 126 s = true ->
    without 126 (quote_chars s) = true.
Proof.
  induction n as [| n IH]; intros s Hlen Hwf Hs.
  - destruct s; [reflexivity | cbn in Hlen; lia].
  - destruct s as [| c s1]; [reflexivity |].
    cbn [List.length] in Hlen.
    cbn [well_formed forallb] in Hwf. apply andb_prop in Hwf. destruct Hwf as [Hc Hwf1].
    apply code_unit_range in Hc.
    apply without_cons in Hs. destruct Hs as [Hc126 Hs1].
    cbn [quote_chars]. destruct (is_high_surrogate c).
    + destruct s1 as [| d s2]; [apply unicode_escape_tilde, Hc |].
      destruct (is_low_surrogate d).
      * apply without_cons in Hs1. destruct Hs1 as [Hd126 Hs2].
        cbn [well_formed forallb] in Hwf1. apply andb_prop in Hwf1.
        destruct Hwf1 as [_ Hwf2].
        apply without_cons. split; [exact Hc126 |].
        apply without_cons. split; [exact Hd126 |].
        apply IH; [cbn [List.length] in Hlen; lia | exact Hwf2 | exact Hs2].
      * rewrite without_app, (unicode_escape_tilde c Hc).
        apply IH; [lia | exact Hwf1 | exact Hs1].
    + rewrite without_app, (quote_unit_tilde c Hc Hc126).
      apply IH; [lia | exact Hwf1 | exact Hs1].
Qed.

Lemma QuoteJSONString_tilde (s : jstring) :
  well_formed s = true -> without 126 s = true ->
  without 126 (QuoteJSONString s) = true.
Proof.
  intros Hwf Hs. unfold QuoteJSONString.
  apply without_cons. split; [discriminate |].
  rewrite without_app, (quote_chars_tilde (List.length s) s (Nat.le_refl _) Hwf Hs).
  reflexivity.
Qed.

Lemma join_all_tilde (parts : list (option jstring)) (body : jstring) :
  Forall (fun p => forall t, p = Some t -> without 126 t = true) parts ->
  join_all 44 parts = Some body ->
  without 126 body = true.
Proof.
  revert body. induction parts as [| x rest IH]; intros body Hall Hbody.
  - cbn in Hbody. injection Hbody as <-. reflexivity.
  - inversion Hall as [| ? ? Hx Hrest]; subst.
    apply join_all_cons in Hbody. destruct Hbody as [tx [-> Hr]].
    destruct rest as [| y rest'].
    + subst body. apply Hx. reflexivity.
    + destruct Hr as [tb [Htb ->]].
      rewrite without_app, (Hx tx eq_refl).
      apply without_cons. split; [discriminate |].
      apply IH; assumption.
Qed.

(** The text of a value without tildes holds no tilde. *)
Lemma serialize_tilde (v : JSON) :
  shareable v = true -> tilde_free v = true ->
  forall text, serialize v = Some text -> without 126 text = true.
Proof.
  induction v as [| b | literal | s | items IH | props IH] using JSON_induction;
    intros Hsh Htf text Htext.
  - cbn in Htext. injection Htext as <-. reflexivity.
  - destruct b; cbn in Htext; injection Htext as <-; reflexivity.
  - discriminate.
  - cbn [serialize] in Htext. injection Htext as <-.
    apply QuoteJSONString_tilde; [exact Hsh | exact Htf].
  - cbn [serialize] in Htext. cbn [shareable] in Hsh. cbn [tilde_free] in Htf.
    destruct (join_all 44 (map serialize items)) as [body |] eqn:Hbody; [| discriminate].
    cbn [option_map] in Htext. injection Htext as <-.
    apply without_cons. split; [discriminate |].
    rewrite without_app.
    rewrite (join_all_tilde (map serialize items) body); [reflexivity | | exact Hbody].
    clear Hbody. induction items as [| x l IHl]; [constructor |].
    inversion IH as [| ? ? Hx Hl]; subst.
    cbn [forallb] in Hsh, Htf.
    apply andb_prop in Hsh. destruct Hsh as [Hshx Hshl].
    apply andb_prop in Htf. destruct Htf as [Htfx Htfl].
    cbn [map]. constructor; [intros t Ht; apply (Hx Hshx Htfx t Ht) | apply IHl; assumption].
  - cbn [serialize] in Htext. cbn [shareable] in Hsh. cbn [tilde_free] in Htf.
    apply andb_prop in Hsh. destruct Hsh as [Hsh Hvals].
    apply andb_prop in Hsh. destruct Hsh as [Hplain _].
    fold (member_parts props) in Htext.
    destruct (join_all 44 (member_parts props)) as [body |] eqn:Hbody; [| discriminate].
    cbn [option_map] in Htext. injection Htext as <-.
    apply without_cons. split; [discriminate |].
    rewrite without_app.
    rewrite (join_all_tilde (member_parts props) body); [reflexivity | | exact Hbody].
    clear Hbody. induction props as [| [k x] l IHl]; [constructor |].
    inversion IH as [| ? ? Hx Hl]; subst. cbn [snd] in Hx.
    cbn [forallb fst snd] in Hvals, Htf.
    apply andb_prop in Hvals. destruct Hvals as [Hshx Hshl].
    apply andb_prop in Htf. destruct Htf as [Htfx Htfl].
    apply andb_prop in Htfx. destruct Htfx as [Hk126 Htfx].
    cbn [map fst forallb] in Hplain. apply andb_prop in Hplain.
    destruct Hplain as [Hk Hpl].
    cbn [member_parts map fst snd]. constructor; [| apply IHl; assumption].
    intros t Ht. apply member_text_shape in Ht. destruct Ht as [tv [Htv ->]].
    replace (34 :: quote_chars k ++ [34] ++ 58 :: tv)
      with (QuoteJSONString k ++ [58] ++ tv)
      by (unfold QuoteJSONString; cbn [List.app]; rewrite <- app_assoc; reflexivity).
    rewrite without_app, QuoteJSONString_tilde;
      [| unfold plain_key in Hk; apply andb_prop in Hk; tauto | exact Hk126].
    apply without_cons. split; [discriminate |]. apply (Hx Hshx Htfx tv Htv).
Qed.

Lemma b64_safe_unreserved (c : Z) :
  uri_unreserved c = true -> c <> 126 -> b64_safe c = true.
Proof.
  unfold uri_unreserved, is_alnum, is_digit, b64_safe, is_ascii. intros H Hne. lia.
Qed.

Lemma hex_upper_safe (d : Z) : 0 <= d < 16 -> b64_safe (hex_upper d) = true.
Proof.
  intros Hd. unfold b64_safe, is_ascii, hex_upper. destruct (Z.ltb_spec d 10); lia.
Qed.

Lemma percent_octets_safe (bs : list Z) :
  Forall (fun b => 0 <= b < 256) bs -> forallb b64_safe (percent_octets bs) = true.
Proof.
  induction 1 as [| b bs Hb _ IH]; [reflexivity |].
  unfold percent_octets in *. cbn [flat_map]. rewrite forallb_app, IH.
  unfold percent_octet. cbn [forallb].
  rewrite !hex_upper_safe by zlia. reflexivity.
Qed.

Lemma utf8_octets_range (cp : Z) :
  0 <= cp < 1114112 -> Forall (fun b => 0 <= b < 256) (utf8_octets cp).
Proof.
  intros Hcp. unfold utf8_octets.
  destruct (Z.ltb_spec cp 128);
    [| destruct (Z.ltb_spec cp 2048); [| destruct (Z.ltb_spec cp 65536)]];
    repeat constructor; zlia.
Qed.

(** [encodeURIComponent] writes a tilde only where it reads one, and never
    a greater-than sign. *)
Lemma encode_safe (n : nat) :
  forall s e : jstring,
    (List.length s <= n)%nat ->
    scalar s = true -> without 126 s = true ->
    encodeURIComponent s = Some e ->
    forallb b64_safe e = true.
Proof.
  induction n as [| n IH]; intros s e Hlen Hs Ht He.
  - destruct s; [| cbn in Hlen; lia]. cbn in He. injection He as <-. reflexivity.
  - destruct s as [| c s1]; [cbn in He; injection He as <-; reflexivity |].
    cbn [List.length] in Hlen. cbn [scalar] in Hs. cbn [encodeURIComponent] in He.
    apply without_cons in Ht. destruct Ht as [Hc126 Ht1].
    destruct (uri_unreserved c) eqn:Hun.
    + destruct (uri_unreserved_plain c Hun) as [_ Hascii].
      assert (Hs1 : scalar s1 = true).
      { apply is_ascii_range in Hascii.
        assert (Hh : is_high_surrogate c = false)
          by (unfold is_high_surrogate; zcases; try reflexivity; lia).
        rewrite Hh in Hs. apply andb_prop in Hs. tauto. }
      destruct (encodeURIComponent s1) as [e1 |] eqn:He1; [| discriminate].
      cbn [app_some List.app] in He. injection He as <-.
      cbn [forallb]. rewrite (b64_safe_unreserved c Hun Hc126).
      apply (IH s1 e1); [lia | exact Hs1 | exact Ht1 | exact He1].
    + destruct (is_high_surrogate c) eqn:Hhi.
      * destruct s1 as [| d s2]; [discriminate |].
        apply andb_prop in Hs. destruct Hs as [Hlo Hs2]. rewrite Hlo in He.
        apply surrogate_ranges in Hhi. pose proof Hlo as Hlo'.
        apply surrogate_ranges in Hlo'.
        apply without_cons in Ht1. destruct Ht1 as [_ Ht2].
        cbn [List.length] in Hlen.
        destruct (encodeURIComponent s2) as [e2 |] eqn:He2; [| discriminate].
        cbn [app_some] in He. injection He as <-.
        rewrite forallb_app, percent_octets_safe
          by (apply utf8_octets_range; unfold pair_code_point; lia).
        apply (IH s2 e2); [lia | exact Hs2 | exact Ht2 | exact He2].
      * apply andb_prop in Hs. destruct Hs as [Hs Hs1].
        apply andb_prop in Hs. destruct Hs as [Hc Hlo].
        apply negb_true_iff in Hlo. rewrite Hlo in He.
        apply code_unit_range in Hc.
        destruct (encodeURIComponent s1) as [e1 |] eqn:He1; [| discriminate].
        cbn [app_some] in He. injection He as <-.
        rewrite forallb_app, percent_octets_safe by (apply utf8_octets_range; lia).
        apply (IH s1 e1); [lia | exact Hs1 | exact Ht1 | exact He1].
Qed.

Lemma b64_char_plus (x : Z) : 0 <= x < 64 -> x <> 62 -> (43 =? b64_char x) = false.
Proof.
  intros Hx Hne. apply Z.eqb_neq. unfold b64_char.
  destruct (Z.ltb_spec x 26); [lia |].
  destruct (Z.ltb_spec x 52); [lia |].
  destruct (Z.ltb_spec x 62); [lia |].
  destruct (Z.eqb_spec x 62); [contradiction | lia].
Qed.

(** [btoa] writes a plus sign only for a sextet 62, and of ASCII octets
    only the last octet of a group of three can give one: a greater-than
    sign or a tilde. *)
Lemma b64_encode_no_plus (s : jstring) :
  forallb b64_safe s = true -> has_plus (b64_encode s) = false.
Proof.
  unfold has_plus.
  induction s as [| a | a b | a b c l IH] using list_triple_induction;
    cbn [forallb b64_encode existsb]; intros H.
  - reflexivity.
  - assert (Ha : 0 <= a < 128) by (unfold b64_safe, is_ascii in H; lia).
    rewrite !b64_char_plus by zlia. reflexivity.
  - assert (Ha : 0 <= a < 128 /\ 0 <= b < 128) by (unfold b64_safe, is_ascii in H; lia).
    rewrite !b64_char_plus by zlia. reflexivity.
  - assert (Hl : forallb b64_safe l = true).
    { do 3 (apply andb_prop in H; destruct H as [_ H]). exact H. }
    assert (Ha : 0 <= a < 128 /\ 0 <= b < 128 /\ 0 <= c < 128 /\ c <> 62 /\ c <> 126)
      by (unfold b64_safe, is_ascii in H; lia).
    rewrite !b64_char_plus by zlia. rewrite (IH Hl). reflexivity.
Qed.

(* ================================================================== *)
(** * The share link *)
(* ================================================================== *)

Lemma shared_value_shareable (t : JSON) (p : list JSON) :
  shareable t = true -> forallb shareable p = true ->
  shareable (shared_value t p) = true.
Proof.
  intros Ht Hp. unfold shared_value. cbn [shareable map fst snd forallb].
  rewrite Ht, Hp. reflexivity.
Qed.

(** Every shareable topic and plan is encoded into a parameter, and a
    page opened at the link reads the two back when the parameter passes
    through the address unchanged. *)
Lemma share_parameter_round_trip (t : JSON) (p : list JSON) :
  shareable t = true ->
  forallb shareable p = true ->
  truthy t = true ->
  p <> [] ->
  exists base64String,
    share_parameter t p = Some base64String
    /\ forallb b64_output base64String = true
    /\ (has_plus base64String = false ->
        forall (st : State) (o pa : jstring),
          loadSimulationFromURL
            {| app_state := st;
               location := {| origin := o; pathname := pa;
                              search := lit "?simulation=" ++ base64String |} |}
          = {| app_state := setSimulationPlan p (setTopic t st);
               location := {| origin := o; pathname := pa; search := [] |} |}).
Proof.
  intros Ht Hp Htruthy Hne.
  pose proof (shared_value_shareable t p Ht Hp) as Hsh.
  destruct (serialize_total _ Hsh) as [text Htext].
  pose proof (scalar_serialize _ Hsh text Htext) as Hscalar.
  destruct (decodeURIComponent_encodeURIComponent text Hscalar)
    as [e [He [Hascii [Hlen Hdec]]]].
  assert (Hlatin : forallb is_latin1 e = true).
  { apply (forallb_weaken is_ascii); [| exact Hascii].
    intros c Hc. apply is_ascii_range in Hc. unfold is_latin1. lia. }
  destruct (atob_btoa e Hlatin) as [Hbtoa Hatob].
  exists (b64_encode e). split; [| split].
  - unfold share_parameter. fold (shared_value t p).
    unfold JSON_stringify. rewrite Htext, He. exact Hbtoa.
  - apply b64_encode_output. exact Hlatin.
  - intros Hplus st o pa.
    pose proof (b64_plain _ (b64_encode_output e Hlatin) Hplus) as Hplain.
    unfold loadSimulationFromURL. cbn [location search].
    rewrite (URLSearchParams_get_simulation _ Hplain).
    assert (Hcons : exists c rest, b64_encode e = c :: rest).
    { destruct (serialize_opens_value _ _ Htext) as [c0 [t0 [E0 _]]].
      destruct e as [| a e']; [subst text; cbn in Hlen; lia |].
      apply b64_encode_nonempty. }
    destruct Hcons as [c [rest Hcons]]. rewrite Hcons. rewrite <- Hcons.
    unfold decode_shared. rewrite Hatob, Hdec.
    rewrite (JSON_parse_stringify _ text Hsh Htext).
    destruct p as [| x l]; [contradiction |].
    unfold shared_guard, shared_value.
    cbn [member_of lookup_prop].
    change (jstring_eqb (lit "topic") (lit "topic")) with true. cbv iota.
    rewrite Htruthy.
    change (jstring_eqb (lit "topic") (lit "simulationPlan")) with false.
    change (jstring_eqb (lit "simulationPlan") (lit "simulationPlan")) with true.
    cbv iota. reflexivity.
Qed.

Lemma step_value_shareable (s : SimulationStep) :
  step_well_formed s = true -> shareable (step_value s) = true.
Proof.
  unfold step_well_formed. intros H.
  apply andb_prop in H. destruct H as [H Hp].
  apply andb_prop in H. destruct H as [Ht Hd].
  unfold step_value. cbn [shareable map fst snd forallb].
  rewrite Ht, Hd, Hp. destruct (type s); reflexivity.
Qed.

Lemma steps_shareable (steps : list SimulationStep) :
  forallb step_well_formed steps = true ->
  forallb shareable (map step_value steps) = true.
Proof.
  induction steps as [| s l IH]; [reflexivity |].
  cbn [forallb map]. intros H. apply andb_prop in H. destruct H as [Hs Hl].
  rewrite (step_value_shareable s Hs), (IH Hl). reflexivity.
Qed.

(** Two steps with the same run-time object have the same four fields. *)
Lemma step_value_injective (a b : SimulationStep) :
  step_value a = step_value b -> a = b.
Proof.
  destruct a as [ta da pa ya], b as [tb db pb yb]. unfold step_value. cbn.
  intros H. injection H as Ht Hd Hp Hy.
  subst. f_equal. destruct ya, yb; try reflexivity; discriminate Hy.
Qed.

Lemma map_step_value_injective (a b : list SimulationStep) :
  map step_value a = map step_value b -> a = b.
Proof.
  revert b. induction a as [| x a IH]; intros [| y b] H; try discriminate; [reflexivity |].
  cbn [map] in H.
  assert (Hx : step_value x = step_value y)
    by (apply (f_equal (fun l => nth 0 l JNull)) in H; exact H).
  assert (Hl : map step_value a = map step_value b)
    by (apply (f_equal (@tl JSON)) in H; exact H).
  rewrite (step_value_injective x y Hx), (IH b Hl). reflexivity.
Qed.

Lemma shared_value_tilde_free (t : JSON) (p : list JSON) :
  tilde_free t = true -> forallb tilde_free p = true ->
  tilde_free (shared_value t p) = true.
Proof.
  intros Ht Hp. unfold shared_value. cbn [tilde_free forallb fst snd].
  rewrite Ht, Hp. reflexivity.
Qed.

(** The parameter of a topic and a plan without tildes holds no plus
    sign. *)
Lemma share_parameter_no_plus (t : JSON) (p : list JSON) (base64String : jstring) :
  shareable t = true -> forallb shareable p = true ->
  tilde_free t = true -> forallb tilde_free p = true ->
  share_parameter t p = Some base64String ->
  has_plus base64String = false.
Proof.
  intros Ht Hp Htt Htp Hshare.
  pose proof (shared_value_shareable t p Ht Hp) as Hsh.
  pose proof (shared_value_tilde_free t p Htt Htp) as Htf.
  unfold share_parameter in Hshare. fold (shared_value t p) in Hshare.
  unfold JSON_stringify in Hshare.
  destruct (serialize (shared_value t p)) as [text |] eqn:Htext; [| discriminate].
  destruct (encodeURIComponent text) as [e |] eqn:He; [| discriminate].
  unfold btoa in Hshare. destruct (forallb is_latin1 e); [| discriminate].
  injection Hshare as <-.
  apply b64_encode_no_plus.
  apply (encode_safe (List.length text) text e); [lia | | | exact He].
  - exact (scalar_serialize _ Hsh text Htext).
  - exact (serialize_tilde _ Hsh Htf text Htext).
Qed.

Lemma step_value_tilde_free (s : SimulationStep) :
  step_tilde_free s = true -> tilde_free (step_value s) = true.
Proof.
  unfold step_tilde_free. intros H.
  apply andb_prop in H. destruct H as [H Hp].
  apply andb_prop in H. destruct H as [Ht Hd].
  unfold step_value. cbn [tilde_free forallb fst snd].
  rewrite Ht, Hd, Hp. destruct (type s); reflexivity.
Qed.

Lemma steps_tilde_free (steps : list SimulationStep) :
  forallb step_tilde_free steps = true ->
  forallb tilde_free (map step_value steps) = true.
Proof.
  induction steps as [| s l IH]; [reflexivity |].
  cbn [forallb map]. intros H. apply andb_prop in H. destruct H as [Hs Hl].
  rewrite (step_value_tilde_free s Hs), (IH Hl). reflexivity.
Qed.

(** C7. The round trip the claim asks for fails on the code.  In the
    session in which the topic [~] is submitted and a plan arrives, the
    page holds that topic and plan, and the link [handleShare] builds has
    a plus sign in its base64 text; [URLSearchParams] reads the plus sign
    as a space, so the parameter the opening page gets is not the one that
    was written, it does not decode, and the page that opens the link has
    an empty topic and an empty plan. *)
Theorem share_link_not_read_back :
  topic (app_state (page (run sample_address tilde_session))) = JStr (lit "~")
  /\ simulationPlan (app_state (page (run sample_address tilde_session))) = sample_plan
  /\ exists link,
       handleShare (page (run sample_address tilde_session)) = Some link
       /\ has_plus (search link) = true
       /\ URLSearchParams_get (search link) (lit "simulation")
          <> Some (skipn 12 (search link))
       /\ topic (app_state (opened_at link)) = JStr []
       /\ topic (app_state (opened_at link)) <> JStr (lit "~")
       /\ simulationPlan (app_state (opened_at link)) = []
       /\ simulationPlan (app_state (opened_at link)) <> sample_plan.
Proof.
  split; [vm_compute; reflexivity |]. split; [vm_compute; reflexivity |].
  eexists. split; [vm_compute; reflexivity |].
  repeat split; try (vm_compute; reflexivity); vm_compute; discriminate.
Qed.

(** X21. The share link is read back whenever no tilde is involved: for
    every non-empty topic string and every non-empty step array (strings
    of 16-bit code units, separators and unicode included) that hold no
    tilde, [handleShare] builds a link, and the page that opens the link
    has the identical topic string and a step array equal field for field
    to the original. *)
Theorem share_link_round_trip (pg : Page) (t : jstring) (steps : list SimulationStep) :
  topic (app_state pg) = JStr t ->
  simulationPlan (app_state pg) = map step_value steps ->
  well_formed t = true ->
  forallb step_well_formed steps = true ->
  t <> [] ->
  steps <> [] ->
  without 126 t = true ->
  forallb step_tilde_free steps = true ->
  exists link base64String,
    handleShare pg = Some link
    /\ href link
       = origin (location pg) ++ pathname (location pg)
         ++ lit "?simulation=" ++ base64String
    /\ has_plus base64String = false
    /\ topic (app_state (opened_at link)) = JStr t
    /\ simulationPlan (app_state (opened_at link)) = map step_value steps
    /\ forall steps',
         simulationPlan (app_state (opened_at link)) = map step_value steps' ->
         steps' = steps.
Proof.
  intros Htopic Hplan Hwf Hsteps Ht Hne Htilde Hstilde.
  pose proof (steps_shareable steps Hsteps) as Hsh.
  destruct (share_parameter_round_trip (JStr t) (map step_value steps))
    as [b [Hb [_ Hload]]].
  - exact Hwf.
  - exact Hsh.
  - destruct t; [contradiction | reflexivity].
  - destruct steps; [contradiction | discriminate].
  - pose proof (share_parameter_no_plus (JStr t) (map step_value steps) b
                  Hwf Hsh Htilde (steps_tilde_free steps Hstilde) Hb) as Hplus.
    unfold handleShare. rewrite Htopic, Hplan, Hb.
    eexists. exists b. split; [reflexivity |]. split; [reflexivity |].
    split; [exact Hplus |].
    unfold opened_at. rewrite (Hload Hplus initial_state).
    cbn [app_state topic simulationPlan setSimulationPlan setTopic].
    split; [reflexivity |]. split; [reflexivity |].
    intros steps' H. symmetry. apply map_step_value_injective. exact H.
Qed.

Lemma share_link_round_trip_witness :
  exists link base64String,
    handleShare (sample_page sample_topic) = Some link
    /\ href link
       = origin (location (sample_page sample_topic))
         ++ pathname (location (sample_page sample_topic))
         ++ lit "?simulation=" ++ base64String
    /\ has_plus base64String = false
    /\ topic (app_state (opened_at link)) = JStr sample_topic
    /\ simulationPlan (app_state (opened_at link)) = map step_value sample_steps
    /\ forall steps',
         simulationPlan (app_state (opened_at link)) = map step_value steps' ->
         steps' = sample_steps.
Proof.
  apply (share_link_round_trip (sample_page sample_topic) sample_topic sample_steps);
    try reflexivity; discriminate.
Defined.

(* ================================================================== *)
(** * The fuel of the parsers is never what makes them fail *)
(* ================================================================== *)

Lemma skip_ws_length (s : jstring) : (List.length (skip_ws s) <= List.length s)%nat.
Proof.
  induction s as [| c s IH]; [reflexivity |].
  cbn [skip_ws]. destruct (is_json_ws c); cbn [List.length]; lia.
Qed.

Lemma cons_chars_some (c : Z) (r : option (jstring * jstring)) (cs rest : jstring) :
  cons_chars c r = Some (cs, rest) -> exists cs', r = Some (cs', rest).
Proof.
  destruct r as [[cs' rest'] |]; [| discriminate].
  cbn. intros H. injection H as _ <-. eauto.
Qed.

Lemma parse_chars_shorter (n : nat) :
  forall s cs rest,
    (List.length s <= n)%nat ->
    parse_chars s = Some (cs, rest) ->
    (List.length rest < List.length s)%nat.
Proof.
  induction n as [| n IH]; intros s cs rest Hlen H.
  - destruct s; [discriminate | cbn in Hlen; lia].
  - destruct s as [| c s1]; [discriminate |].
    cbn [List.length] in *. cbn [parse_chars] in H.
    destruct (c =? 34).
    { injection H as _ <-. lia. }
    destruct (c =? 92).
    + destruct s1 as [| e s2]; [discriminate |]. cbn [List.length] in *.
      destruct (e =? 117).
      * destruct s2 as [| h1 [| h2 [| h3 [| h4 s3]]]]; try discriminate.
        cbn [List.length] in *.
        destruct (hex4 h1 h2 h3 h4); [| discriminate].
        apply cons_chars_some in H. destruct H as [cs' H].
        apply IH in H; lia.
      * destruct (simple_escape e); [| discriminate].
        apply cons_chars_some in H. destruct H as [cs' H].
        apply IH in H; lia.
    + destruct (c <? 32); [discriminate |].
      apply cons_chars_some in H. destruct H as [cs' H].
      apply IH in H; lia.
Qed.

Lemma take_digits_length (s : jstring) :
  (List.length (snd (take_digits s)) <= List.length s)%nat.
Proof.
  induction s as [| c s IH]; [reflexivity |].
  cbn [take_digits]. destruct (is_digit c); [| reflexivity].
  destruct (take_digits s) as [ds rest]. cbn [snd List.length] in *. lia.
Qed.

Lemma parse_exp_digits_length (pre s n rest : jstring) :
  parse_exp_digits pre s = Some (n, rest) ->
  (List.length rest <= List.length s)%nat.
Proof.
  unfold parse_exp_digits. pose proof (take_digits_length s) as Hl.
  destruct (take_digits s) as [[| d ds] r]; [discriminate |].
  intros H. injection H as _ <-. exact Hl.
Qed.

Lemma parse_number_shorter (s n rest : jstring) :
  parse_number s = Some (n, rest) -> (List.length rest < List.length s)%nat.
Proof.
  assert (Hint : forall s i r, parse_int_part s = Some (i, r) ->
                               (List.length r < List.length s)%nat).
  { intros [| c s'] i r; cbn [parse_int_part]; [discriminate |].
    destruct (c =? 48); [intros H; injection H as _ <-; cbn; lia |].
    destruct (is_digit c); [| discriminate].
    pose proof (take_digits_length s') as Hl.
    destruct (take_digits s') as [ds r']. intros H. injection H as _ <-.
    cbn [snd List.length] in *. lia. }
  assert (Hfrac : forall s f r, parse_frac_part s = Some (f, r) ->
                                (List.length r <= List.length s)%nat).
  { intros [| c s'] f r; cbn [parse_frac_part].
    - intros H. injection H as _ <-. reflexivity.
    - destruct (c =? 46).
      + pose proof (take_digits_length s') as Hl.
        destruct (take_digits s') as [[| d ds] r']; [discriminate |].
        intros H. injection H as _ <-. cbn [snd List.length] in *. lia.
      + intros H. injection H as _ <-. reflexivity. }
  assert (Hexp : forall s e r, parse_exp_part s = Some (e, r) ->
                               (List.length r <= List.length s)%nat).
  { intros [| c s'] e r; cbn [parse_exp_part].
    - intros H. injection H as _ <-. reflexivity.
    - destruct ((c =? 101) || (c =? 69)).
      + destruct s' as [| g s'']; [discriminate |].
        destruct ((g =? 43) || (g =? 45)); intros H;
          apply parse_exp_digits_length in H; cbn [List.length] in *; lia.
      + intros H. injection H as _ <-. reflexivity. }
  assert (Huns : forall s n r, parse_unsigned s = Some (n, r) ->
                               (List.length r < List.length s)%nat).
  { intros s0 n0 r. unfold parse_unsigned.
    destruct (parse_int_part s0) as [[i s1] |] eqn:Ei; [| discriminate].
    destruct (parse_frac_part s1) as [[f s2] |] eqn:Ef; [| discriminate].
    destruct (parse_exp_part s2) as [[e s3] |] eqn:Ee; [| discriminate].
    intros H. injection H as _ <-.
    apply Hint in Ei. apply Hfrac in Ef. apply Hexp in Ee. lia. }
  destruct s as [| c s']; cbn [parse_number]; [discriminate |].
  destruct (c =? 45).
  - destruct (parse_unsigned s') as [[n' r] |] eqn:E; [| discriminate].
    intros H. injection H as _ <-. apply Huns in E. cbn [List.length]. lia.
  - apply Huns.
Qed.

Lemma starts_with_length (w s : jstring) :
  starts_with w s = true -> (List.length w <= List.length s)%nat.
Proof.
  revert s. induction w as [| p w IH]; intros s H; [cbn; lia |].
  destruct s as [| c s]; [discriminate |].
  cbn [starts_with] in H. apply andb_prop in H. destruct H as [_ H].
  apply IH in H. cbn [List.length]. lia.
Qed.

Lemma literal_value_shorter (w : jstring) (x v : JSON) (s rest : jstring) :
  w <> [] ->
  literal_value w x s = Some (v, rest) ->
  (List.length rest < List.length s)%nat.
Proof.
  intros Hw. unfold literal_value.
  destruct (starts_with w s) eqn:E; [| discriminate].
  intros H. injection H as _ <-. apply starts_with_length in E.
  rewrite length_skipn. destruct w; [contradiction |]. cbn [List.length] in *. lia.
Qed.

Lemma parsers_fuel_enough (n : nat) :
  fuel_enough parse_value n
  /\ (forall acc, fuel_enough (fun k => parse_elements k acc) n)
  /\ (forall props, fuel_enough (fun k => parse_members k props) n).
Proof.
  induction n as [| n [IHv [IHe IHm]]].
  - repeat split; discriminate.
  - split; [| split].
    + intros s v rest H. destruct s as [| c s1]; [discriminate |].
      cbn [parse_value] in H. cbn [List.length].
      destruct (c =? 123) eqn:E1.
      { pose proof (skip_ws_length s1) as Hws.
        destruct (skip_ws s1) as [| d s2] eqn:Es; [discriminate |].
        cbn [List.length] in Hws.
        destruct (d =? 125) eqn:E2.
        - injection H as <- <-. split; [lia |].
          intros m Hm. destruct m as [| m]; [lia |].
          cbn [parse_value]. rewrite E1, Es, E2. reflexivity.
        - destruct (IHm [] _ _ _ H) as [Hlen Hfuel]. cbn [List.length] in Hlen.
          split; [lia |].
          intros m Hm. destruct m as [| m]; [lia |].
          cbn [parse_value]. rewrite E1, Es, E2. apply Hfuel.
          cbn [List.length]. lia. }
      destruct (c =? 91) eqn:E2.
      { pose proof (skip_ws_length s1) as Hws.
        destruct (skip_ws s1) as [| d s2] eqn:Es; [discriminate |].
        cbn [List.length] in Hws.
        destruct (d =? 93) eqn:E3.
        - injection H as <- <-. split; [lia |].
          intros m Hm. destruct m as [| m]; [lia |].
          cbn [parse_value]. rewrite E1, E2, Es, E3. reflexivity.
        - destruct (IHe [] _ _ _ H) as [Hlen Hfuel]. cbn [List.length] in Hlen.
          split; [lia |].
          intros m Hm. destruct m as [| m]; [lia |].
          cbn [parse_value]. rewrite E1, E2, Es, E3. apply Hfuel.
          cbn [List.length]. lia. }
      destruct (c =? 34) eqn:E3.
      { destruct (parse_chars s1) as [[cs r] |] eqn:Ec; [| discriminate].
        injection H as <- <-.
        pose proof (parse_chars_shorter _ _ _ _ (Nat.le_refl _) Ec) as Hlen.
        split; [lia |].
        intros m Hm. destruct m as [| m]; [lia |].
        cbn [parse_value]. rewrite E1, E2, E3, Ec. reflexivity. }
      destruct (c =? 116) eqn:E4.
      { pose proof (literal_value_shorter (lit "true") _ _ _ _ ltac:(cbv; discriminate) H)
          as Hlen.
        cbn [List.length] in Hlen. split; [lia |].
        intros m Hm. destruct m as [| m]; [lia |].
        cbn [parse_value]. rewrite E1, E2, E3, E4. exact H. }
      destruct (c =? 102) eqn:E5.
      { pose proof (literal_value_shorter (lit "false") _ _ _ _ ltac:(cbv; discriminate) H)
          as Hlen.
        cbn [List.length] in Hlen. split; [lia |].
        intros m Hm. destruct m as [| m]; [lia |].
        cbn [parse_value]. rewrite E1, E2, E3, E4, E5. exact H. }
      destruct (c =? 110) eqn:E6.
      { pose proof (literal_value_shorter (lit "null") _ _ _ _ ltac:(cbv; discriminate) H)
          as Hlen.
        cbn [List.length] in Hlen. split; [lia |].
        intros m Hm. destruct m as [| m]; [lia |].
        cbn [parse_value]. rewrite E1, E2, E3, E4, E5, E6. exact H. }
      destruct (parse_number (c :: s1)) as [[num r] |] eqn:En; [| discriminate].
      injection H as <- <-.
      pose proof (parse_number_shorter _ _ _ En) as Hlen. cbn [List.length] in Hlen.
      split; [lia |].
      intros m Hm. destruct m as [| m]; [lia |].
      cbn [parse_value]. rewrite E1, E2, E3, E4, E5, E6, En. reflexivity.
    + intros acc s v rest H. cbn beta in *. rewrite parse_elements_step in H.
      destruct (parse_value n s) as [[x r1] |] eqn:Ev; [| discriminate].
      destruct (IHv _ _ _ Ev) as [Hlen1 Hfuel1].
      pose proof (skip_ws_length r1) as Hws.
      destruct (skip_ws r1) as [| d s2] eqn:Es; [discriminate |].
      cbn [List.length] in Hws.
      destruct (d =? 44) eqn:E1.
      * destruct (IHe (x :: acc) _ _ _ H) as [Hlen2 Hfuel2].
        pose proof (skip_ws_length s2) as Hws2.
        split; [lia |].
        intros m Hm. destruct m as [| m]; [lia |].
        rewrite parse_elements_step. rewrite (Hfuel1 m) by lia.
        rewrite Es, E1. apply Hfuel2. lia.
      * destruct (d =? 93) eqn:E2; [| discriminate].
        injection H as <- <-. split; [lia |].
        intros m Hm. destruct m as [| m]; [lia |].
        rewrite parse_elements_step. rewrite (Hfuel1 m) by lia.
        rewrite Es, E1, E2. reflexivity.
    + intros props s v rest H. cbn beta in *.
      destruct s as [| q s1]; [discriminate |].
      cbn [parse_members] in H. cbn [List.length].
      destruct (q =? 34) eqn:Eq; [| discriminate].
      destruct (parse_chars s1) as [[key r0] |] eqn:Ec; [| discriminate].
      pose proof (parse_chars_shorter _ _ _ _ (Nat.le_refl _) Ec) as Hlen0.
      pose proof (skip_ws_length r0) as Hws0.
      destruct (skip_ws r0) as [| colon s2] eqn:Es0; [discriminate |].
      cbn [List.length] in Hws0.
      destruct (colon =? 58) eqn:Ecol; [| discriminate].
      pose proof (skip_ws_length s2) as Hws2.
      destruct (parse_value n (skip_ws s2)) as [[x r1] |] eqn:Ev; [| discriminate].
      destruct (IHv _ _ _ Ev) as [Hlen1 Hfuel1].
      pose proof (skip_ws_length r1) as Hws1.
      destruct (skip_ws r1) as [| d s3] eqn:Es1; [discriminate |].
      cbn [List.length] in Hws1.
      destruct (d =? 44) eqn:E1.
      * destruct (IHm _ _ _ _ H) as [Hlen2 Hfuel2].
        pose proof (skip_ws_length s3) as Hws3.
        split; [lia |].
        intros m Hm. destruct m as [| m]; [lia |].
        cbn [parse_members]. rewrite Eq, Ec, Es0, Ecol.
        rewrite (Hfuel1 m) by lia. rewrite Es1, E1. apply Hfuel2. lia.
      * destruct (d =? 125) eqn:E2; [| discriminate].
        injection H as <- <-. split; [lia |].
        intros m Hm. destruct m as [| m]; [lia |].
        cbn [parse_members]. rewrite Eq, Ec, Es0, Ecol.
        rewrite (Hfuel1 m) by lia. rewrite Es1, E1, E2. reflexivity.
Qed.

(** [JSON_parse] rejects a text only if the grammar does: a value read
    from the whole text with any fuel is the value [JSON_parse] returns. *)
Lemma JSON_parse_complete (text : jstring) (n : nat) (v : JSON) (rest : jstring) :
  parse_value n (skip_ws text) = Some (v, rest) ->
  skip_ws rest = [] ->
  JSON_parse text = Some v.
Proof.
  intros H Hrest. unfold JSON_parse.
  destruct (parsers_fuel_enough n) as [Hv _].
  destruct (Hv _ _ _ H) as [_ Hfuel].
  rewrite (Hfuel (S (List.length text))).
  - rewrite Hrest. reflexivity.
  - pose proof (skip_ws_length text). lia.
Qed.

Lemma parse_hex_octet_length (s : jstring) (b : Z) (rest : jstring) :
  parse_hex_octet s = Some (b, rest) -> List.length s = S (S (List.length rest)).
Proof.
  unfold parse_hex_octet. destruct s as [| h1 [| h2 r]]; try discriminate.
  destruct (hex_value h1); [| discriminate].
  destruct (hex_value h2); [| discriminate].
  intros H. injection H as _ <-. reflexivity.
Qed.

Lemma read_continuations_length (k : nat) :
  forall s bs rest,
    read_continuations k s = Some (bs, rest) ->
    (List.length rest <= List.length s)%nat.
Proof.
  induction k as [| k IH]; intros s bs rest; cbn [read_continuations].
  - intros H. injection H as _ <-. reflexivity.
  - destruct s as [| p s1]; [discriminate |].
    destruct (p =? 37); [| discriminate].
    destruct (parse_hex_octet s1) as [[b s2] |] eqn:Eh; [| discriminate].
    destruct (read_continuations k s2) as [[bs' r] |] eqn:Er; [| discriminate].
    intros H. injection H as _ <-.
    apply parse_hex_octet_length in Eh. apply IH in Er. cbn [List.length]. lia.
Qed.

(** [decodeURIComponent] fails only on a malformed text: any fuel of at
    least the length of the text gives the same result. *)
Lemma decode_uri_fuel (n : nat) :
  forall s f1 f2,
    (List.length s <= n)%nat ->
    (List.length s <= f1)%nat ->
    (List.length s <= f2)%nat ->
    decode_uri f1 s = decode_uri f2 s.
Proof.
  induction n as [| n IH]; intros s f1 f2 Hn H1 H2.
  - destruct s; [destruct f1, f2; reflexivity | cbn in Hn; lia].
  - destruct s as [| c s1]; [destruct f1, f2; reflexivity |].
    cbn [List.length] in *.
    destruct f1 as [| f1]; [lia |]. destruct f2 as [| f2]; [lia |].
    cbn [decode_uri]. destruct (c =? 37).
    + destruct (parse_hex_octet s1) as [[b s2] |] eqn:Eh; [| reflexivity].
      apply parse_hex_octet_length in Eh.
      destruct (leading_ones b) as [| [| k]].
      * rewrite (IH s2 f1 f2) by lia. reflexivity.
      * reflexivity.
      * destruct k as [| [| [| k]]]; try reflexivity;
          (destruct (read_continuations _ s2) as [[conts rest] |] eqn:Er;
           [| reflexivity];
           destruct (utf8_code_point b conts); [| reflexivity];
           apply read_continuations_length in Er;
           rewrite (IH rest f1 f2) by lia; reflexivity).
    + rewrite (IH s1 f1 f2) by lia. reflexivity.
Qed.

(* ================================================================== *)
(** * Every way [generateVideo] can end *)
(* ================================================================== *)

Lemma poll_loop_outcome (apiKey : jstring) (w : VideoBackend) :
  forall (fuel i : nat) (progress : list jstring) (operation : Operation) (out : VideoRun),
    completion_check w i = inr operation ->
    poll_loop fuel apiKey w progress (S i) operation = Some out ->
    exists m,
      (m <= fuel)%nat
      /\ (forall k, (i <= k < i + m)%nat ->
                    exists op, completion_check w k = inr op /\ done op = false)
      /\ ((exists last,
             completion_check w (i + m) = inr last /\ done last = true
             /\ out = finish_video apiKey w
                        (progress ++ map video_message (seq (S i) m)) last)
          \/ (exists e,
             completion_check w (i + m) = inl e
             /\ out = (progress ++ map video_message (seq (S i) m), inl e))).
Proof.
  induction fuel as [| fuel IH]; intros i progress operation out Hop Hrun.
  - cbn [poll_loop] in Hrun. destruct (done operation) eqn:Hd; [| discriminate].
    injection Hrun as <-. exists 0%nat. split; [lia |]. split; [intros k Hk; lia |].
    left. exists operation. rewrite Nat.add_0_r. cbn [seq map]. rewrite app_nil_r. auto.
  - cbn [poll_loop] in Hrun. destruct (done operation) eqn:Hd.
    + injection Hrun as <-. exists 0%nat. split; [lia |]. split; [intros k Hk; lia |].
      left. exists operation. rewrite Nat.add_0_r. cbn [seq map]. rewrite app_nil_r. auto.
    + replace (S i - 1)%nat with i in Hrun by lia.
      change (polled w i) with (completion_check w (S i)) in Hrun.
      destruct (completion_check w (S i)) as [e | operation'] eqn:Hnext.
      * injection Hrun as <-. exists 1%nat. split; [lia |].
        split.
        { intros k Hk. assert (k = i) by lia. subst k. eauto. }
        right. exists e. replace (i + 1)%nat with (S i) by lia. auto.
      * destruct (IH (S i) _ operation' out Hnext Hrun) as [m [Hm [Hnot Hend]]].
        exists (S m). split; [lia |]. split.
        { intros k Hk. destruct (Nat.eq_dec k i) as [-> | Hne]; [eauto |].
          apply Hnot. lia. }
        replace (i + S m)%nat with (S i + m)%nat by lia.
        cbn [seq map]. rewrite <- app_assoc in Hend. exact Hend.
Qed.

Lemma generateVideo_ends (fuel : nat) (apiKey : jstring) (w : VideoBackend)
  (out : VideoRun) :
  generateVideo fuel apiKey w = Some out ->
  exists n,
    (n <= fuel)%nat
    /\ (forall k, (k < n)%nat ->
                  exists op, completion_check w k = inr op /\ done op = false)
    /\ ((exists last,
           completion_check w n = inr last /\ done last = true
           /\ out = finish_video apiKey w (map video_message (seq 0 (S n))) last)
        \/ (exists e,
           completion_check w n = inl e
           /\ out = (map video_message (seq 0 (S n)), inl e))).
Proof.
  unfold generateVideo. intros Hrun.
  destruct (submitted w) as [e | operation] eqn:Hsub.
  - injection Hrun as <-. exists 0%nat. split; [lia |]. split; [intros k Hk; lia |].
    right. exists e. auto.
  - destruct (poll_loop_outcome apiKey w fuel 0 _ operation out Hsub Hrun)
      as [m [Hm [Hnot Hend]]].
    exists m. split; [exact Hm |]. split; [intros k Hk; apply Hnot; lia |].
    exact Hend.
Qed.

Lemma generateVideo_until_done (apiKey : jstring) (w : VideoBackend)
  (n fuel : nat) (last : Operation) :
  (forall k, (k < n)%nat ->
             exists op, completion_check w k = inr op /\ done op = false) ->
  completion_check w n = inr last ->
  done last = true ->
  (n <= fuel)%nat ->
  generateVideo fuel apiKey w
  = Some (finish_video apiKey w (map video_message (seq 0 (S n))) last).
Proof.
  intros Hnot Hend Hlast Hfuel. unfold generateVideo.
  destruct n as [| n].
  - cbn in Hend. rewrite Hend.
    destruct fuel; cbn [poll_loop]; rewrite Hlast; reflexivity.
  - destruct (Hnot 0%nat ltac:(lia)) as [op0 [H0 Hd0]]. cbn in H0. rewrite H0.
    rewrite (poll_loop_until_done apiKey w last Hlast (S n) fuel 0 _ op0 H0).
    + reflexivity.
    + intros k Hk. apply Hnot. lia.
    + exact Hend.
    + exact Hfuel.
Qed.

(** X1. A rejected request ends [generateVideo] with the rejection, unchanged:
    when the first [n] completion checks report not-done and the next one
    (the reply of [generateVideos] for [n] = 0, of a [getVideosOperation]
    otherwise) rejects with [e], [generateVideo] throws [e] after the list
    messages of indices 0 to [n], and sends no fetch notice. *)
Theorem generateVideo_rejection (apiKey : jstring) (w : VideoBackend)
  (n fuel : nat) (e : Thrown) :
  (forall k, (k < n)%nat ->
             exists op, completion_check w k = inr op /\ done op = false) ->
  completion_check w n = inl e ->
  (n <= fuel)%nat ->
  generateVideo fuel apiKey w = Some (map video_message (seq 0 (S n)), inl e).
Proof.
  intros Hnot Hend Hfuel. unfold generateVideo.
  destruct n as [| n].
  - cbn in Hend. rewrite Hend. reflexivity.
  - destruct (Hnot 0%nat ltac:(lia)) as [op0 [H0 Hd0]]. cbn in H0. rewrite H0.
    clear H0.
    assert (Hgen : forall m fuel' i progress operation,
               done operation = false ->
               (forall k, (i < k < i + S m)%nat ->
                          exists op, completion_check w k = inr op /\ done op = false) ->
               completion_check w (i + S m) = inl e ->
               (S m <= fuel')%nat ->
               poll_loop fuel' apiKey w progress (S i) operation
               = Some (progress ++ map video_message (seq (S i) (S m)), inl e)).
    { induction m as [| m IH]; intros fuel' i progress operation Hd Hmid Hrej Hf.
      - destruct fuel' as [| fuel']; [lia |]. cbn [poll_loop]. rewrite Hd.
        replace (S i - 1)%nat with i by lia.
        change (polled w i) with (completion_check w (S i)).
        replace (i + 1)%nat with (S i) in Hrej by lia. rewrite Hrej. reflexivity.
      - destruct fuel' as [| fuel']; [lia |]. cbn [poll_loop]. rewrite Hd.
        replace (S i - 1)%nat with i by lia.
        change (polled w i) with (completion_check w (S i)).
        destruct (Hmid (S i) ltac:(lia)) as [op' [Hop' Hd']]. rewrite Hop'.
        rewrite (IH fuel' (S i) _ op' Hd').
        + cbn [seq map]. rewrite <- app_assoc. reflexivity.
        + intros k Hk. apply Hmid. lia.
        + rewrite <- Hrej. f_equal. lia.
        + lia. }
    rewrite (Hgen n fuel 0%nat [video_message 0] op0 Hd0).
    + reflexivity.
    + intros k Hk. apply Hnot. lia.
    + exact Hend.
    + exact Hfuel.
Qed.

Lemma generateVideo_rejection_witness :
  generateVideo 5 (lit "KEY") rejecting_backend
  = Some ([lit "Initializing the virtual microscope...";
           lit "Sequencing bio-data for simulation...";
           lit "Assembling cellular structures..."],
          inl (ErrorObject (lit "quota exceeded"))).
Proof.
  apply (generateVideo_rejection (lit "KEY") rejecting_backend 2 5).
  - intros k Hk. exists {| done := false; uri := None |}.
    destruct k as [| [| k]]; [split; reflexivity .. | lia].
  - reflexivity.
  - lia.
Defined.

(** X2. [generateVideo] returns a video exactly when some completion
    check reports done with a non-empty download link, every check before
    it reports not-done, and the download of [link&key=apiKey] answers ok
    (with fuel for the passes of the loop).  The value returned is then the
    object URL of that download, and the messages are the list messages of
    the checks followed by the fetch notice. *)
Theorem generateVideo_success (fuel : nat) (apiKey : jstring) (w : VideoBackend)
  (progress : list jstring) (videoUrl : jstring) :
  generateVideo fuel apiKey w = Some (progress, inr videoUrl)
  <-> exists n last link response,
        (n <= fuel)%nat
        /\ (forall k, (k < n)%nat ->
                      exists op, completion_check w k = inr op /\ done op = false)
        /\ completion_check w n = inr last
        /\ done last = true
        /\ uri last = Some link
        /\ link <> []
        /\ fetched w (link ++ lit "&key=" ++ apiKey) = inr response
        /\ ok response = true
        /\ videoUrl = objectURL response
        /\ progress = map video_message (seq 0 (S n)) ++ [fetching_message].
Proof.
  split.
  - intros Hrun.
    destruct (generateVideo_ends fuel apiKey w _ Hrun)
      as [n [Hfuel [Hnot [[last [Hc [Hd Hout]]] | [e [_ Hout]]]]]]; [| discriminate Hout].
    unfold finish_video in Hout.
    destruct (uri last) as [[| c link] |] eqn:Huri; try discriminate Hout.
    destruct (fetched w ((c :: link) ++ lit "&key=" ++ apiKey)) as [e | response] eqn:Hf;
      [discriminate Hout |].
    destruct (ok response) eqn:Hok; [| discriminate Hout].
    injection Hout as -> ->.
    exists n, last, (c :: link), response.
    repeat split; try assumption; try reflexivity. discriminate.
  - intros [n [last [link [response
      [Hfuel [Hnot [Hc [Hd [Huri [Hne [Hf [Hok [-> ->]]]]]]]]]]]]].
    rewrite (generateVideo_until_done apiKey w n fuel last Hnot Hc Hd Hfuel).
    unfold finish_video. rewrite Huri.
    destruct link as [| c link]; [contradiction |].
    rewrite Hf, Hok. reflexivity.
Qed.

Lemma generateVideo_success_witness :
  generateVideo 3 (lit "KEY") three_checks_backend
  = Some (map video_message (seq 0 4) ++ [fetching_message], inr (lit "blob:1")).
Proof.
  apply (proj2 (generateVideo_success 3 (lit "KEY") three_checks_backend
                  (map video_message (seq 0 4) ++ [fetching_message]) (lit "blob:1"))).
  exists 3%nat, {| done := true; uri := Some (lit "https://video.example/1?alt=media") |},
    (lit "https://video.example/1?alt=media"),
    {| ok := true; statusText := lit "OK"; objectURL := lit "blob:1" |}.
  split; [lia |]. split.
  - intros k Hk. exists {| done := false; uri := None |}.
    destruct k as [| [| [| k]]]; [split; reflexivity .. | lia].
  - repeat split. discriminate.
Defined.

(** X3. When the job reports done, [generateVideo] fails in two ways.  With no
    download link (none, or an empty one) it throws "Video generation
    failed to produce a download link." and sends no fetch notice.  With a
    link whose download does not answer ok it throws "Failed to download
    video: " followed by the status text, after the fetch notice. *)
Theorem generateVideo_failure_after_done (apiKey : jstring) (w : VideoBackend)
  (n fuel : nat) (last : Operation) :
  (forall k, (k < n)%nat ->
             exists op, completion_check w k = inr op /\ done op = false) ->
  completion_check w n = inr last ->
  done last = true ->
  (n <= fuel)%nat ->
  (has_download_link last = false ->
   generateVideo fuel apiKey w
   = Some (map video_message (seq 0 (S n)),
           inl (ErrorObject (lit "Video generation failed to produce a download link."))))
  /\ (forall link response,
        uri last = Some link -> link <> [] ->
        fetched w (link ++ lit "&key=" ++ apiKey) = inr response ->
        ok response = false ->
        generateVideo fuel apiKey w
        = Some (map video_message (seq 0 (S n)) ++ [fetching_message],
                inl (ErrorObject (lit "Failed to download video: "
                                  ++ statusText response)))).
Proof.
  intros Hnot Hend Hlast Hfuel.
  rewrite (generateVideo_until_done apiKey w n fuel last Hnot Hend Hlast Hfuel).
  unfold finish_video, has_download_link. split.
  - destruct (uri last) as [[| c l] |]; try reflexivity. discriminate.
  - intros link response Huri Hne Hf Hok. rewrite Huri.
    destruct link as [| c l]; [contradiction |].
    rewrite Hf, Hok. reflexivity.
Qed.

Lemma generateVideo_failure_after_done_witness :
  generateVideo 1 (lit "KEY") linkless_backend
  = Some ([lit "Initializing the virtual microscope..."],
          inl (ErrorObject (lit "Video generation failed to produce a download link.")))
  /\ generateVideo 1 (lit "KEY") forbidden_backend
  = Some ([lit "Initializing the virtual microscope..."; fetching_message],
          inl (ErrorObject (lit "Failed to download video: Forbidden"))).
Proof.
  split.
  - apply (proj1 (generateVideo_failure_after_done (lit "KEY") linkless_backend 0 1
                    {| done := true; uri := Some [] |}
                    ltac:(intros k Hk; lia) eq_refl eq_refl ltac:(lia))).
    reflexivity.
  - apply (proj2 (generateVideo_failure_after_done (lit "KEY") forbidden_backend 0 1
                    {| done := true; uri := Some (lit "https://video.example/2") |}
                    ltac:(intros k Hk; lia) eq_refl eq_refl ltac:(lia))
                 (lit "https://video.example/2")
                 {| ok := false; statusText := lit "Forbidden"; objectURL := [] |});
      try reflexivity.
    discriminate.
Defined.

(** X4. [generateVideo] has no bound of its own on the wait: for a job whose
    every completion check reports not-done, no number of passes of the
    loop makes it return or throw. *)
Theorem generateVideo_never_done (apiKey : jstring) (w : VideoBackend) (fuel : nat) :
  (forall k, exists op, completion_check w k = inr op /\ done op = false) ->
  generateVideo fuel apiKey w = None.
Proof.
  intros Hnot.
  destruct (generateVideo fuel apiKey w) as [out |] eqn:Hrun; [| reflexivity].
  destruct (generateVideo_ends fuel apiKey w out Hrun)
    as [n [_ [_ [[last [Hc [Hd _]]] | [e [Hc _]]]]]];
    destruct (Hnot n) as [op [Hop Hdone]]; congruence.
Qed.

Lemma generateVideo_never_done_witness :
  generateVideo 1000 (lit "KEY") stalled_backend = None.
Proof.
  apply generateVideo_never_done.
  intros k. exists {| done := false; uri := None |}.
  destruct k; split; reflexivity.
Defined.

(* ================================================================== *)
(** * Loading flags, topic and address of the running page *)
(* ================================================================== *)

Lemma visual_begin_unchanged (st : State) : visual_begin st (st, None).
Proof.
  unfold visual_begin. cbn [fst snd].
  split; [reflexivity |]. split; [apply same_navigation_refl |].
  split; [discriminate | auto].
Qed.

Lemma generateVisualForCurrentStep_begin_spec (st : State) (so : option VideoStyle) :
  visual_begin st (generateVisualForCurrentStep_begin st so).
Proof.
  unfold generateVisualForCurrentStep_begin.
  destruct (simulationPlan st); [apply visual_begin_unchanged |].
  destruct (currentStep st) as [step |]; [| apply visual_begin_unchanged].
  destruct (truthy step); [| apply visual_begin_unchanged].
  assert (Hfin : forall st', topic st' = topic st -> same_navigation st st' ->
                             visual_begin st (visual_finally st', None)).
  { intros st' Ht [H1 [H2 H3]]. unfold visual_begin. cbn [fst snd].
    split; [exact Ht |]. split; [repeat split; assumption |].
    split; [discriminate |]. intros _ H. discriminate H. }
  assert (Hreq : forall st' q, topic st' = topic st -> same_navigation st st' ->
                               is_plan_request q = false ->
                               visual_begin st (st', Some q)).
  { intros st' q Ht Hs Hq. unfold visual_begin. cbn [fst snd].
    split; [exact Ht |]. split; [exact Hs |].
    split; [intros q' H; injection H as <-; exact Hq | discriminate]. }
  destruct (member_of step (lit "type")) as [[| | | ty | |] |];
    try (apply Hfin; [reflexivity | repeat split]).
  destruct (jstring_eqb ty (lit "image"));
    [apply Hreq; [reflexivity | repeat split | reflexivity] |].
  destruct (jstring_eqb ty (lit "video"));
    [apply Hreq; [reflexivity | repeat split | reflexivity] |].
  apply Hfin; [reflexivity | repeat split].
Qed.

Lemma handleImageEdit_begin_spec (st : State) (p : jstring) :
  visual_begin st (handleImageEdit_begin st p).
Proof.
  unfold handleImageEdit_begin.
  destruct (visualContent st) as [vc |]; [| apply visual_begin_unchanged].
  destruct (vc_type vc); [| apply visual_begin_unchanged].
  destruct (vc_mimeType vc) as [[| c m] |]; try apply visual_begin_unchanged.
  unfold visual_begin. cbn [fst snd].
  split; [reflexivity |]. split; [repeat split |].
  split; [intros q H; injection H as <-; reflexivity | discriminate].
Qed.

Lemma existsb_awaiting (l : list Request) (q : Request) :
  is_plan_request q = false ->
  existsb is_visual_request (l ++ [q]) = true.
Proof.
  intros Hq. rewrite existsb_app. cbn [existsb]. unfold is_visual_request at 2.
  rewrite Hq. cbn. apply orb_true_r.
Qed.

Lemma started_page_invariant (sys : System) (res : State * option Request) :
  page_invariant sys ->
  visual_begin (app_state (page sys)) res ->
  page_invariant (started sys res).
Proof.
  intros [Ha [Hb [Hc Hd]]] [Ht [[Hp [Hx Hl]] [Hq Hnone]]].
  unfold page_invariant, started. cbn [page app_state with_app in_flight location].
  rewrite (plan_requests_awaiting_other _ _ Hq). rewrite Ht, Hp, Hl.
  split; [| repeat split; assumption].
  intros Hflag. destruct (snd res) as [q |] eqn:Hs.
  - cbn [awaiting]. apply existsb_awaiting. apply Hq. reflexivity.
  - cbn [awaiting]. apply Ha. apply Hnone; [reflexivity | exact Hflag].
Qed.

Lemma settled_page_invariant (sys : System) (kind : Request -> bool)
  (settle : State -> State) :
  page_invariant sys ->
  (forall r, kind r = true -> is_plan_request r = false) ->
  (forall st, same_navigation st (settle st)
              /\ topic (settle st) = topic st
              /\ visual (loading (settle st)) = false) ->
  page_invariant (settled sys kind settle).
Proof.
  intros Hinv Hk Hs. unfold settled.
  destruct (take_request kind (in_flight sys)) as [rest |] eqn:E; [| exact Hinv].
  destruct Hinv as [Ha [Hb [Hc Hd]]].
  destruct (Hs (app_state (page sys))) as [[Hp [Hx Hl]] [Ht Hv]].
  unfold page_invariant. cbn [page app_state with_app in_flight location].
  rewrite (take_request_other kind _ _ Hk E). rewrite Ht, Hp, Hl, Hv.
  split; [discriminate | repeat split; assumption].
Qed.

Lemma visual_effect_page_invariant (before : State) (sys : System) :
  page_invariant sys -> page_invariant (visual_effect before sys).
Proof.
  intros Hinv. unfold visual_effect.
  destruct (_ && _); [assumption |].
  destruct (simulationPlan (app_state (page sys))); [assumption |].
  apply started_page_invariant; [assumption |].
  apply generateVisualForCurrentStep_begin_spec.
Qed.

Lemma URLSearchParams_get_nothing :
  loadable_parameter {| origin := []; pathname := []; search := [] |} = false.
Proof. reflexivity. Qed.

Lemma replaceState_not_loadable (loc : Location) :
  loadable_parameter (replaceState_pathname loc) = false.
Proof. reflexivity. Qed.

Lemma handle_page_invariant (sys : System) (ev : Event) :
  system_invariant sys -> page_invariant sys -> page_invariant (handle sys ev).
Proof.
  intros Hsys Hinv. destruct ev.
  - unfold handle, TopicInput_handleSubmit.
    destruct (trim input) as [| c t]; [destruct sys as [[? ?] ?]; exact Hinv |].
    destruct (plan (loading (app_state (page sys)))) eqn:Hl;
      [destruct sys as [[? ?] ?]; exact Hinv |].
    destruct Hsys as [_ [Hle Hone]]. destruct Hinv as [_ [_ [_ Hd]]].
    assert (Hz : plan_requests (in_flight sys) = 0%nat).
    { destruct (plan_requests (in_flight sys)) as [| [| k]] eqn:E; [reflexivity | | lia].
      destruct (Hone eq_refl) as [Habs _]. congruence. }
    unfold handleTopicSubmit_begin, page_invariant, awaiting.
    cbn [page app_state in_flight location].
    rewrite plan_requests_app.
    change (plan_requests [PlanRequest (c :: t) simulationType]) with 1%nat.
    rewrite Hz.
    split; [discriminate |]. split; [reflexivity |]. split; [reflexivity |].
    destruct (includes (search (location (page sys))) (lit "simulation="));
      [apply replaceState_not_loadable | exact Hd].
  - destruct Hinv as [Ha [Hb [Hc Hd]]].
    unfold handle, page_invariant, goToStep. cbn [page app_state with_app in_flight location].
    destruct (_ && _); repeat split; assumption.
  - cbn. apply started_page_invariant; [exact Hinv |].
    unfold ImageEditor_handleEdit. destruct (trim input); [apply visual_begin_unchanged |].
    destruct (visual (loading (app_state (page sys))));
      [apply visual_begin_unchanged | apply handleImageEdit_begin_spec].
  - cbn. apply started_page_invariant; [exact Hinv |].
    unfold VideoOptions_handleRegenerateClick, handleVideoRegenerate_begin.
    destruct (visual (loading (app_state (page sys))));
      [apply visual_begin_unchanged | apply generateVisualForCurrentStep_begin_spec].
  - cbn. unfold settled.
    destruct (take_request is_plan_request (in_flight sys)) as [rest |] eqn:E;
      [| exact Hinv].
    apply take_request_plan in E.
    destruct Hsys as [_ [Hle _]]. destruct Hinv as [_ [_ [Hc Hd]]].
    assert (Hz : plan_requests rest = 0%nat) by lia.
    assert (Htopic : truthy (topic (app_state (page sys))) = true)
      by (apply Hc; right; lia).
    unfold page_invariant. cbn [page app_state with_app in_flight location]. rewrite Hz.
    assert (Hflags : loading (handleTopicSubmit_settle (app_state (page sys)) outcome)
                     = {| plan := false; visual := false |})
      by (destruct outcome as [e | [| x l]]; reflexivity).
    assert (Ht : topic (handleTopicSubmit_settle (app_state (page sys)) outcome)
                 = topic (app_state (page sys)))
      by (destruct outcome as [e | [| x l]]; reflexivity).
    rewrite Hflags, Ht. cbn [plan visual].
    split; [discriminate |]. split; [discriminate |]. split; [intros _; exact Htopic |].
    exact Hd.
  - cbn. apply settled_page_invariant; [exact Hinv | |].
    + intros [] H; try discriminate; reflexivity.
    + intros st. destruct outcome; repeat split.
  - cbn. apply settled_page_invariant; [exact Hinv | |].
    + intros [] H; try discriminate; reflexivity.
    + intros st. destruct outcome; repeat split.
  - cbn. destruct (existsb is_video_request (in_flight sys)); [| exact Hinv].
    destruct Hinv as [Ha [Hb [Hc Hd]]]. repeat split; assumption.
  - cbn. apply settled_page_invariant; [exact Hinv | |].
    + intros [] H; try discriminate; reflexivity.
    + intros st. destruct outcome; repeat split.
Qed.

Lemma mount_page_invariant (loc : Location) : page_invariant (mount loc).
Proof.
  unfold mount. apply visual_effect_page_invariant.
  unfold page_invariant, loadSimulationFromURL, loadable_parameter.
  cbn [page app_state in_flight location search].
  destruct (URLSearchParams_get (search loc) (lit "simulation")) as [[| c rest] |] eqn:Eg;
    cbn [page app_state in_flight location search].
  - rewrite Eg. repeat split; try discriminate.
    intros [H | H]; [contradiction H; reflexivity | discriminate H].
  - assert (Hst : forall st',
              (st' = initial_state
               \/ exists t p, truthy t = true
                              /\ st' = setSimulationPlan p (setTopic t initial_state)) ->
              (visual (loading st') = true -> existsb is_visual_request [] = true)
              /\ (plan (loading st') = true -> plan_requests [] = 1%nat)
              /\ (simulationPlan st' <> [] \/ plan_requests [] = 1%nat ->
                  truthy (topic st') = true)).
    { intros st' [-> | [t [p [Ht ->]]]]; cbn.
      - repeat split; try discriminate.
        intros [H | H]; [contradiction H; reflexivity | discriminate H].
      - repeat split; try discriminate. intros _. exact Ht. }
    destruct (decode_shared (c :: rest)) as [data |].
    + destruct (shared_guard data) as [[t p] |] eqn:G.
      * destruct (shared_guard_nonempty _ _ _ G) as [Ht _].
        destruct (Hst (setSimulationPlan p (setTopic t initial_state))) as [H1 [H2 H3]];
          [right; eauto |]. repeat split; assumption.
      * destruct (Hst initial_state) as [H1 [H2 H3]]; [left; reflexivity |].
        repeat split; assumption.
    + destruct (Hst initial_state) as [H1 [H2 H3]]; [left; reflexivity |].
      repeat split; assumption.
  - rewrite Eg. repeat split; try discriminate.
    intros [H | H]; [contradiction H; reflexivity | discriminate H].
Qed.

Lemma run_page_invariant (events : list Event) (sys : System) :
  system_invariant sys -> page_invariant sys ->
  system_invariant (fold_left dispatch events sys)
  /\ page_invariant (fold_left dispatch events sys).
Proof.
  revert sys. induction events as [| ev events IH]; intros sys Hsys Hinv; cbn.
  - split; assumption.
  - apply IH.
    + apply dispatch_invariant, Hsys.
    + unfold dispatch. apply visual_effect_page_invariant, handle_page_invariant; assumption.
Qed.

Lemma reachable_invariants (loc : Location) (events : list Event) :
  system_invariant (run loc events) /\ page_invariant (run loc events).
Proof.
  apply run_page_invariant; [apply mount_invariant | apply mount_page_invariant].
Qed.

(** X6. In every state the page can reach, a set visual-loading flag comes
    with an image, edit or video request whose reply is still awaited: the
    spinner of the visual frame is never left without a reply to end it. *)
Theorem visual_flag_has_request (loc : Location) (events : list Event) :
  visual (loading (app_state (page (run loc events)))) = true ->
  existsb is_visual_request (in_flight (run loc events)) = true.
Proof.
  destruct (reachable_invariants loc events) as [_ [Hvisual _]]. exact Hvisual.
Qed.

Lemma visual_flag_has_request_witness :
  visual (loading (app_state (page (run (location shared_link_page) [])))) = true
  /\ existsb is_visual_request (in_flight (run (location shared_link_page) [])) = true.
Proof.
  split; [vm_compute; reflexivity |].
  apply (visual_flag_has_request (location shared_link_page) []).
  vm_compute. reflexivity.
Defined.

(** X7. In every state the page can reach, the plan-loading flag is set
    exactly while a plan request is awaited, and never more than one plan
    request is awaited. *)
Theorem plan_flag_iff_plan_request (loc : Location) (events : list Event) :
  (plan (loading (app_state (page (run loc events)))) = true
   <-> plan_requests (in_flight (run loc events)) = 1%nat)
  /\ (plan_requests (in_flight (run loc events)) <= 1)%nat.
Proof.
  destruct (reachable_invariants loc events) as [[_ [Hle Hone]] [_ [Hflag _]]].
  split; [| exact Hle].
  split; [exact Hflag |]. intros H. apply Hone. exact H.
Qed.

(** X8. In every state the page can reach, [SimulationViewer] passes its
    three early returns and goes on to its panel exactly when the plan is
    not empty (neither the placeholder nor the plan spinner hides a plan),
    and then [simulationPlan[currentStepIndex]], which the panel reads, is
    an element of the plan. *)
Theorem viewer_shows_plan (loc : Location) (events : list Event) :
  let st := app_state (page (run loc events)) in
  (simulationPlan st <> [] <-> SimulationViewer_early_return st = None)
  /\ (SimulationViewer_early_return st = None ->
      exists step, currentStep st = Some step /\ In step (simulationPlan st)).
Proof.
  cbv zeta.
  destruct (reachable_invariants loc events)
    as [[Hrange [Hle Hone]] [_ [Hflag [Htopic _]]]].
  set (st := app_state (page (run loc events))) in *.
  assert (Hpanel : SimulationViewer_early_return st = None -> simulationPlan st <> []).
  { unfold SimulationViewer_early_return.
    destruct (negb (truthy (topic st)) && negb (plan (loading st))); [discriminate |].
    destruct (plan (loading st)); [discriminate |].
    destruct (simulationPlan st); [discriminate |]. intros _. discriminate. }
  split; [split; [| exact Hpanel] |].
  - intros Hne.
    assert (Hoff : plan (loading st) = false).
    { destruct (plan (loading st)) eqn:E; [| reflexivity].
      destruct (Hone (Hflag eq_refl)) as [_ [Hempty _]]. contradiction. }
    unfold SimulationViewer_early_return. rewrite Hoff, (Htopic (or_introl Hne)).
    destruct (simulationPlan st); [contradiction | reflexivity].
  - intros Hview. apply Hpanel in Hview. unfold index_in_range in Hrange.
    unfold currentStep, at_index.
    destruct (simulationPlan st) as [| x rest] eqn:Hplan; [contradiction |].
    destruct (Z.ltb_spec (currentStepIndex st) 0) as [Hneg | _]; [lia |].
    destruct (nth_error (x :: rest) (Z.to_nat (currentStepIndex st))) as [step |] eqn:Hn.
    + exists step. split; [reflexivity |]. eapply nth_error_In. exact Hn.
    + apply nth_error_None in Hn. lia.
Qed.

(** X9. In every state the page can reach, the address holds no [simulation]
    parameter for [loadSimulationFromURL] to act on: a second run of the
    loader would change nothing. *)
Theorem address_has_nothing_to_load (loc : Location) (events : list Event) :
  loadable_parameter (location (page (run loc events))) = false
  /\ loadSimulationFromURL (page (run loc events)) = page (run loc events).
Proof.
  destruct (reachable_invariants loc events) as [_ [_ [_ [_ Hloc]]]].
  split; [exact Hloc |].
  unfold loadable_parameter in Hloc. unfold loadSimulationFromURL.
  destruct (URLSearchParams_get (search (location (page (run loc events))))
              (lit "simulation")) as [[| c rest] |];
    [reflexivity | discriminate | reflexivity].
Qed.

(* ================================================================== *)
(** * Replies that arrive late *)
(* ================================================================== *)

Lemma take_request_app (kind : Request -> bool) (l : list Request) (q : Request) :
  existsb kind l = true ->
  exists rest, take_request kind l = Some rest
               /\ take_request kind (l ++ [q]) = Some (rest ++ [q]).
Proof.
  induction l as [| r l IH]; [discriminate |].
  cbn [existsb take_request List.app]. destruct (kind r).
  - intros _. exists l. split; reflexivity.
  - cbn [orb]. intros H. destruct (IH H) as [rest [H1 H2]].
    exists (r :: rest). rewrite H1, H2. split; reflexivity.
Qed.

(** X10. No request is cancelled: when a topic is submitted while an image
    request is awaited, the image that arrives afterwards is still stored,
    so the new session (new topic, empty plan, plan still loading) holds
    the visual of the old one. *)
Theorem late_image_is_stored (sys : System) (input : jstring)
  (simulationType : VisualType) (r : ImageResult) :
  trim input <> [] ->
  plan (loading (app_state (page sys))) = false ->
  existsb is_image_request (in_flight sys) = true ->
  let sys' := dispatch (dispatch sys (SubmitTopic input simulationType))
                       (ImageArrives (inr r)) in
  topic (app_state (page sys')) = JStr (trim input)
  /\ simulationPlan (app_state (page sys')) = []
  /\ plan (loading (app_state (page sys'))) = true
  /\ visualContent (app_state (page sys')) = Some (image_content r).
Proof.
  intros Hinput Hidle Hawaited. cbv zeta.
  destruct (take_request_app is_image_request (in_flight sys)
              (PlanRequest (trim input) simulationType) Hawaited)
    as [rest [_ Htake]].
  assert (Hsubmit : dispatch sys (SubmitTopic input simulationType)
                    = {| page := fst (handleTopicSubmit_begin (page sys) (trim input)
                                        simulationType);
                         in_flight := in_flight sys
                                      ++ [PlanRequest (trim input) simulationType] |}).
  { unfold dispatch, handle, TopicInput_handleSubmit.
    destruct (trim input) as [| c t]; [contradiction |].
    rewrite Hidle. unfold handleTopicSubmit_begin, visual_effect, awaiting.
    cbn [page app_state simulationPlan setLoading setError setVisualContent
         setCurrentStepIndex setSimulationPlan setTopic fst].
    destruct (_ && _); reflexivity. }
  rewrite Hsubmit.
  unfold dispatch, handle, settled. cbn [in_flight]. rewrite Htake.
  unfold visual_effect, handleTopicSubmit_begin.
  cbn [page app_state with_app fst simulationPlan currentStepIndex
       generateVisual_settle_image visual_finally setVideoStatus setLoadingVisual
       setLoading setError setVisualContent setCurrentStepIndex setSimulationPlan
       setTopic List.length Nat.eqb].
  rewrite Z.eqb_refl. cbn. repeat split.
Qed.

Lemma late_image_is_stored_witness :
  let sys := run (location shared_link_page) [] in
  let sys' := dispatch (dispatch sys (SubmitTopic (lit " Mitosis ") image))
                       (ImageArrives (inr {| base64 := lit "AAAA";
                                             mimeType := lit "image/png" |})) in
  topic (app_state (page sys')) = JStr (trim (lit " Mitosis "))
  /\ simulationPlan (app_state (page sys')) = []
  /\ plan (loading (app_state (page sys'))) = true
  /\ visualContent (app_state (page sys'))
     = Some (image_content {| base64 := lit "AAAA"; mimeType := lit "image/png" |}).
Proof.
  apply (late_image_is_stored (run (location shared_link_page) []) (lit " Mitosis ")
           image {| base64 := lit "AAAA"; mimeType := lit "image/png" |}).
  - vm_compute. discriminate.
  - vm_compute. reflexivity.
  - vm_compute. reflexivity.
Defined.

(* ================================================================== *)
(** * The replies of the image model *)
(* ================================================================== *)

(** X5. [generateImage] and [editImage] return the data and MIME type of the
    first part of the reply that carries inline data, whatever follows it,
    and throw their own message exactly when no part carries any. *)
Theorem image_reply_first_inline_data (parts : list (option InlineData)) :
  (Forall (fun part => part = None) parts ->
   generateImage (inr parts)
   = inl (ErrorObject (lit "Image generation failed. No image data received."))
   /\ editImage (inr parts)
      = inl (ErrorObject (lit "Image editing failed. No image data received.")))
  /\ (forall before d after,
        parts = before ++ Some d :: after ->
        Forall (fun part => part = None) before ->
        generateImage (inr parts)
        = inr {| base64 := inline_data d; mimeType := inline_mimeType d |}
        /\ editImage (inr parts)
           = inr {| base64 := inline_data d; mimeType := inline_mimeType d |})
  /\ ((exists r, generateImage (inr parts) = inr r) <-> Exists (fun part => part <> None) parts).
Proof.
  split; [| split].
  - intros Hnone. unfold generateImage, editImage.
    assert (H : first_inline_data parts = None).
    { induction Hnone as [| part rest Hpart _ IH]; [reflexivity |].
      subst part. exact IH. }
    rewrite H. split; reflexivity.
  - intros before d after -> Hnone. unfold generateImage, editImage.
    assert (H : first_inline_data (before ++ Some d :: after)
                = Some {| base64 := inline_data d; mimeType := inline_mimeType d |}).
    { induction Hnone as [| part rest Hpart _ IH]; [reflexivity |].
      subst part. exact IH. }
    rewrite H. split; reflexivity.
  - unfold generateImage. induction parts as [| [d |] rest IH].
    + split; [intros [r H]; discriminate | intros H; inversion H].
    + split; [intros _; left; discriminate | intros _; eexists; reflexivity].
    + cbn [first_inline_data]. rewrite IH. split.
      * intros H. right. exact H.
      * intros H. inversion H as [? ? Habs | ? ? Hrest]; [contradiction | exact Hrest].
Qed.

Lemma image_reply_first_inline_data_witness :
  generateImage (inr [None; Some {| inline_data := lit "AAAA";
                                    inline_mimeType := lit "image/png" |};
                      Some {| inline_data := lit "BBBB";
                              inline_mimeType := lit "image/jpeg" |}])
  = inr {| base64 := lit "AAAA"; mimeType := lit "image/png" |}.
Proof.
  refine (proj1 (proj1 (proj2 (image_reply_first_inline_data _)) [None]
                   {| inline_data := lit "AAAA"; inline_mimeType := lit "image/png" |}
                   [Some {| inline_data := lit "BBBB";
                            inline_mimeType := lit "image/jpeg" |}]
                   eq_refl _)).
  repeat constructor.
Defined.

Lemma viewer_shows_plan_witness :
  exists step,
    currentStep (app_state (page (run (location shared_link_page) [ClickStep 1])))
    = Some step
    /\ In step (simulationPlan
                  (app_state (page (run (location shared_link_page) [ClickStep 1])))).
Proof.
  apply (proj2 (viewer_shows_plan (location shared_link_page) [ClickStep 1])).
  vm_compute. reflexivity.
Defined.

(* ================================================================== *)
(** * [String.prototype.trim] and the text fields *)
(* ================================================================== *)

Lemma trim_start_blank (s : jstring) : blank s = true -> trim_start s = [].
Proof.
  unfold blank. induction s as [| c s IH]; [reflexivity |].
  cbn [forallb trim_start]. intros H. apply andb_prop in H. destruct H as [Hc Hs].
  rewrite Hc. exact (IH Hs).
Qed.

Lemma trim_start_after_blank (pre s : jstring) :
  blank pre = true -> trim_start (pre ++ s) = trim_start s.
Proof.
  unfold blank. induction pre as [| c pre IH]; [reflexivity |].
  cbn [forallb trim_start List.app]. intros H. apply andb_prop in H.
  destruct H as [Hc Hs]. rewrite Hc. exact (IH Hs).
Qed.

Lemma trim_start_split (s : jstring) :
  exists pre, s = pre ++ trim_start s /\ blank pre = true.
Proof.
  induction s as [| c s [pre [Hs Hpre]]]; [exists []; split; reflexivity |].
  cbn [trim_start]. destruct (is_trim_space c) eqn:Hc.
  - exists (c :: pre). split; [cbn [List.app]; rewrite <- Hs; reflexivity |].
    unfold blank in *. cbn [forallb]. rewrite Hc, Hpre. reflexivity.
  - exists []. split; reflexivity.
Qed.

Lemma trim_start_head (s : jstring) : is_trim_space (hd 0 (trim_start s)) = false.
Proof.
  induction s as [| c s IH]; [reflexivity |].
  cbn [trim_start]. destruct (is_trim_space c) eqn:Hc; [exact IH | exact Hc].
Qed.

Lemma trim_start_before (s x : jstring) :
  trim_start s <> [] -> trim_start (s ++ x) = trim_start s ++ x.
Proof.
  induction s as [| c s IH]; [intros H; contradiction H; reflexivity |].
  cbn [trim_start List.app]. destruct (is_trim_space c); [exact IH | reflexivity].
Qed.

Lemma blank_rev (s : jstring) : blank (rev s) = blank s.
Proof.
  unfold blank. induction s as [| c s IH]; [reflexivity |].
  cbn [rev forallb]. rewrite forallb_app, IH. cbn [forallb].
  rewrite andb_true_r. apply andb_comm.
Qed.

Lemma blank_app (a b : jstring) : blank (a ++ b) = blank a && blank b.
Proof. apply forallb_app. Qed.

Lemma trim_split (s : jstring) :
  exists pre suf, s = pre ++ trim s ++ suf /\ blank pre = true /\ blank suf = true.
Proof.
  unfold trim. destruct (trim_start_split s) as [pre [Hs Hpre]].
  destruct (trim_start_split (rev (trim_start s))) as [suf [Hr Hsuf]].
  exists pre, (rev suf). split; [| split; [exact Hpre | rewrite blank_rev; exact Hsuf]].
  rewrite <- rev_app_distr, <- Hr, rev_involutive. exact Hs.
Qed.

Lemma trim_ends (s : jstring) :
  is_trim_space (hd 0 (trim s)) = false /\ is_trim_space (last (trim s) 0) = false.
Proof.
  unfold trim.
  destruct (trim_start_split (rev (trim_start s))) as [suf [Hr _]].
  pose proof (trim_start_head (rev (trim_start s))) as Hlast.
  pose proof (trim_start_head s) as Hfirst.
  destruct (trim_start (rev (trim_start s))) as [| c v]; [split; reflexivity |].
  cbn [hd] in Hlast. split.
  - apply (f_equal (@rev Z)) in Hr. rewrite rev_involutive, rev_app_distr in Hr.
    rewrite Hr in Hfirst. cbn [rev] in *.
    destruct (rev v) as [| d w]; cbn [List.app hd] in *; exact Hfirst.
  - cbn [rev]. rewrite last_last. exact Hlast.
Qed.

Lemma trim_blank (s : jstring) : blank s = true -> trim s = [].
Proof. intros H. unfold trim. rewrite (trim_start_blank s H). reflexivity. Qed.

Lemma trim_padding (pre s suf : jstring) :
  blank pre = true -> blank suf = true -> trim (pre ++ s ++ suf) = trim s.
Proof.
  intros Hpre Hsuf. unfold trim. rewrite (trim_start_after_blank pre _ Hpre).
  destruct (trim_start s) as [| c u] eqn:Hs.
  - destruct (trim_start_split s) as [p [Hp Hblank]]. rewrite Hs, app_nil_r in Hp.
    subst p. rewrite (trim_start_blank (s ++ suf)); [reflexivity |].
    rewrite blank_app, Hblank, Hsuf. reflexivity.
  - rewrite trim_start_before by (rewrite Hs; discriminate). rewrite Hs.
    rewrite rev_app_distr. rewrite (trim_start_after_blank (rev suf)); [reflexivity |].
    rewrite blank_rev. exact Hsuf.
Qed.

(** X11. [TopicInput.handleSubmit] hands on the typed text without the white
    space around it: whenever it calls [handleTopicSubmit], the topic
    requested and stored is the input stripped of a blank prefix and a blank
    suffix, it is not empty, it neither starts nor ends with white space,
    and no plan was loading. *)
Theorem TopicInput_submits_trimmed_topic (pg pg' : Page) (input : jstring)
  (simulationType : VisualType) (r : Request) :
  TopicInput_handleSubmit pg input simulationType = (pg', Some r) ->
  exists t pre suf,
    input = pre ++ t ++ suf /\ blank pre = true /\ blank suf = true
    /\ t <> []
    /\ is_trim_space (hd 0 t) = false /\ is_trim_space (last t 0) = false
    /\ r = PlanRequest t simulationType
    /\ topic (app_state pg') = JStr t
    /\ plan (loading (app_state pg)) = false.
Proof.
  unfold TopicInput_handleSubmit. intros H.
  destruct (trim_split input) as [pre [suf [Hinput [Hpre Hsuf]]]].
  destruct (trim_ends input) as [Hfirst Hlast].
  destruct (trim input) as [| c t] eqn:Ht; [discriminate |].
  destruct (plan (loading (app_state pg))) eqn:Hl; [discriminate |].
  unfold handleTopicSubmit_begin in H. injection H as <- <-.
  exists (c :: t), pre, suf. repeat split; try assumption. discriminate.
Qed.

Lemma TopicInput_submits_trimmed_topic_witness :
  exists t pre suf,
    [160; 32] ++ lit "Cell division" ++ [10] = pre ++ t ++ suf
    /\ blank pre = true /\ blank suf = true
    /\ t <> []
    /\ is_trim_space (hd 0 t) = false /\ is_trim_space (last t 0) = false
    /\ PlanRequest (lit "Cell division") video = PlanRequest t video
    /\ topic (app_state
                (fst (handleTopicSubmit_begin (sample_page (lit "Mitosis"))
                        (lit "Cell division") video))) = JStr t
    /\ plan (loading (app_state (sample_page (lit "Mitosis")))) = false.
Proof.
  apply (TopicInput_submits_trimmed_topic (sample_page (lit "Mitosis")) _
           ([160; 32] ++ lit "Cell division" ++ [10]) video).
  vm_compute. reflexivity.
Defined.

(** X12. The two text fields ignore a blank input: [TopicInput.handleSubmit]
    and [ImageEditor.handleEdit] call nothing and change nothing when the
    text consists of white space only. *)
Theorem blank_input_is_ignored (pg : Page) (input : jstring)
  (simulationType : VisualType) :
  blank input = true ->
  TopicInput_handleSubmit pg input simulationType = (pg, None)
  /\ ImageEditor_handleEdit (app_state pg) input = (app_state pg, None).
Proof.
  intros H. unfold TopicInput_handleSubmit, ImageEditor_handleEdit.
  rewrite (trim_blank input H). split; reflexivity.
Qed.

Lemma blank_input_is_ignored_witness :
  TopicInput_handleSubmit (sample_page (lit "Mitosis")) [32; 9; 12288] image
  = (sample_page (lit "Mitosis"), None)
  /\ ImageEditor_handleEdit (app_state (sample_page (lit "Mitosis"))) [32; 9; 12288]
     = (app_state (sample_page (lit "Mitosis")), None).
Proof.
  apply (blank_input_is_ignored (sample_page (lit "Mitosis")) [32; 9; 12288] image).
  reflexivity.
Defined.

(** X13. [generateSimulationPlan] does not see white space around the reply:
    a reply text with a blank prefix and a blank suffix (line ends, no-break
    spaces, a byte-order mark) gives what the text without them gives. *)
Theorem generateSimulationPlan_ignores_padding (type_error : Thrown)
  (pre text suf : jstring) :
  blank pre = true -> blank suf = true ->
  generateSimulationPlan type_error (inr (Some (pre ++ text ++ suf)))
  = generateSimulationPlan type_error (inr (Some text)).
Proof.
  intros Hpre Hsuf. unfold generateSimulationPlan.
  rewrite (trim_padding pre text suf Hpre Hsuf). reflexivity.
Qed.

Lemma generateSimulationPlan_ignores_padding_witness :
  generateSimulationPlan NotAnError (inr (Some ([65279; 160] ++ lit "[true]" ++ [8232])))
  = generateSimulationPlan NotAnError (inr (Some (lit "[true]"))).
Proof.
  apply (generateSimulationPlan_ignores_padding NotAnError [65279; 160] (lit "[true]")
           [8232]); reflexivity.
Defined.

(* ================================================================== *)
(** * [handleDownload]: the name of the downloaded file *)
(* ================================================================== *)

Lemma sanitized_unit (c : Z) :
  let d := if is_alnum c then c else 95 in
  file_safe (if (65 <=? d) && (d <=? 90) then d + 32 else d) = true.
Proof.
  cbv zeta. destruct (is_alnum c) eqn:Ha; [| reflexivity].
  destruct ((65 <=? c) && (c <=? 90)) eqn:Hu;
    unfold file_safe, is_alnum, is_digit in *; lia.
Qed.

Lemma sanitized_safe (t : jstring) :
  forallb file_safe (toLowerCase (replace_non_alnum t)) = true.
Proof.
  unfold toLowerCase, replace_non_alnum. induction t as [| c t IH]; [reflexivity |].
  cbn [map forallb]. rewrite IH, (sanitized_unit c). reflexivity.
Qed.

Lemma safe_unit_kept (c : Z) :
  file_safe c = true ->
  (let d := if is_alnum c then c else 95 in
   if (65 <=? d) && (d <=? 90) then d + 32 else d) = c.
Proof.
  cbv zeta. intros H. destruct (is_alnum c) eqn:Ha.
  - destruct ((65 <=? c) && (c <=? 90)) eqn:Hu; [| reflexivity].
    unfold file_safe, is_alnum, is_digit in *; lia.
  - cbn. unfold file_safe, is_alnum, is_digit in *; lia.
Qed.

Lemma safe_topic_kept (t : jstring) :
  forallb file_safe t = true -> toLowerCase (replace_non_alnum t) = t.
Proof.
  unfold toLowerCase, replace_non_alnum. induction t as [| c t IH]; [reflexivity |].
  cbn [map forallb]. intros H. apply andb_prop in H. destruct H as [Hc Ht].
  rewrite (IH Ht). f_equal. exact (safe_unit_kept c Hc).
Qed.

(** X14. The file name [handleDownload] gives begins with a stem as long as the
    topic that holds only lower-case ASCII letters, digits and underscores
    (a topic made of such characters is its own stem); then come [_step_],
    the step number counted from 1, a dot and the extension.  The link
    points at the data of the visual. *)
Theorem handleDownload_file_name (type_error : Thrown) (st : State)
  (vc : VisualContent) (t : jstring) :
  visualContent st = Some vc ->
  topic st = JStr t ->
  exists stem,
    handleDownload type_error st
    = Some (inr {| link_href := vc_data vc;
                   link_download :=
                     stem ++ lit "_step_" ++ number_text (currentStepIndex st + 1)
                     ++ lit "." ++ file_extension vc |})
    /\ List.length stem = List.length t
    /\ forallb file_safe stem = true
    /\ (forallb file_safe t = true -> stem = t).
Proof.
  intros Hvc Ht. exists (toLowerCase (replace_non_alnum t)).
  unfold handleDownload. rewrite Hvc, Ht.
  split; [reflexivity |]. split; [| split].
  - unfold toLowerCase, replace_non_alnum. rewrite !length_map. reflexivity.
  - apply sanitized_safe.
  - apply safe_topic_kept.
Qed.

Lemma handleDownload_file_name_witness :
  exists stem,
    handleDownload NotAnError
      (setTopic (JStr (lit "The Human Heart!")) (setCurrentStepIndex 1 shown_state))
    = Some (inr {| link_href := vc_data sample_image;
                   link_download :=
                     stem ++ lit "_step_" ++ number_text (1 + 1)
                     ++ lit "." ++ file_extension sample_image |})
    /\ List.length stem = List.length (lit "The Human Heart!")
    /\ forallb file_safe stem = true
    /\ (forallb file_safe (lit "The Human Heart!") = true
        -> stem = lit "The Human Heart!").
Proof.
  apply (handleDownload_file_name NotAnError
           (setTopic (JStr (lit "The Human Heart!")) (setCurrentStepIndex 1 shown_state))
           sample_image (lit "The Human Heart!")); reflexivity.
Defined.

Lemma split_on_pieces (sep : Z) (s : jstring) :
  Forall (fun piece => without sep piece = true) (split_on sep s).
Proof.
  induction s as [| c s IH]; [repeat constructor |].
  cbn [split_on]. destruct (Z.eqb_spec c sep) as [-> | Hne].
  - constructor; [reflexivity | exact IH].
  - destruct (split_on sep s) as [| piece rest]; [repeat constructor |].
    + unfold without. cbn [forallb]. apply Z.eqb_neq in Hne. rewrite Hne. reflexivity.
    + inversion IH as [| ? ? Hpiece Hrest]; subst. constructor; [| exact Hrest].
      unfold without in *. cbn [forallb]. apply Z.eqb_neq in Hne.
      rewrite Hne, Hpiece. reflexivity.
Qed.

Lemma split_on_at (sep : Z) (a b : jstring) :
  without sep a = true -> split_on sep (a ++ sep :: b) = a :: split_on sep b.
Proof.
  unfold without. induction a as [| c a IH].
  - intros _. cbn [List.app split_on]. rewrite Z.eqb_refl. reflexivity.
  - cbn [forallb List.app split_on]. intros H. apply andb_prop in H.
    destruct H as [Hc Ha]. apply negb_true_iff in Hc. rewrite Hc, (IH Ha). reflexivity.
Qed.

(** X15. The extension of the downloaded file is never empty and never holds
    a slash.  It is [mp4] for a video; for an image whose MIME type is a
    type, a slash and a non-empty subtype it is the subtype, and [png] when
    the MIME type is missing or holds no slash. *)
Theorem file_extension_rule (vc : VisualContent) :
  file_extension vc <> []
  /\ without 47 (file_extension vc) = true
  /\ (vc_type vc = video -> file_extension vc = lit "mp4")
  /\ (forall a b,
        vc_type vc = image -> vc_mimeType vc = Some (a ++ 47 :: b) ->
        without 47 a = true -> without 47 b = true -> b <> [] ->
        file_extension vc = b)
  /\ (vc_type vc = image ->
      match vc_mimeType vc with
      | Some m => without 47 m = true
      | None => True
      end ->
      file_extension vc = lit "png").
Proof.
  unfold file_extension. split; [| split; [| split; [| split]]].
  - destruct (vc_type vc); [| discriminate].
    destruct (vc_mimeType vc) as [m |]; [| discriminate].
    destruct (nth_error (split_on 47 m) 1) as [[| c e] |]; discriminate.
  - destruct (vc_type vc); [| reflexivity].
    destruct (vc_mimeType vc) as [m |]; [| reflexivity].
    destruct (nth_error (split_on 47 m) 1) as [[| c e] |] eqn:Hn; try reflexivity.
    apply nth_error_In in Hn.
    exact (proj1 (Forall_forall _ _) (split_on_pieces 47 m) _ Hn).
  - intros ->. reflexivity.
  - intros a b -> -> Ha Hb Hne. rewrite (split_on_at 47 a b Ha).
    rewrite (split_on_absent 47 b Hb). cbn [nth_error].
    destruct b; [contradiction | reflexivity].
  - intros ->. destruct (vc_mimeType vc) as [m |]; [| reflexivity].
    intros Hm. rewrite (split_on_absent 47 m Hm). reflexivity.
Qed.

Lemma file_extension_rule_witness :
  file_extension {| vc_type := image; vc_data := lit "data:image/svg+xml;base64,AAAA";
                    vc_mimeType := Some (lit "image" ++ 47 :: lit "svg+xml") |}
  = lit "svg+xml".
Proof.
  refine (proj1 (proj2 (proj2 (proj2
            (file_extension_rule
               {| vc_type := image; vc_data := lit "data:image/svg+xml;base64,AAAA";
                  vc_mimeType := Some (lit "image" ++ 47 :: lit "svg+xml") |}))))
            (lit "image") (lit "svg+xml") eq_refl eq_refl eq_refl eq_refl _).
  discriminate.
Defined.

(* ================================================================== *)
(** * The [Previous] and [Next] buttons *)
(* ================================================================== *)

Lemma setCurrentStepIndex_same (st : State) :
  setCurrentStepIndex (currentStepIndex st) st = st.
Proof. destruct st. reflexivity. Qed.

Lemma setCurrentStepIndex_twice (st : State) (i j : Z) :
  setCurrentStepIndex j (setCurrentStepIndex i st) = setCurrentStepIndex j st.
Proof. reflexivity. Qed.

(** X16. While the index addresses a step of a non-empty plan, a button that is
    not disabled always moves: [Next] goes one step forward and [Previous]
    one step back, each undoes the other, and both keep the index in
    range. *)
Theorem step_buttons_move_by_one (st : State) :
  index_in_range st ->
  simulationPlan st <> [] ->
  (currentStepIndex st <> 0 ->
   currentStepIndex (Previous_click st) = currentStepIndex st - 1
   /\ Next_click (Previous_click st) = st)
  /\ (currentStepIndex st <> Z.of_nat (List.length (simulationPlan st)) - 1 ->
      currentStepIndex (Next_click st) = currentStepIndex st + 1
      /\ Previous_click (Next_click st) = st)
  /\ index_in_range (Previous_click st)
  /\ index_in_range (Next_click st).
Proof.
  unfold index_in_range. intros Hrange Hne.
  destruct (simulationPlan st) as [| x rest] eqn:Hplan; [contradiction |].
  set (n := Z.of_nat (List.length (x :: rest))) in *.
  assert (Hprev : currentStepIndex st <> 0 ->
                  Previous_click st = setCurrentStepIndex (currentStepIndex st - 1) st).
  { intros H. unfold Previous_click, goToStep. rewrite Hplan. fold n.
    destruct (Z.eqb_spec (currentStepIndex st) 0); [contradiction |].
    destruct (Z.leb_spec 0 (currentStepIndex st - 1)); [| lia].
    destruct (Z.ltb_spec (currentStepIndex st - 1) n); [reflexivity | lia]. }
  assert (Hnext : currentStepIndex st <> n - 1 ->
                  Next_click st = setCurrentStepIndex (currentStepIndex st + 1) st).
  { intros H. unfold Next_click, goToStep. rewrite Hplan. fold n.
    destruct (Z.eqb_spec (currentStepIndex st) (n - 1)); [contradiction |].
    destruct (Z.leb_spec 0 (currentStepIndex st + 1)); [| lia].
    destruct (Z.ltb_spec (currentStepIndex st + 1) n); [reflexivity | lia]. }
  split; [| split; [| split]].
  - intros H. rewrite (Hprev H). split; [reflexivity |].
    unfold Next_click, goToStep.
    cbn [simulationPlan currentStepIndex setCurrentStepIndex]. rewrite Hplan. fold n.
    destruct (Z.eqb_spec (currentStepIndex st - 1) (n - 1)); [lia |].
    replace (currentStepIndex st - 1 + 1) with (currentStepIndex st) by lia.
    destruct (Z.leb_spec 0 (currentStepIndex st)); [| lia].
    destruct (Z.ltb_spec (currentStepIndex st) n); [| lia].
    cbn [andb]. rewrite setCurrentStepIndex_twice. apply setCurrentStepIndex_same.
  - intros H. rewrite (Hnext H). split; [reflexivity |].
    unfold Previous_click, goToStep.
    cbn [simulationPlan currentStepIndex setCurrentStepIndex]. rewrite Hplan. fold n.
    destruct (Z.eqb_spec (currentStepIndex st + 1) 0); [lia |].
    replace (currentStepIndex st + 1 - 1) with (currentStepIndex st) by lia.
    destruct (Z.leb_spec 0 (currentStepIndex st)); [| lia].
    destruct (Z.ltb_spec (currentStepIndex st) n); [| lia].
    cbn [andb]. rewrite setCurrentStepIndex_twice. apply setCurrentStepIndex_same.
  - destruct (Z.eq_dec (currentStepIndex st) 0) as [H0 | H0].
    + unfold Previous_click. rewrite H0. cbn [Z.eqb]. rewrite Hplan. fold n. lia.
    + rewrite (Hprev H0). cbn [simulationPlan currentStepIndex setCurrentStepIndex].
      rewrite Hplan. fold n. lia.
  - destruct (Z.eq_dec (currentStepIndex st) (n - 1)) as [H0 | H0].
    + unfold Next_click. rewrite Hplan. fold n.
      destruct (Z.eqb_spec (currentStepIndex st) (n - 1)); [| contradiction].
      rewrite Hplan. fold n. lia.
    + rewrite (Hnext H0). cbn [simulationPlan currentStepIndex setCurrentStepIndex].
      rewrite Hplan. fold n. lia.
Qed.

Lemma step_buttons_move_by_one_witness :
  currentStepIndex (Next_click shown_state) = currentStepIndex shown_state + 1
  /\ Previous_click (Next_click shown_state) = shown_state.
Proof.
  refine (proj1 (proj2 (step_buttons_move_by_one shown_state _ _)) _).
  - vm_compute. split; [discriminate | reflexivity].
  - vm_compute. discriminate.
  - vm_compute. discriminate.
Defined.

(* ================================================================== *)
(** * From a visual request to what the panel shows *)
(* ================================================================== *)





(** X19. What is edited is what is shown: after [generateImage] or [editImage]
    delivered an image whose MIME type is not empty, with no comma in the
    MIME type or in the data, the next edit sends exactly that data and
    that MIME type to [editImage], together with the prompt. *)
Theorem edit_sends_displayed_image (st : State) (r : ImageResult)
  (editPrompt : jstring) :
  mimeType r <> [] ->
  without 44 (mimeType r) = true ->
  without 44 (base64 r) = true ->
  snd (handleImageEdit_begin (generateVisual_settle_image st (inr r)) editPrompt)
  = Some (EditRequest (Some (base64 r)) (mimeType r) editPrompt)
  /\ snd (handleImageEdit_begin (handleImageEdit_settle st (inr r)) editPrompt)
     = Some (EditRequest (Some (base64 r)) (mimeType r) editPrompt).
Proof.
  intros Hne Hmime Hdata.
  assert (Hsplit : nth_error (split_on 44 (image_data_url r)) 1 = Some (base64 r)).
  { unfold image_data_url.
    replace (lit "data:" ++ mimeType r ++ lit ";base64," ++ base64 r)
      with ((lit "data:" ++ mimeType r ++ lit ";base64") ++ 44 :: base64 r)
      by (rewrite <- !app_assoc; reflexivity).
    rewrite split_on_at.
    - rewrite (split_on_absent 44 _ Hdata). reflexivity.
    - unfold without in *. rewrite !forallb_app, Hmime. reflexivity. }
  unfold handleImageEdit_begin, generateVisual_settle_image, handleImageEdit_settle,
    visual_finally.
  cbn [visualContent setVideoStatus setLoadingVisual setLoading setVisualContent
       image_content vc_type vc_mimeType vc_data].
  destruct (mimeType r) as [| c m] eqn:Hm; [contradiction |].
  cbn [snd]. rewrite <- Hm, Hsplit. split; reflexivity.
Qed.

Lemma edit_sends_displayed_image_witness :
  snd (handleImageEdit_begin
         (generateVisual_settle_image initial_state
            (inr {| base64 := lit "iVBORw0KGgo="; mimeType := lit "image/png" |}))
         (lit "add labels"))
  = Some (EditRequest (Some (lit "iVBORw0KGgo=")) (lit "image/png") (lit "add labels")).
Proof.
  refine (proj1 (edit_sends_displayed_image initial_state
                   {| base64 := lit "iVBORw0KGgo="; mimeType := lit "image/png" |}
                   (lit "add labels") _ eq_refl eq_refl)).
  discriminate.
Defined.

(** X20. Regenerating is generating again with another style: while no visual
    is loading, a click on [Regenerate] leaves the state that the automatic
    request of the step leaves, and awaits the same request, except that a
    video request carries the selected style where the automatic one
    carries [animation]. *)
Theorem regenerate_changes_only_style (st : State) (selectedStyle : VideoStyle) :
  visual (loading st) = false ->
  fst (VideoOptions_handleRegenerateClick st selectedStyle)
  = fst (generateVisualForCurrentStep_begin st None)
  /\ match snd (generateVisualForCurrentStep_begin st None) with
     | Some (VideoRequest stepPrompt style) =>
         style = animation
         /\ snd (VideoOptions_handleRegenerateClick st selectedStyle)
            = Some (VideoRequest stepPrompt selectedStyle)
     | other => snd (VideoOptions_handleRegenerateClick st selectedStyle) = other
     end.
Proof.
  intros Hidle.
  unfold VideoOptions_handleRegenerateClick, handleVideoRegenerate_begin. rewrite Hidle.
  unfold generateVisualForCurrentStep_begin.
  destruct (simulationPlan st); [split; reflexivity |].
  destruct (currentStep st) as [step |]; [| split; reflexivity].
  destruct (truthy step); [| split; reflexivity].
  destruct (member_of step (lit "type")) as [[| | | ty | |] |]; try (split; reflexivity).
  destruct (jstring_eqb ty (lit "image")); [split; reflexivity |].
  destruct (jstring_eqb ty (lit "video")); [| split; reflexivity].
  cbn [fst snd]. split; [reflexivity |]. split; reflexivity.
Qed.

Lemma regenerate_changes_only_style_witness :
  let st := setSimulationPlan
              [step_value {| title := lit "Mitosis"; description := lit "Cells divide.";
                             prompt := lit "A dividing cell"; type := video |}]
              initial_state in
  snd (VideoOptions_handleRegenerateClick st documentary)
  = Some (VideoRequest (Some (JStr (lit "A dividing cell"))) documentary).
Proof.
  exact (proj2 (proj2 (regenerate_changes_only_style
                         (setSimulationPlan
                            [step_value {| title := lit "Mitosis";
                                           description := lit "Cells divide.";
                                           prompt := lit "A dividing cell";
                                           type := video |}]
                            initial_state)
                         documentary eq_refl))).
Defined.

(** X22. A video request is awaited with the first progress message on
    display: when [generateVisualForCurrentStep] issues a video request,
    the state it awaits in holds "Initializing the virtual microscope..."
    as status text, which the frame shows, and this is the first message
    of every run of [generateVideo]; an image request is awaited with an
    empty status text and the spinner.  It issues no other request. *)
Theorem video_request_shows_first_message (st : State)
  (styleOverride : option VideoStyle) (pending : State) (request : Request) :
  generateVisualForCurrentStep_begin st styleOverride = (pending, Some request) ->
  (is_video_request request = true /\ is_image_request request = false
   /\ videoStatus pending = lit "Initializing the virtual microscope..."
   /\ main_content pending = StatusMessage (lit "Initializing the virtual microscope...")
   /\ forall fuel apiKey w out,
        generateVideo fuel apiKey w = Some out ->
        hd [] (fst out) = videoStatus pending)
  \/ (is_image_request request = true /\ is_video_request request = false
      /\ videoStatus pending = []
      /\ main_content pending = VisualSpinner).
Proof.
  unfold generateVisualForCurrentStep_begin.
  destruct (simulationPlan st); [discriminate |].
  destruct (currentStep st) as [step |]; [| discriminate].
  destruct (truthy step); [| discriminate].
  destruct (member_of step (lit "type")) as [[| | | ty | |] |]; try discriminate.
  destruct (jstring_eqb ty (lit "image")).
  - intros H. injection H as <- <-. right. repeat split.
  - destruct (jstring_eqb ty (lit "video")); [| discriminate].
    intros H. injection H as <- <-. left.
    split; [reflexivity |]. split; [reflexivity |]. split; [reflexivity |].
    split; [reflexivity |].
    intros fuel apiKey w out Hrun.
    cbn [videoStatus setVideoStatus].
    destruct (generateVideo_ends fuel apiKey w out Hrun)
      as [n [_ [_ [[last [_ [_ ->]]] | [e [_ ->]]]]]].
    + rewrite finish_video_progress. reflexivity.
    + reflexivity.
Qed.

Lemma video_request_shows_first_message_witness :
  let st := setSimulationPlan
              [step_value {| title := lit "Mitosis"; description := lit "Cells divide.";
                             prompt := lit "A dividing cell"; type := video |}]
              initial_state in
  videoStatus (fst (generateVisualForCurrentStep_begin st None))
  = lit "Initializing the virtual microscope..."
  /\ hd [] (fst (progress_of_three_checks))
     = videoStatus (fst (generateVisualForCurrentStep_begin st None)).
Proof.
  cbv zeta.
  destruct (video_request_shows_first_message
              (setSimulationPlan
                 [step_value {| title := lit "Mitosis"; description := lit "Cells divide.";
                                prompt := lit "A dividing cell"; type := video |}]
                 initial_state)
              None _ _ eq_refl)
    as [[_ [_ [Hstatus [_ Hrun]]]] | [Himage _]]; [| discriminate Himage].
  split; [exact Hstatus |].
  exact (Hrun 3%nat (lit "KEY") three_checks_backend progress_of_three_checks eq_refl).
Defined.
